(** * mongodb-crud-mcp-server: the REST surface (server.js) and the
      tool-call adapter (mcp-server.js), embedded and verified.

    The development follows the layering of the program:

    - [JsString]  : the string primitives the code relies on
                    ([trim], [toLowerCase], the ObjectId regular
                    expression, template rendering of numbers);
    - [Bson]      : ObjectIds and their 24-digit hexadecimal wire form;
    - [Schema]    : the two Mongoose schemas, their setters, defaults and
                    validators, and the documents they describe;
    - [Model]     : the Mongoose model operations the routes call
                    ([save], [findById], [findByIdAndUpdate],
                    [findOneAndUpdate] with upsert, [populate], [select]);
    - [Api]       : the Express routes of server.js;
    - [Mcp]       : the tool handlers of mcp-server.js, with JavaScript
                    exceptions and [try]/[catch] made explicit;
    - [Examples], [Spec], [Scenario] : an instance of the collaborators,
                    the vocabulary of the statements, and example worlds;
    - the [...Facts] modules : what is proved, layer by layer.

    A JavaScript string is held as the bytes of its UTF-8 encoding
    (Stdlib [string]): equality of strings is equality of bytes, [trim]
    strips the white space of ECMAScript in that encoding, and the length
    a validator sees is the number of UTF-16 code units.  The case
    conversion [toLowerCase] follows the Unicode tables of the engine; it
    is a collaborator ([CaseConversion]) known by what it does on ASCII
    text and by two laws.  Store-maintained timestamps are not part of the
    stored documents of this model. *)

From Stdlib Require Import String Ascii List NArith Bool Arith Lia.
Import ListNotations.

Local Open Scope list_scope.
Local Open Scope string_scope.

(* ===================================================================== *)
(** ** JavaScript string primitives                                       *)
(* ===================================================================== *)

Module JsString.

(** The string of the given bytes. *)
Fixpoint of_bytes (l : list nat) : string :=
  match l with
  | [] => EmptyString
  | b :: rest => String (ascii_of_nat b) (of_bytes rest)
  end.

(** The code points [String.prototype.trim] strips, WhiteSpace and
    LineTerminator of ECMAScript, each in UTF-8: TAB, LF, VT, FF, CR,
    SPACE, U+00A0, U+1680, U+2000 to U+200A, U+2028, U+2029, U+202F,
    U+205F, U+3000 and U+FEFF. *)
Definition white_space : list string :=
  Eval cbv in
  map of_bytes
    [[9]; [10]; [11]; [12]; [13]; [32];
     [194; 160];
     [225; 154; 128];
     [226; 128; 128]; [226; 128; 129]; [226; 128; 130]; [226; 128; 131];
     [226; 128; 132]; [226; 128; 133]; [226; 128; 134]; [226; 128; 135];
     [226; 128; 136]; [226; 128; 137]; [226; 128; 138];
     [226; 128; 168]; [226; 128; 169];
     [226; 128; 175];
     [226; 129; 159];
     [227; 128; 128];
     [239; 187; 191]].

(** The string is one white space character. *)
Definition is_white_space (s : string) : bool :=
  existsb (String.eqb s) white_space.

(** [s.trimStart()]: a white space character is one, two or three bytes
    long, and a lead byte of UTF-8 only occurs where a character
    begins. *)
Fixpoint trimStart (s : string) {struct s} : string :=
  match s with
  | EmptyString => EmptyString
  | String c1 s1 =>
      if is_white_space (String c1 "") then trimStart s1
      else
        match s1 with
        | EmptyString => s
        | String c2 s2 =>
            if is_white_space (String c1 (String c2 "")) then trimStart s2
            else
              match s2 with
              | EmptyString => s
              | String c3 s3 =>
                  if is_white_space (String c1 (String c2 (String c3 "")))
                  then trimStart s3
                  else s
              end
        end
  end.

(** [s.trimEnd()], from the right: what is left of the tail is [t]; the
    character that ends at the end of [String c t] is white space exactly
    when that string is one white space character, since [t] does not end
    in one. *)
Fixpoint trimEnd (s : string) : string :=
  match s with
  | EmptyString => EmptyString
  | String c s' =>
      let t := trimEnd s' in
      if is_white_space (String c t) then EmptyString else String c t
  end.

(** [s.trim()] *)
Definition trim (s : string) : string := trimEnd (trimStart s).



(** The rest of the string after the white space character it begins
    with, if it begins with one. *)
Definition skip_white_space (s : string) : option string :=
  match s with
  | EmptyString => None
  | String c1 s1 =>
      if is_white_space (String c1 "") then Some s1
      else
        match s1 with
        | EmptyString => None
        | String c2 s2 =>
            if is_white_space (String c1 (String c2 "")) then Some s2
            else
              match s2 with
              | EmptyString => None
              | String c3 s3 =>
                  if is_white_space (String c1 (String c2 (String c3 "")))
                  then Some s3
                  else None
              end
        end
  end.

(** A byte [10xxxxxx] continues a character. *)
Definition is_continuation (c : ascii) : bool :=
  let n := N_of_ascii c in ((128 <=? n) && (n <? 192))%N.

(** The number of bytes that follow a lead byte. *)
Definition continuation_bytes (c : ascii) : nat :=
  let n := N_of_ascii c in
  if (n <? 192)%N then 0
  else if (n <? 224)%N then 1
  else if (n <? 240)%N then 2
  else 3.

(** [s.length], the number of UTF-16 code units: a character of one, two
    or three bytes is one unit, a character of four bytes is a surrogate
    pair, whose second unit is counted at its first continuation byte.
    [pending] is the number of continuation bytes still expected; a byte
    out of place counts as a character of its own. *)
Fixpoint utf16_length_from (pending : nat) (s : string) : nat :=
  match s with
  | EmptyString => 0
  | String c s' =>
      match pending with
      | S k =>
          if is_continuation c
          then (if Nat.eqb k 2 then 1 else 0) + utf16_length_from k s'
          else 1 + utf16_length_from (continuation_bytes c) s'
      | O => 1 + utf16_length_from (continuation_bytes c) s'
      end
  end.

Definition utf16_length (s : string) : nat := utf16_length_from 0 s.

Definition is_upper (c : ascii) : bool :=
  let n := N_of_ascii c in ((65 <=? n) && (n <=? 90))%N.

Definition lower_char (c : ascii) : ascii :=
  if is_upper c then ascii_of_N (N_of_ascii c + 32) else c.

(** Neither A to Z nor a to z. *)
Definition letterless (c : ascii) : bool :=
  let n := N_of_ascii c in
  negb (((65 <=? n) && (n <=? 90)) || ((97 <=? n) && (n <=? 122)))%N.

(** What [toLowerCase] does on ASCII text: A to Z become a to z. *)
Fixpoint fold_ascii (s : string) : string :=
  match s with
  | EmptyString => EmptyString
  | String c s' => String (lower_char c) (fold_ascii s')
  end.

Fixpoint all_chars (p : ascii -> bool) (s : string) : bool :=
  match s with
  | EmptyString => true
  | String c s' => p c && all_chars p s'
  end.

Definition is_ascii (s : string) : bool :=
  all_chars (fun c => (N_of_ascii c <? 128)%N) s.

(** [s.toLowerCase()], the default case conversion of Unicode.  Its
    tables belong to the engine; the program relies on what it does on
    ASCII text, on its leaving lowercased text as it is, and on its
    leaving white space alone, so that it commutes with [trim]. *)
Class CaseConversion := {
  toLowerCase : string -> string;
  toLowerCase_on_ascii :
    forall s, is_ascii s = true -> toLowerCase s = fold_ascii s;
  toLowerCase_twice : forall s, toLowerCase (toLowerCase s) = toLowerCase s;
  toLowerCase_of_trim : forall s, toLowerCase (trim s) = trim (toLowerCase s)
}.

(** The character class [[0-9a-fA-F]]. *)
Definition is_hex_digit (c : ascii) : bool :=
  let n := N_of_ascii c in
  (((48 <=? n) && (n <=? 57)) || ((97 <=? n) && (n <=? 102))
   || ((65 <=? n) && (n <=? 70)))%N.

(** [/^[0-9a-fA-F]{24}$/.test(s)]: without the [m] flag the anchors are
    the two ends of the input, so the test is "exactly 24 hex digits". *)
Definition test_ObjectId_regex (s : string) : bool :=
  Nat.eqb (String.length s) 24 && all_chars is_hex_digit s.

(** Truthiness of a string value: the empty string is falsy. *)
Definition truthy (s : string) : bool :=
  match s with EmptyString => false | _ => true end.

(** Truthiness of a possibly absent string ([undefined] is falsy). *)
Definition truthy_opt (o : option string) : bool :=
  match o with Some s => truthy s | None => false end.

(** Rendering of an optional string inside a template literal. *)
Definition show_opt (o : option string) : string :=
  match o with Some s => s | None => "undefined" end.

Fixpoint join (sep : string) (l : list string) : string :=
  match l with
  | [] => ""
  | [x] => x
  | x :: rest => x ++ sep ++ join sep rest
  end.

(** Decimal rendering of a number in a template literal. *)
Definition digit_char (d : nat) : ascii := ascii_of_nat (48 + d).

Fixpoint show_nat_aux (fuel n : nat) (acc : string) : string :=
  match fuel with
  | O => acc
  | S fuel' =>
      let acc' := String (digit_char (n mod 10)) acc in
      match n / 10 with
      | O => acc'
      | q => show_nat_aux fuel' q acc'
      end
  end.

Definition show_nat (n : nat) : string := show_nat_aux (S n) n "".

End JsString.

(* ===================================================================== *)
(** ** ObjectIds                                                          *)
(* ===================================================================== *)

Module Bson.

(** A BSON ObjectId is a 96-bit value; on the wire (JSON, URLs) it is
    written as 24 lowercase hexadecimal digits. *)
Definition ObjectId := N.

Definition ObjectId_bound : N := 16 ^ 24.

Definition hex_char (d : N) : ascii :=
  (if d <? 10 then ascii_of_N (48 + d) else ascii_of_N (87 + d))%N.

Definition hex_val (c : ascii) : option N :=
  let n := N_of_ascii c in
  (if (48 <=? n) && (n <=? 57) then Some (n - 48)
   else if (97 <=? n) && (n <=? 102) then Some (n - 87)
   else if (65 <=? n) && (n <=? 70) then Some (n - 55)
   else None)%N.

(** [k] digits of [n], most significant first, built right to left. *)
Fixpoint hex_digits (k : nat) (n : N) (acc : string) : string :=
  match k with
  | O => acc
  | S k' => hex_digits k' (n / 16) (String (hex_char (n mod 16)) acc)
  end.

(** [id.toHexString()], which is also how an id is serialised in JSON. *)
Definition toHexString (id : ObjectId) : string := hex_digits 24 id "".

Fixpoint parse_hex (s : string) (acc : N) : option N :=
  match s with
  | EmptyString => Some acc
  | String c s' =>
      match hex_val c with
      | Some d => parse_hex s' (16 * acc + d)%N
      | None => None
      end
  end.

(** Mongoose's cast of a string to an ObjectId: it succeeds on 24
    hexadecimal digits (either case) and raises a CastError otherwise. *)
Definition castObjectId (s : string) : option ObjectId :=
  if JsString.test_ObjectId_regex s then parse_hex s 0%N else None.

End Bson.

(* ===================================================================== *)
(** ** External collaborators                                             *)
(* ===================================================================== *)

(** bcryptjs: [bcrypt.hash(plaintext, rounds)].  The digest is a string of
    60 characters whatever the plaintext. *)
Class SecretHasher := {
  bcrypt_hash : string -> nat -> string;
  bcrypt_hash_length : forall p r, String.length (bcrypt_hash p r) = 60
}.

(** The JavaScript [Date] object: Mongoose's cast of a string to a Date
    (serialised back as an ISO string), and the locale renderings used by
    the tool adapter.  [createdAt_toLocaleString] renders the creation
    time the Store keeps for the entity with the given identifier. *)
Class JsDate := {
  castDate : string -> option string;
  toDateString : string -> string;
  createdAt_toLocaleString : string -> string
}.

(* ===================================================================== *)
(** ** The two schemas                                                    *)
(* ===================================================================== *)

Module Schema.
Import JsString Bson.

(** A stored Role document (roleSchema). *)
Module Role.
Record t := {
    _id : ObjectId;
    name : string;
    description : string;
    permissions : list string;
    isActive : bool
  }.
End Role.

(** A stored User document (userSchema).  [role] is the ObjectId
    reference; [password] is whatever string was persisted. *)
Module User.
Record t := {
    _id : ObjectId;
    firstName : string;
    lastName : string;
    email : string;
    password : string;
    phone : option string;
    dateOfBirth : option string;
    role : ObjectId;
    isActive : bool
  }.
End User.

(** A request body restricted to the paths of roleSchema; an absent key
    is [None]. *)
Module RoleFields.
Record t := {
    name : option string;
    description : option string;
    permissions : option (list string);
    isActive : option bool
  }.
Definition empty : t :=
    {| name := None; description := None; permissions := None;
       isActive := None |}.
End RoleFields.

(** A request body restricted to the paths of userSchema. *)
Module UserFields.
Record t := {
    firstName : option string;
    lastName : option string;
    email : option string;
    password : option string;
    phone : option string;
    dateOfBirth : option string;
    role : option string;
    isActive : option bool
  }.
Definition empty : t :=
    {| firstName := None; lastName := None; email := None;
       password := None; phone := None; dateOfBirth := None;
       role := None; isActive := None |}.
End UserFields.

(** What Mongoose throws. *)
Inductive MongooseError :=
| ValidationError (message : string)
| CastError (message : string)
| MongoServerError (code : N) (message : string).

Definition error_code (e : MongooseError) : option N :=
  match e with
  | MongoServerError c _ => Some c
  | _ => None
  end.

Definition error_message (e : MongooseError) : string :=
  match e with
  | ValidationError m | CastError m | MongoServerError _ m => m
  end.

Definition dq : string := String (ascii_of_nat 34) "".

(** One failed validator: the path and the validator's message. *)
Definition violation := (string * string)%type.

Definition required_msg (path : string) : string :=
  "Path `" ++ path ++ "` is required.".

Definition minlength_msg (path value : string) (min : nat) : string :=
  "Path `" ++ path ++ "` (`" ++ value
  ++ "`) is shorter than the minimum allowed length ("
  ++ show_nat min ++ ").".

Definition enum_msg (path value : string) : string :=
  "`" ++ value ++ "` is not a valid enum value for path `" ++ path ++ "`.".

Definition cast_msg (type value path : string) : string :=
  "Cast to " ++ type ++ " failed for value " ++ dq ++ value ++ dq
  ++ " (type string) at path " ++ dq ++ path ++ dq.

Definition render_violations (vs : list violation) : string :=
  join ", " (map (fun v => fst v ++ ": " ++ snd v) vs).

(** [required: true] on a String path: the value must be present and,
    after the setters ran, non-empty. *)
Definition check_required (path : string) (v : option string)
  : list violation :=
  match v with
  | Some s => if truthy s then [] else [(path, required_msg path)]
  | None => [(path, required_msg path)]
  end.

(** [minlength: n]: skipped on an absent value; the value's [length] is
    compared with [n]. *)
Definition check_minlength (path : string) (min : nat) (v : option string)
  : list violation :=
  match v with
  | Some s =>
      if Nat.ltb (utf16_length s) min then [(path, minlength_msg path s min)]
      else []
  | None => []
  end.

(** A String path runs its validators in order and reports the first
    failure only; [required] comes first. *)
Definition first_failure (a b : list violation) : list violation :=
  match a with [] => b | _ => a end.

Definition permission_enum : list string :=
  ["read"; "write"; "delete"; "admin"].

Definition in_enum (v : string) : bool :=
  existsb (String.eqb v) permission_enum.

Fixpoint check_permissions_from (i : nat) (ps : list string)
  : list violation :=
  match ps with
  | [] => []
  | p :: rest =>
      ((if in_enum p then []
        else let path := ("permissions." ++ show_nat i)%string in
             [(path, enum_msg path p)])
       ++ check_permissions_from (S i) rest)%list
  end.

Definition check_permissions (ps : option (list string)) : list violation :=
  match ps with
  | Some l => check_permissions_from 0 l
  | None => []
  end.

(** Setters of roleSchema: [name] has [trim: true]. *)
Definition role_setters (b : RoleFields.t) : RoleFields.t :=
  {| RoleFields.name := option_map trim (RoleFields.name b);
     RoleFields.description := RoleFields.description b;
     RoleFields.permissions := RoleFields.permissions b;
     RoleFields.isActive := RoleFields.isActive b |}.

(** Setters of userSchema: [firstName], [lastName], [phone] are trimmed,
    [email] is trimmed and lowercased, [password] is taken as it is. *)
Definition user_setters `{unicode : CaseConversion} (b : UserFields.t)
  : UserFields.t :=
  {| UserFields.firstName := option_map trim (UserFields.firstName b);
     UserFields.lastName := option_map trim (UserFields.lastName b);
     UserFields.email :=
       option_map (fun e => toLowerCase (trim e)) (UserFields.email b);
     UserFields.password := UserFields.password b;
     UserFields.phone := option_map trim (UserFields.phone b);
     UserFields.dateOfBirth := UserFields.dateOfBirth b;
     UserFields.role := UserFields.role b;
     UserFields.isActive := UserFields.isActive b |}.

(** Cast failures of the ObjectId and Date paths of a user body. *)
Definition check_role_cast (v : option string) : list violation :=
  match v with
  | Some s =>
      match castObjectId s with
      | Some _ => []
      | None => [("role", cast_msg "ObjectId" s "role")]
      end
  | None => []
  end.

Definition check_date_cast `{JsDate} (v : option string) : list violation :=
  match v with
  | Some s =>
      match castDate s with
      | Some _ => []
      | None => [("dateOfBirth", cast_msg "date" s "dateOfBirth")]
      end
  | None => []
  end.

Definition check_required_ref (path : string) (v : option string)
  : list violation :=
  match v with
  | Some _ => []
  | None => [(path, required_msg path)]
  end.

(** Document validation of a new Role (the paths in schema order); the
    argument has been through the setters. *)
Definition validate_role (b : RoleFields.t) : list violation :=
  (check_required "name" (RoleFields.name b)
   ++ check_required "description" (RoleFields.description b)
   ++ check_permissions (RoleFields.permissions b))%list.

(** Document validation of a new User. *)
Definition validate_user `{JsDate} (b : UserFields.t) : list violation :=
  (check_required "firstName" (UserFields.firstName b)
   ++ check_required "lastName" (UserFields.lastName b)
   ++ check_required "email" (UserFields.email b)
   ++ first_failure (check_required "password" (UserFields.password b))
                    (check_minlength "password" 6 (UserFields.password b))
   ++ check_date_cast (UserFields.dateOfBirth b)
   ++ first_failure (check_role_cast (UserFields.role b))
                    (check_required_ref "role" (UserFields.role b)))%list.

(** Update validators ([runValidators: true]) run on the paths that the
    update sets, and only on those. *)
Definition check_present (v : option string) (vs : list violation)
  : list violation :=
  match v with Some _ => vs | None => [] end.

Definition update_validate_role (b : RoleFields.t) : list violation :=
  (check_present (RoleFields.name b)
     (check_required "name" (RoleFields.name b))
   ++ check_present (RoleFields.description b)
        (check_required "description" (RoleFields.description b))
   ++ check_permissions (RoleFields.permissions b))%list.

Definition update_validate_user (b : UserFields.t) : list violation :=
  (check_present (UserFields.firstName b)
     (check_required "firstName" (UserFields.firstName b))
   ++ check_present (UserFields.lastName b)
        (check_required "lastName" (UserFields.lastName b))
   ++ check_present (UserFields.email b)
        (check_required "email" (UserFields.email b))
   ++ check_present (UserFields.password b)
        (first_failure
           (check_required "password" (UserFields.password b))
           (check_minlength "password" 6 (UserFields.password b))))%list.

End Schema.

(* ===================================================================== *)
(** ** JSON payloads                                                      *)
(* ===================================================================== *)

Module Json.

(** A populated role reference: [populate('role', 'name description')]
    keeps [_id], [name] and [description]. *)
Module RoleRef.
Record t := { _id : string; name : string; description : string }.
End RoleRef.

(** The [role] key of a serialised user: the bare identifier, or the
    result of populate, which is [null] when no role has that id. *)
Inductive RoleField :=
| Unpopulated (id : string)
| Populated (r : option RoleRef.t).

Module Role.
Record t := {
    _id : string;
    name : string;
    description : string;
    permissions : list string;
    isActive : bool
  }.
End Role.

(** A serialised user; [password] is [None] when the key is absent. *)
Module User.
Record t := {
    _id : string;
    firstName : string;
    lastName : string;
    email : string;
    password : option string;
    phone : option string;
    dateOfBirth : option string;
    role : RoleField;
    isActive : bool
  }.
End User.

(** The body of the seed response. *)
Module Seed.
Record t := { message : string; roles : list Role.t; users : list User.t }.
End Seed.

End Json.

(* ===================================================================== *)
(** ** Mongoose models over the Store                                     *)
(* ===================================================================== *)

Module Model.
Import JsString Bson Schema.

(** The two collections, in insertion order, and the next identifier the
    Store hands out.  An identifier is consumed when a document is
    inserted. *)
Record Store := {
  roles : list Role.t;
  users : list User.t;
  next_oid : ObjectId
}.

Definition empty_store : Store :=
  {| roles := []; users := []; next_oid := 1%N |}.

Definition Result (A : Type) : Type := (MongooseError + A)%type.

Definition from_opt {A : Type} (d : A) (o : option A) : A :=
  match o with Some a => a | None => d end.

(** Replace the first element satisfying [p]. *)
Fixpoint update_first {A : Type} (p : A -> bool) (x : A) (l : list A)
  : list A :=
  match l with
  | [] => []
  | y :: rest => if p y then x :: rest else y :: update_first p x rest
  end.

(** Remove the first element satisfying [p]. *)
Fixpoint remove_first {A : Type} (p : A -> bool) (l : list A) : list A :=
  match l with
  | [] => []
  | y :: rest => if p y then rest else y :: remove_first p rest
  end.

Definition id_cast_error (id model : string) : MongooseError :=
  CastError (cast_msg "ObjectId" id "_id" ++ " for model " ++ dq ++ model ++ dq).

Definition E11000 (index key value : string) : MongooseError :=
  MongoServerError 11000
    ("E11000 duplicate key error index: " ++ index ++ " dup key: { "
     ++ key ++ ": " ++ dq ++ value ++ dq ++ " }").

(** *** Role *)

Definition role_has_id (id : ObjectId) (r : Role.t) : bool :=
  N.eqb (Role._id r) id.

Definition role_has_name (n : string) (r : Role.t) : bool :=
  String.eqb (Role.name r) n.

Definition with_roles (s : Store) (rs : list Role.t) : Store :=
  {| roles := rs; users := users s; next_oid := next_oid s |}.

Definition insert_role (s : Store) (r : Role.t) : Store :=
  {| roles := (roles s ++ [r])%list; users := users s;
     next_oid := N.succ (next_oid s) |}.

(** [$set] of the supplied paths on a stored role. *)
Definition apply_role_update (old : Role.t) (b : RoleFields.t) : Role.t :=
  {| Role._id := Role._id old;
     Role.name := from_opt (Role.name old) (RoleFields.name b);
     Role.description :=
       from_opt (Role.description old) (RoleFields.description b);
     Role.permissions :=
       from_opt (Role.permissions old) (RoleFields.permissions b);
     Role.isActive := from_opt (Role.isActive old) (RoleFields.isActive b) |}.

(** A new role document: schema defaults fill [permissions] and
    [isActive]. *)
Definition new_role (id : ObjectId) (b : RoleFields.t) : Role.t :=
  {| Role._id := id;
     Role.name := from_opt "" (RoleFields.name b);
     Role.description := from_opt "" (RoleFields.description b);
     Role.permissions := from_opt [] (RoleFields.permissions b);
     Role.isActive := from_opt true (RoleFields.isActive b) |}.

(** [Role.find()] *)
Definition Role_find (s : Store) : list Role.t := roles s.

(** [Role.findById(id)] *)
Definition Role_findById (s : Store) (id : string) : Result (option Role.t) :=
  match castObjectId id with
  | None => inl (id_cast_error id "Role")
  | Some oid => inr (find (role_has_id oid) (roles s))
  end.

(** [new Role(body)] followed by [role.save()]: setters, validation, then
    the insert, which the unique index on [name] may refuse. *)
Definition Role_save (s : Store) (body : RoleFields.t)
  : Result (Role.t * Store) :=
  let b := role_setters body in
  match validate_role b with
  | [] =>
      let doc := new_role (next_oid s) b in
      if existsb (role_has_name (Role.name doc)) (roles s)
      then inl (E11000 "name_1" "name" (Role.name doc))
      else inr (doc, insert_role s doc)
  | vs => inl (ValidationError
                 ("Role validation failed: " ++ render_violations vs))
  end.

(** The write of an updated role in place of the first role matching
    [filter]: the unique index is consulted when the indexed key changes. *)
Definition write_role (s : Store) (filter : Role.t -> bool)
  (old doc : Role.t) : Result (Role.t * Store) :=
  if negb (String.eqb (Role.name doc) (Role.name old))
     && existsb (role_has_name (Role.name doc)) (roles s)
  then inl (E11000 "name_1" "name" (Role.name doc))
  else inr (doc, with_roles s (update_first filter doc (roles s))).

(** [Role.findByIdAndUpdate(id, body, { new: true, runValidators: true })] *)
Definition Role_findByIdAndUpdate (s : Store) (id : string)
  (body : RoleFields.t) : Result (option Role.t * Store) :=
  match castObjectId id with
  | None => inl (id_cast_error id "Role")
  | Some oid =>
      let b := role_setters body in
      match update_validate_role b with
      | [] =>
          match find (role_has_id oid) (roles s) with
          | None => inr (None, s)
          | Some old =>
              match write_role s (role_has_id oid) old
                      (apply_role_update old b) with
              | inl e => inl e
              | inr (doc, s') => inr (Some doc, s')
              end
          end
      | vs => inl (ValidationError
                     ("Validation failed: " ++ render_violations vs))
      end
  end.

(** [Role.findByIdAndDelete(id)] *)
Definition Role_findByIdAndDelete (s : Store) (id : string)
  : Result (option Role.t * Store) :=
  match castObjectId id with
  | None => inl (id_cast_error id "Role")
  | Some oid =>
      match find (role_has_id oid) (roles s) with
      | None => inr (None, s)
      | Some r =>
          inr (Some r, with_roles s (remove_first (role_has_id oid) (roles s)))
      end
  end.

(** [Role.findOneAndUpdate({ name }, update, { upsert: true, new: true })]:
    no validators run; the first role with that name receives the update,
    and when there is none a role is inserted from the filter and the
    update. *)
Definition Role_findOneAndUpdate_upsert (s : Store) (name : string)
  (update : RoleFields.t) : Result (Role.t * Store) :=
  let b := role_setters update in
  let name := trim name in
  match find (role_has_name name) (roles s) with
  | Some old =>
      write_role s (role_has_name name) old (apply_role_update old b)
  | None =>
      let doc :=
        new_role (next_oid s)
          {| RoleFields.name := Some (from_opt name (RoleFields.name b));
             RoleFields.description := RoleFields.description b;
             RoleFields.permissions := RoleFields.permissions b;
             RoleFields.isActive := RoleFields.isActive b |} in
      if existsb (role_has_name (Role.name doc)) (roles s)
      then inl (E11000 "name_1" "name" (Role.name doc))
      else inr (doc, insert_role s doc)
  end.

(** *** User *)

(** An update of a user after casting: the role is an ObjectId and the
    date of birth a Date. *)
Module UserUpdate.
Record t := {
    firstName : option string;
    lastName : option string;
    email : option string;
    password : option string;
    phone : option string;
    dateOfBirth : option string;
    role : option ObjectId;
    isActive : option bool
  }.
End UserUpdate.

Definition user_has_id (id : ObjectId) (u : User.t) : bool :=
  N.eqb (User._id u) id.

Definition user_has_email (e : string) (u : User.t) : bool :=
  String.eqb (User.email u) e.

Definition with_users (s : Store) (us : list User.t) : Store :=
  {| roles := roles s; users := us; next_oid := next_oid s |}.

Definition insert_user (s : Store) (u : User.t) : Store :=
  {| roles := roles s; users := (users s ++ [u])%list;
     next_oid := N.succ (next_oid s) |}.

Definition set_password (u : User.t) (p : string) : User.t :=
  {| User._id := User._id u;
     User.firstName := User.firstName u;
     User.lastName := User.lastName u;
     User.email := User.email u;
     User.password := p;
     User.phone := User.phone u;
     User.dateOfBirth := User.dateOfBirth u;
     User.role := User.role u;
     User.isActive := User.isActive u |}.

(** [$set] of the supplied paths on a stored user; a path the update does
    not mention keeps its value. *)
Definition apply_user_update (old : User.t) (b : UserUpdate.t) : User.t :=
  {| User._id := User._id old;
     User.firstName := from_opt (User.firstName old) (UserUpdate.firstName b);
     User.lastName := from_opt (User.lastName old) (UserUpdate.lastName b);
     User.email := from_opt (User.email old) (UserUpdate.email b);
     User.password := from_opt (User.password old) (UserUpdate.password b);
     User.phone :=
       match UserUpdate.phone b with
       | Some p => Some p
       | None => User.phone old
       end;
     User.dateOfBirth :=
       match UserUpdate.dateOfBirth b with
       | Some d => Some d
       | None => User.dateOfBirth old
       end;
     User.role := from_opt (User.role old) (UserUpdate.role b);
     User.isActive := from_opt (User.isActive old) (UserUpdate.isActive b) |}.

(** A user document built from an update alone (a document being
    inserted): [isActive] defaults to [true]. *)
Definition new_user (id : ObjectId) (b : UserUpdate.t) : User.t :=
  {| User._id := id;
     User.firstName := from_opt "" (UserUpdate.firstName b);
     User.lastName := from_opt "" (UserUpdate.lastName b);
     User.email := from_opt "" (UserUpdate.email b);
     User.password := from_opt "" (UserUpdate.password b);
     User.phone := UserUpdate.phone b;
     User.dateOfBirth := UserUpdate.dateOfBirth b;
     User.role := from_opt 0%N (UserUpdate.role b);
     User.isActive := from_opt true (UserUpdate.isActive b) |}.

(** The setters of userSchema on a cast update. *)
Definition user_update_setters `{unicode : CaseConversion} (b : UserUpdate.t)
  : UserUpdate.t :=
  {| UserUpdate.firstName := option_map trim (UserUpdate.firstName b);
     UserUpdate.lastName := option_map trim (UserUpdate.lastName b);
     UserUpdate.email :=
       option_map (fun e => toLowerCase (trim e)) (UserUpdate.email b);
     UserUpdate.password := UserUpdate.password b;
     UserUpdate.phone := option_map trim (UserUpdate.phone b);
     UserUpdate.dateOfBirth := UserUpdate.dateOfBirth b;
     UserUpdate.role := UserUpdate.role b;
     UserUpdate.isActive := UserUpdate.isActive b |}.

Section WithCollaborators.
Context `{unicode : CaseConversion} `{SecretHasher} `{JsDate}.

(** Casting of a body to the schema types, after the setters.  On a path
    whose cast fails the result holds no value; callers check the casts
    first. *)
Definition cast_user_fields (b : UserFields.t) : UserUpdate.t :=
  let b := user_setters b in
  {| UserUpdate.firstName := UserFields.firstName b;
     UserUpdate.lastName := UserFields.lastName b;
     UserUpdate.email := UserFields.email b;
     UserUpdate.password := UserFields.password b;
     UserUpdate.phone := UserFields.phone b;
     UserUpdate.dateOfBirth :=
       match UserFields.dateOfBirth b with
       | Some d => castDate d
       | None => None
       end;
     UserUpdate.role :=
       match UserFields.role b with
       | Some r => castObjectId r
       | None => None
       end;
     UserUpdate.isActive := UserFields.isActive b |}.

(** [userSchema.pre('save')]: hash the password when it was modified. *)
Definition pre_save (isModified_password : bool) (u : User.t) : User.t :=
  if negb isModified_password then u
  else set_password u (bcrypt_hash (User.password u) 10).

(** [User.findById(id)] *)
Definition User_findById (s : Store) (id : string) : Result (option User.t) :=
  match castObjectId id with
  | None => inl (id_cast_error id "User")
  | Some oid => inr (find (user_has_id oid) (users s))
  end.

(** [new User(body)] followed by [user.save()]: setters and casts,
    validation, the pre-save hook, then the insert, which the unique index
    on [email] may refuse. *)
Definition User_save (s : Store) (body : UserFields.t)
  : Result (User.t * Store) :=
  match validate_user (user_setters body) with
  | [] =>
      let doc := pre_save true (new_user (next_oid s) (cast_user_fields body)) in
      if existsb (user_has_email (User.email doc)) (users s)
      then inl (E11000 "email_1" "email" (User.email doc))
      else inr (doc, insert_user s doc)
  | vs => inl (ValidationError
                 ("User validation failed: " ++ render_violations vs))
  end.

(** The write of an updated user in place of the first user matching
    [filter]: the unique index is consulted when the indexed key changes. *)
Definition write_user (s : Store) (filter : User.t -> bool)
  (old doc : User.t) : Result (User.t * Store) :=
  if negb (String.eqb (User.email doc) (User.email old))
     && existsb (user_has_email (User.email doc)) (users s)
  then inl (E11000 "email_1" "email" (User.email doc))
  else inr (doc, with_users s (update_first filter doc (users s))).

(** [User.findByIdAndUpdate(id, body, { new: true, runValidators: true })]:
    the filter and the update are cast, the update validators run on the
    paths the update sets, and only then is the Store touched.  No
    document middleware runs, so [pre('save')] does not. *)
Definition User_findByIdAndUpdate (s : Store) (id : string)
  (body : UserFields.t) : Result (option User.t * Store) :=
  match castObjectId id with
  | None => inl (id_cast_error id "User")
  | Some oid =>
      match (check_role_cast (UserFields.role body)
             ++ check_date_cast (UserFields.dateOfBirth body))%list with
      | (_, m) :: _ => inl (CastError m)
      | [] =>
          match update_validate_user (user_setters body) with
          | [] =>
              match find (user_has_id oid) (users s) with
              | None => inr (None, s)
              | Some old =>
                  match write_user s (user_has_id oid) old
                          (apply_user_update old (cast_user_fields body)) with
                  | inl e => inl e
                  | inr (doc, s') => inr (Some doc, s')
                  end
              end
          | vs => inl (ValidationError
                         ("Validation failed: " ++ render_violations vs))
          end
      end
  end.

(** [User.findByIdAndDelete(id)] *)
Definition User_findByIdAndDelete (s : Store) (id : string)
  : Result (option User.t * Store) :=
  match castObjectId id with
  | None => inl (id_cast_error id "User")
  | Some oid =>
      match find (user_has_id oid) (users s) with
      | None => inr (None, s)
      | Some u =>
          inr (Some u, with_users s (remove_first (user_has_id oid) (users s)))
      end
  end.

(** [User.findOneAndUpdate({ email }, update, { upsert: true, new: true })]:
    neither validators nor document middleware run; the first user with
    that email receives the update, and when there is none a user is
    inserted from the filter and the update. *)
Definition User_findOneAndUpdate_upsert (s : Store) (email : string)
  (update : UserUpdate.t) : Result (User.t * Store) :=
  let b := user_update_setters update in
  let email := toLowerCase (trim email) in
  match find (user_has_email email) (users s) with
  | Some old =>
      write_user s (user_has_email email) old (apply_user_update old b)
  | None =>
      let doc :=
        new_user (next_oid s)
          {| UserUpdate.firstName := UserUpdate.firstName b;
             UserUpdate.lastName := UserUpdate.lastName b;
             UserUpdate.email := Some (from_opt email (UserUpdate.email b));
             UserUpdate.password := UserUpdate.password b;
             UserUpdate.phone := UserUpdate.phone b;
             UserUpdate.dateOfBirth := UserUpdate.dateOfBirth b;
             UserUpdate.role := UserUpdate.role b;
             UserUpdate.isActive := UserUpdate.isActive b |} in
      if existsb (user_has_email (User.email doc)) (users s)
      then inl (E11000 "email_1" "email" (User.email doc))
      else inr (doc, insert_user s doc)
  end.

End WithCollaborators.

(** *** Serialisation *)

Definition role_toJSON (r : Role.t) : Json.Role.t :=
  {| Json.Role._id := toHexString (Role._id r);
     Json.Role.name := Role.name r;
     Json.Role.description := Role.description r;
     Json.Role.permissions := Role.permissions r;
     Json.Role.isActive := Role.isActive r |}.

(** A user document as it is: the password key is there and the role is
    the bare identifier. *)
Definition user_toJSON (u : User.t) : Json.User.t :=
  {| Json.User._id := toHexString (User._id u);
     Json.User.firstName := User.firstName u;
     Json.User.lastName := User.lastName u;
     Json.User.email := User.email u;
     Json.User.password := Some (User.password u);
     Json.User.phone := User.phone u;
     Json.User.dateOfBirth := User.dateOfBirth u;
     Json.User.role := Json.Unpopulated (toHexString (User.role u));
     Json.User.isActive := User.isActive u |}.

(** [.populate('role', 'name description')]: the reference is replaced by
    the role with that id, or by [null] when there is none. *)
Definition populate (s : Store) (id : ObjectId) : Json.RoleField :=
  Json.Populated
    (option_map
       (fun r => {| Json.RoleRef._id := toHexString (Role._id r);
                    Json.RoleRef.name := Role.name r;
                    Json.RoleRef.description := Role.description r |})
       (find (role_has_id id) (roles s))).

(** [.populate('role', 'name description').select('-password')] *)
Definition populated_without_password (s : Store) (u : User.t)
  : Json.User.t :=
  {| Json.User._id := toHexString (User._id u);
     Json.User.firstName := User.firstName u;
     Json.User.lastName := User.lastName u;
     Json.User.email := User.email u;
     Json.User.password := None;
     Json.User.phone := User.phone u;
     Json.User.dateOfBirth := User.dateOfBirth u;
     Json.User.role := populate s (User.role u);
     Json.User.isActive := User.isActive u |}.

End Model.

(* ===================================================================== *)
(** ** server.js: the Express routes                                      *)
(* ===================================================================== *)

Module Api.
Import JsString Bson Schema Model.

(** What a route sends: [res.status(status).json(data)] on its normal
    path, [res.status(status).json({ error })] otherwise. *)
Inductive Reply (A : Type) : Type :=
| Sent (status : nat) (data : A)
| Failed (status : nat) (error : string).
Arguments Sent {A} status data.
Arguments Failed {A} status error.

Definition Route (A : Type) : Type := Store -> Reply A * Store.

(** [GET /api/roles] *)
Definition get_roles : Route (list Json.Role.t) := fun s =>
  (Sent 200 (map role_toJSON (Role_find s)), s).

(** [GET /api/roles/:id] *)
Definition get_role (id : string) : Route Json.Role.t := fun s =>
  match Role_findById s id with
  | inr (Some role) => (Sent 200 (role_toJSON role), s)
  | inr None => (Failed 404 "Role not found", s)
  | inl error => (Failed 500 (error_message error), s)
  end.

(** [POST /api/roles] *)
Definition post_roles (body : RoleFields.t) : Route Json.Role.t := fun s =>
  match Role_save s body with
  | inr (role, s') => (Sent 201 (role_toJSON role), s')
  | inl error =>
      match error_code error with
      | Some 11000%N => (Failed 400 "Role name already exists", s)
      | _ => (Failed 400 (error_message error), s)
      end
  end.

(** [PUT /api/roles/:id] *)
Definition put_role (id : string) (body : RoleFields.t)
  : Route Json.Role.t := fun s =>
  match Role_findByIdAndUpdate s id body with
  | inr (Some role, s') => (Sent 200 (role_toJSON role), s')
  | inr (None, s') => (Failed 404 "Role not found", s')
  | inl error => (Failed 400 (error_message error), s)
  end.

(** [DELETE /api/roles/:id] *)
Definition delete_role (id : string) : Route string := fun s =>
  match Role_findByIdAndDelete s id with
  | inr (Some _, s') => (Sent 200 "Role deleted successfully", s')
  | inr (None, s') => (Failed 404 "Role not found", s')
  | inl error => (Failed 500 (error_message error), s)
  end.

(** [GET /api/users] *)
Definition get_users : Route (list Json.User.t) := fun s =>
  (Sent 200 (map (populated_without_password s) (users s)), s).

Section WithCollaborators.
Context `{unicode : CaseConversion} `{SecretHasher} `{JsDate}.

(** [GET /api/users/:id] *)
Definition get_user (id : string) : Route Json.User.t := fun s =>
  match User_findById s id with
  | inr (Some user) => (Sent 200 (populated_without_password s user), s)
  | inr None => (Failed 404 "User not found", s)
  | inl error => (Failed 500 (error_message error), s)
  end.

(** [POST /api/users].  The saved document is read back by its id,
    populated and stripped of the password; the body sent is what that
    read returns ([null] if it finds nothing). *)
Definition post_users (body : UserFields.t)
  : Route (option Json.User.t) := fun s =>
  match User_save s body with
  | inr (user, s') =>
      let populatedUser :=
        option_map (populated_without_password s')
                   (find (user_has_id (User._id user)) (users s')) in
      (Sent 201 populatedUser, s')
  | inl error =>
      match error_code error with
      | Some 11000%N => (Failed 400 "Email already exists", s)
      | _ => (Failed 400 (error_message error), s)
      end
  end.

(** The first statement of [PUT /api/users/:id]: a truthy password in the
    body is replaced by its hash. *)
Definition hash_body_password (body : UserFields.t) : UserFields.t :=
  if truthy_opt (UserFields.password body) then
    {| UserFields.firstName := UserFields.firstName body;
       UserFields.lastName := UserFields.lastName body;
       UserFields.email := UserFields.email body;
       UserFields.password :=
         option_map (fun p => bcrypt_hash p 10) (UserFields.password body);
       UserFields.phone := UserFields.phone body;
       UserFields.dateOfBirth := UserFields.dateOfBirth body;
       UserFields.role := UserFields.role body;
       UserFields.isActive := UserFields.isActive body |}
  else body.

(** [PUT /api/users/:id] *)
Definition put_user (id : string) (body : UserFields.t)
  : Route Json.User.t := fun s =>
  let body := hash_body_password body in
  match User_findByIdAndUpdate s id body with
  | inr (Some user, s') => (Sent 200 (populated_without_password s' user), s')
  | inr (None, s') => (Failed 404 "User not found", s')
  | inl error => (Failed 400 (error_message error), s)
  end.

(** [DELETE /api/users/:id] *)
Definition delete_user (id : string) : Route string := fun s =>
  match User_findByIdAndDelete s id with
  | inr (Some _, s') => (Sent 200 "User deleted successfully", s')
  | inr (None, s') => (Failed 404 "User not found", s')
  | inl error => (Failed 500 (error_message error), s)
  end.

(** The three updates of [POST /api/seed]. *)
Definition seed_admin_role : RoleFields.t :=
  {| RoleFields.name := Some "admin";
     RoleFields.description := Some "Administrator with full access";
     RoleFields.permissions := Some ["read"; "write"; "delete"; "admin"];
     RoleFields.isActive := Some true |}.

Definition seed_user_role : RoleFields.t :=
  {| RoleFields.name := Some "user";
     RoleFields.description := Some "Regular user with limited access";
     RoleFields.permissions := Some ["read"];
     RoleFields.isActive := Some true |}.

Definition seed_admin_user (adminRole_id : ObjectId) : UserUpdate.t :=
  {| UserUpdate.firstName := Some "Admin";
     UserUpdate.lastName := Some "User";
     UserUpdate.email := Some "admin@example.com";
     UserUpdate.password := Some "admin123";
     UserUpdate.phone := Some "+1234567890";
     UserUpdate.dateOfBirth := None;
     UserUpdate.role := Some adminRole_id;
     UserUpdate.isActive := Some true |}.

(** [POST /api/seed]: three upserts in sequence; an error at any of them
    is answered with 500 and leaves the earlier upserts in place. *)
Definition post_seed : Route Json.Seed.t := fun s =>
  match Role_findOneAndUpdate_upsert s "admin" seed_admin_role with
  | inl error => (Failed 500 (error_message error), s)
  | inr (adminRole, s1) =>
      match Role_findOneAndUpdate_upsert s1 "user" seed_user_role with
      | inl error => (Failed 500 (error_message error), s1)
      | inr (userRole, s2) =>
          match User_findOneAndUpdate_upsert s2 "admin@example.com"
                  (seed_admin_user (Role._id adminRole)) with
          | inl error => (Failed 500 (error_message error), s2)
          | inr (adminUser, s3) =>
              (Sent 200
                 {| Json.Seed.message := "Seed data created successfully";
                    Json.Seed.roles :=
                      [role_toJSON adminRole; role_toJSON userRole];
                    Json.Seed.users := [user_toJSON adminUser] |},
               s3)
          end
      end
  end.

End WithCollaborators.

End Api.

(* ===================================================================== *)
(** ** mcp-server.js: the tool handlers                                   *)
(* ===================================================================== *)

Module Mcp.
Import JsString Bson Schema Model Api.

(** An HTTP request as axios issues it. *)
Inductive Request :=
| GET (path : string)
| POST (path : string)
| PUT (path : string)
| DELETE (path : string).

(** What the adapter runs against: whether the API answers at all, the
    Store behind it, and the requests issued so far (most recent last). *)
Record World := {
  api_up : bool;
  store : Store;
  requests : list Request
}.

Inductive ErrorCode := MethodNotFound | InternalError.

(** The JavaScript exceptions that occur.  An [AxiosError] carries the
    response when there was one, reduced to what the handlers read of it:
    [response.data.error] when the body has that key. *)
Inductive JsError :=
| Error (message : string)
| TypeError (message : string)
| AxiosError (message : string) (response : option (option string))
| McpError (code : ErrorCode) (message : string).

Definition message (e : JsError) : string :=
  match e with
  | Error m | TypeError m | AxiosError m _ | McpError _ m => m
  end.

(** An async function body: it runs against the world and either returns
    or throws. *)
Definition Js (A : Type) : Type := World -> (JsError + A) * World.

Definition ret {A : Type} (a : A) : Js A := fun w => (inr a, w).

Definition throw {A : Type} (e : JsError) : Js A := fun w => (inl e, w).

Definition bind {A B : Type} (m : Js A) (k : A -> Js B) : Js B := fun w =>
  match m w with
  | (inr a, w') => k a w'
  | (inl e, w') => (inl e, w')
  end.

(** [try { body } catch (error) { handler }] *)
Definition try_catch {A : Type} (body : Js A) (handler : JsError -> Js A)
  : Js A := fun w =>
  match body w with
  | (inr a, w') => (inr a, w')
  | (inl e, w') => handler e w'
  end.

Definition lift {A : Type} (r : JsError + A) : Js A := fun w => (r, w).

Notation "x <- m ;; k" := (bind m (fun x => k))
  (at level 100, m at next level, right associativity).

(** axios: the request is recorded; a refused connection throws an error
    without a response, a status outside 2xx throws one that carries the
    response, and a 2xx status resolves to the response data.  The routes
    use [Sent] with 200 and 201 only and [Failed] with 4xx and 5xx only. *)
Definition axios {A : Type} (request : Request) (route : Route A) : Js A :=
  fun w =>
  let log := (requests w ++ [request])%list in
  if api_up w then
    let (reply, s') := route (store w) in
    let w' := {| api_up := true; store := s'; requests := log |} in
    match reply with
    | Sent _ data => (inr data, w')
    | Failed status error =>
        (inl (AxiosError ("Request failed with status code " ++ show_nat status)
                (Some (Some error))), w')
    end
  else
    (inl (AxiosError "connect ECONNREFUSED 127.0.0.1:3000" None),
     {| api_up := false; store := store w; requests := log |}).

(** [error.response?.data?.error || error.message] *)
Definition errorMessage (error : JsError) : string :=
  match error with
  | AxiosError m (Some (Some e)) => if truthy e then e else m
  | _ => message error
  end.

(** The argument bag of a tool call: every key any tool declares. *)
Module Args.
Record t := {
  id : option string;
  firstName : option string;
  lastName : option string;
  email : option string;
  password : option string;
  phone : option string;
  dateOfBirth : option string;
  role : option string;
  isActive : option bool;
  name : option string;
  description : option string;
  permissions : option (list string)
}.
Definition empty : t :=
  {| id := None; firstName := None; lastName := None; email := None;
     password := None; phone := None; dateOfBirth := None; role := None;
     isActive := None; name := None; description := None;
     permissions := None |}.
End Args.

(** The user paths of a bag, with the given [role]. *)
Definition user_body (a : Args.t) (role : option string) : UserFields.t :=
  {| UserFields.firstName := Args.firstName a;
     UserFields.lastName := Args.lastName a;
     UserFields.email := Args.email a;
     UserFields.password := Args.password a;
     UserFields.phone := Args.phone a;
     UserFields.dateOfBirth := Args.dateOfBirth a;
     UserFields.role := role;
     UserFields.isActive := Args.isActive a |}.

(** The role paths of a bag. *)
Definition role_body (a : Args.t) : RoleFields.t :=
  {| RoleFields.name := Args.name a;
     RoleFields.description := Args.description a;
     RoleFields.permissions := Args.permissions a;
     RoleFields.isActive := Args.isActive a |}.

(** The result of a tool: [{ content: [...] }]. *)
Inductive Content := text (s : string).

Record ToolResult := { content : list Content }.

Definition reply_text (s : string) : ToolResult := {| content := [text s] |}.

Definition nl : string := String (ascii_of_nat 10) "".

Definition cannot_read (value key : string) : JsError :=
  TypeError
    ("Cannot read properties of " ++ value ++ " (reading '" ++ key ++ "')").

(** [args.key] when [args] may be [undefined]. *)
Definition prop {A : Type} (args : option Args.t) (key : string)
  (get : Args.t -> A) : Js A :=
  match args with
  | Some a => ret (get a)
  | None => throw (cannot_read "undefined" key)
  end.

(** [user.role.name] and [user.role.description] on a serialised user. *)
Definition role_prop (key : string) (get : Json.RoleRef.t -> string)
  (r : Json.RoleField) : Js string :=
  match r with
  | Json.Populated (Some role) => ret (get role)
  | Json.Populated None => throw (cannot_read "null" key)
  | Json.Unpopulated _ => ret "undefined"
  end.

Definition status_text (isActive : bool) : string :=
  if isActive then "Active" else "Inactive".

(** [roles.find(r => r.name.toLowerCase() === roleIdentifier.toLowerCase())]:
    the callback runs on each role in turn and throws when
    [roleIdentifier] is [undefined]. *)
Fixpoint find_role `{unicode : CaseConversion} (roleIdentifier : option string)
  (roles : list Json.Role.t) : JsError + option Json.Role.t :=
  match roles with
  | [] => inr None
  | r :: rest =>
      match roleIdentifier with
      | None => inl (cannot_read "undefined" "toLowerCase")
      | Some s =>
          if String.eqb (toLowerCase (Json.Role.name r)) (toLowerCase s)
          then inr (Some r)
          else find_role roleIdentifier rest
      end
  end.

(** [resolveRoleId(roleIdentifier)] *)
Definition resolveRoleId `{unicode : CaseConversion} (roleIdentifier : option string)
  : Js string :=
  try_catch
    (if test_ObjectId_regex (show_opt roleIdentifier)
     then ret (show_opt roleIdentifier)
     else
       roles <- axios (GET "/roles") get_roles ;;
       role <- lift (find_role roleIdentifier roles) ;;
       match role with
       | None =>
           throw (Error ("Role '" ++ show_opt roleIdentifier ++ "' not found"))
       | Some role => ret (Json.Role._id role)
       end)
    (fun error => throw (Error ("Failed to resolve role: " ++ message error))).

(** A property read on [response.data] when the data may be [null]. *)
Definition nonnull {A : Type} (data : option A) (key : string) : Js A :=
  match data with
  | Some d => ret d
  | None => throw (cannot_read "null" key)
  end.

(** [users.map((user, index) => ...)] of the list rendering: the callback
    throws at the first user whose role is [null]. *)
Fixpoint user_lines (index : nat) (users : list Json.User.t)
  : JsError + list string :=
  match users with
  | [] => inr []
  | user :: rest =>
      match Json.User.role user with
      | Json.Populated None => inl (cannot_read "null" "name")
      | r =>
          let roleName :=
            match r with
            | Json.Populated (Some role) => Json.RoleRef.name role
            | _ => "undefined"
            end in
          match user_lines (S index) rest with
          | inl e => inl e
          | inr lines =>
              inr ((show_nat (index + 1) ++ ". " ++ Json.User.firstName user
                    ++ " " ++ Json.User.lastName user
                    ++ " (" ++ Json.User.email user ++ ") - Role: " ++ roleName
                    ++ " - Status: " ++ status_text (Json.User.isActive user))
                   :: lines)
          end
      end
  end.

Fixpoint role_lines (index : nat) (roles : list Json.Role.t) : list string :=
  match roles with
  | [] => []
  | role :: rest =>
      (show_nat (index + 1) ++ ". " ++ Json.Role.name role ++ " - "
       ++ Json.Role.description role ++ " - Permissions: ["
       ++ join ", " (Json.Role.permissions role) ++ "] - Status: "
       ++ status_text (Json.Role.isActive role))
      :: role_lines (S index) rest
  end.

Section WithCollaborators.
Context `{unicode : CaseConversion} `{SecretHasher} `{JsDate}.

(** [createUser(args)] *)
Definition createUser (args : option Args.t) : Js ToolResult :=
  try_catch
    (role <- prop args "role" Args.role ;;
     roleId <- resolveRoleId role ;;
     let userData := user_body (from_opt Args.empty args) (Some roleId) in
     data <- axios (POST "/users") (post_users userData) ;;
     user <- nonnull data "firstName" ;;
     roleName <- role_prop "name" Json.RoleRef.name (Json.User.role user) ;;
     ret (reply_text
            ("✅ User created successfully!" ++ nl ++ nl ++ "Details:" ++ nl
             ++ "- Name: " ++ Json.User.firstName user ++ " "
             ++ Json.User.lastName user ++ nl
             ++ "- Email: " ++ Json.User.email user ++ nl
             ++ "- Role: " ++ roleName ++ nl
             ++ "- ID: " ++ Json.User._id user)))
    (fun error =>
       ret (reply_text ("❌ Failed to create user: " ++ errorMessage error))).

(** [getUsers(args)] *)
Definition getUsers (args : option Args.t) : Js ToolResult :=
  try_catch
    (id <- prop args "id" Args.id ;;
     if truthy_opt id then
       user <- axios (GET ("/users/" ++ show_opt id)) (get_user (show_opt id)) ;;
       roleName <- role_prop "name" Json.RoleRef.name (Json.User.role user) ;;
       roleDescription <-
         role_prop "description" Json.RoleRef.description
           (Json.User.role user) ;;
       ret (reply_text
              ("👤 User Details:" ++ nl ++ nl
               ++ "- ID: " ++ Json.User._id user ++ nl
               ++ "- Name: " ++ Json.User.firstName user ++ " "
               ++ Json.User.lastName user ++ nl
               ++ "- Email: " ++ Json.User.email user ++ nl
               ++ "- Phone: "
               ++ (if truthy_opt (Json.User.phone user)
                   then show_opt (Json.User.phone user)
                   else "Not provided") ++ nl
               ++ "- Date of Birth: "
               ++ (if truthy_opt (Json.User.dateOfBirth user)
                   then toDateString (show_opt (Json.User.dateOfBirth user))
                   else "Not provided") ++ nl
               ++ "- Role: " ++ roleName ++ " (" ++ roleDescription ++ ")" ++ nl
               ++ "- Status: " ++ status_text (Json.User.isActive user) ++ nl
               ++ "- Created: "
               ++ createdAt_toLocaleString (Json.User._id user)))
     else
       users <- axios (GET "/users") get_users ;;
       if Nat.eqb (List.length users) 0 then
         ret (reply_text "📝 No users found in the system.")
       else
         userList <- lift (user_lines 0 users) ;;
         ret (reply_text
                ("👥 Found " ++ show_nat (List.length users) ++ " user(s):"
                 ++ nl ++ nl ++ join nl userList)))
    (fun error =>
       ret (reply_text ("❌ Failed to retrieve users: " ++ errorMessage error))).

(** [updateUser(args)]: [const { id, ...updateData } = args], then the
    role, when truthy, is resolved. *)
Definition updateUser (args : option Args.t) : Js ToolResult :=
  try_catch
    (match args with
     | None =>
         throw (TypeError
                  "Cannot destructure property 'id' of 'args' as it is undefined.")
     | Some a =>
         role <-
           (if truthy_opt (Args.role a)
            then r <- resolveRoleId (Args.role a) ;; ret (Some r)
            else ret (Args.role a)) ;;
         let updateData := user_body a role in
         user <- axios (PUT ("/users/" ++ show_opt (Args.id a)))
                       (put_user (show_opt (Args.id a)) updateData) ;;
         roleName <- role_prop "name" Json.RoleRef.name (Json.User.role user) ;;
         ret (reply_text
                ("✅ User updated successfully!" ++ nl ++ nl
                 ++ "Updated Details:" ++ nl
                 ++ "- Name: " ++ Json.User.firstName user ++ " "
                 ++ Json.User.lastName user ++ nl
                 ++ "- Email: " ++ Json.User.email user ++ nl
                 ++ "- Role: " ++ roleName))
     end)
    (fun error =>
       ret (reply_text ("❌ Failed to update user: " ++ errorMessage error))).

(** [deleteUser(args)] *)
Definition deleteUser (args : option Args.t) : Js ToolResult :=
  try_catch
    (id <- prop args "id" Args.id ;;
     _ <- axios (DELETE ("/users/" ++ show_opt id)) (delete_user (show_opt id)) ;;
     ret (reply_text "✅ User deleted successfully!"))
    (fun error =>
       ret (reply_text ("❌ Failed to delete user: " ++ errorMessage error))).

(** [createRole(args)]: the bag is posted as it is; an [undefined] bag
    posts an empty body. *)
Definition createRole (args : option Args.t) : Js ToolResult :=
  try_catch
    (role <- axios (POST "/roles")
                   (post_roles (role_body (from_opt Args.empty args))) ;;
     ret (reply_text
            ("✅ Role created successfully!" ++ nl ++ nl ++ "Details:" ++ nl
             ++ "- Name: " ++ Json.Role.name role ++ nl
             ++ "- Description: " ++ Json.Role.description role ++ nl
             ++ "- Permissions: " ++ join ", " (Json.Role.permissions role) ++ nl
             ++ "- ID: " ++ Json.Role._id role)))
    (fun error =>
       ret (reply_text ("❌ Failed to create role: " ++ errorMessage error))).

(** [getRoles(args)] *)
Definition getRoles (args : option Args.t) : Js ToolResult :=
  try_catch
    (id <- prop args "id" Args.id ;;
     if truthy_opt id then
       role <- axios (GET ("/roles/" ++ show_opt id)) (get_role (show_opt id)) ;;
       ret (reply_text
              ("🔐 Role Details:" ++ nl ++ nl
               ++ "- ID: " ++ Json.Role._id role ++ nl
               ++ "- Name: " ++ Json.Role.name role ++ nl
               ++ "- Description: " ++ Json.Role.description role ++ nl
               ++ "- Permissions: " ++ join ", " (Json.Role.permissions role)
               ++ nl
               ++ "- Status: " ++ status_text (Json.Role.isActive role) ++ nl
               ++ "- Created: "
               ++ createdAt_toLocaleString (Json.Role._id role)))
     else
       roles <- axios (GET "/roles") get_roles ;;
       if Nat.eqb (List.length roles) 0 then
         ret (reply_text "📝 No roles found in the system.")
       else
         ret (reply_text
                ("🔐 Found " ++ show_nat (List.length roles) ++ " role(s):"
                 ++ nl ++ nl ++ join nl (role_lines 0 roles))))
    (fun error =>
       ret (reply_text ("❌ Failed to retrieve roles: " ++ errorMessage error))).

(** [updateRole(args)] *)
Definition updateRole (args : option Args.t) : Js ToolResult :=
  try_catch
    (match args with
     | None =>
         throw (TypeError
                  "Cannot destructure property 'id' of 'args' as it is undefined.")
     | Some a =>
         role <- axios (PUT ("/roles/" ++ show_opt (Args.id a)))
                       (put_role (show_opt (Args.id a)) (role_body a)) ;;
         ret (reply_text
                ("✅ Role updated successfully!" ++ nl ++ nl
                 ++ "Updated Details:" ++ nl
                 ++ "- Name: " ++ Json.Role.name role ++ nl
                 ++ "- Description: " ++ Json.Role.description role ++ nl
                 ++ "- Permissions: "
                 ++ join ", " (Json.Role.permissions role)))
     end)
    (fun error =>
       ret (reply_text ("❌ Failed to update role: " ++ errorMessage error))).

(** [deleteRole(args)] *)
Definition deleteRole (args : option Args.t) : Js ToolResult :=
  try_catch
    (id <- prop args "id" Args.id ;;
     _ <- axios (DELETE ("/roles/" ++ show_opt id)) (delete_role (show_opt id)) ;;
     ret (reply_text "✅ Role deleted successfully!"))
    (fun error =>
       ret (reply_text ("❌ Failed to delete role: " ++ errorMessage error))).

(** [seedDatabase()] *)
Definition seedDatabase : Js ToolResult :=
  try_catch
    (data <- axios (POST "/seed") post_seed ;;
     ret (reply_text
            ("✅ Database seeded successfully!" ++ nl ++ nl
             ++ Json.Seed.message data ++ nl ++ nl ++ "Created:" ++ nl
             ++ "- " ++ show_nat (List.length (Json.Seed.roles data))
             ++ " roles" ++ nl
             ++ "- " ++ show_nat (List.length (Json.Seed.users data))
             ++ " users" ++ nl ++ nl
             ++ "Default admin login:" ++ nl
             ++ "- Email: admin@example.com" ++ nl
             ++ "- Password: admin123")))
    (fun error =>
       ret (reply_text ("❌ Failed to seed database: " ++ errorMessage error))).

(** The nine tools of the [switch]. *)
Inductive Tool :=
| CreateUser | GetUsers | UpdateUser | DeleteUser
| CreateRole | GetRoles | UpdateRole | DeleteRole
| SeedDatabase.


(** The [CallToolRequestSchema] handler. *)
Definition CallTool (name : string) (args : option Args.t) : Js ToolResult :=
  try_catch
    (if String.eqb name "create_user" then createUser args
     else if String.eqb name "get_users" then getUsers args
     else if String.eqb name "update_user" then updateUser args
     else if String.eqb name "delete_user" then deleteUser args
     else if String.eqb name "create_role" then createRole args
     else if String.eqb name "get_roles" then getRoles args
     else if String.eqb name "update_role" then updateRole args
     else if String.eqb name "delete_role" then deleteRole args
     else if String.eqb name "seed_database" then seedDatabase
     else throw (McpError MethodNotFound ("Unknown tool: " ++ name)))
    (fun error =>
       match error with
       | McpError _ _ => throw error
       | _ => throw (McpError InternalError
                       ("Tool execution failed: " ++ message error))
       end).

End WithCollaborators.

End Mcp.

(* ===================================================================== *)
(** ** Facts about [trim], [length] and the conversion of ASCII letters   *)
(* ===================================================================== *)

Module TextFacts.
Import JsString.

(** *** Trimming *)


Lemma trimStart_step (s : string) :
  trimStart s
  = match skip_white_space s with
    | Some rest => trimStart rest
    | None => s
    end.
Proof.
  destruct s as [|c1 s1]; [reflexivity|].
  change (trimStart (String c1 s1))
    with (if is_white_space (String c1 "") then trimStart s1
          else
            match s1 with
            | EmptyString => String c1 s1
            | String c2 s2 =>
                if is_white_space (String c1 (String c2 ""))
                then trimStart s2
                else
                  match s2 with
                  | EmptyString => String c1 s1
                  | String c3 s3 =>
                      if is_white_space
                           (String c1 (String c2 (String c3 "")))
                      then trimStart s3
                      else String c1 s1
                  end
            end).
  unfold skip_white_space.
  destruct (is_white_space (String c1 "")); [reflexivity|].
  destruct s1 as [|c2 s2]; [reflexivity|].
  destruct (is_white_space (String c1 (String c2 ""))); [reflexivity|].
  destruct s2 as [|c3 s3]; [reflexivity|].
  now destruct (is_white_space (String c1 (String c2 (String c3 "")))).
Qed.

Lemma skip_white_space_shorter (s rest : string) :
  skip_white_space s = Some rest -> String.length rest < String.length s.
Proof.
  destruct s as [|c1 [|c2 [|c3 s3]]]; cbn [skip_white_space];
    repeat match goal with
           | |- context [if ?b then _ else _] => destruct b
           end; intros E; inversion E; subst; simpl; lia.
Qed.

Lemma trimStart_done (s : string) :
  skip_white_space s = None -> trimStart s = s.
Proof. intros E. now rewrite trimStart_step, E. Qed.

Lemma trimStart_clean_upto (n : nat) : forall s,
  String.length s <= n -> skip_white_space (trimStart s) = None.
Proof.
  induction n as [|n IH]; intros s Hn.
  - destruct s; [reflexivity | simpl in Hn; lia].
  - rewrite trimStart_step.
    destruct (skip_white_space s) as [rest|] eqn:E; [|exact E].
    apply IH. apply skip_white_space_shorter in E. lia.
Qed.

Lemma trimStart_clean (s : string) : skip_white_space (trimStart s) = None.
Proof. apply (trimStart_clean_upto (String.length s)). lia. Qed.

Lemma trimStart_idempotent (s : string) :
  trimStart (trimStart s) = trimStart s.
Proof. apply trimStart_done, trimStart_clean. Qed.

Lemma trimEnd_idempotent (s : string) : trimEnd (trimEnd s) = trimEnd s.
Proof.
  induction s as [|c s IH]; [reflexivity|]. cbn [trimEnd]. cbv zeta.
  destruct (is_white_space (String c (trimEnd s))) eqn:E; [reflexivity|].
  cbn [trimEnd]. cbv zeta. now rewrite IH, E.
Qed.

Lemma trimEnd_prefix (s : string) : exists rest, s = trimEnd s ++ rest.
Proof.
  induction s as [|c s [rest IH]]; [now exists ""|]. cbn [trimEnd]. cbv zeta.
  destruct (is_white_space (String c (trimEnd s))).
  - now exists (String c s).
  - exists rest. simpl. now rewrite <- IH.
Qed.

Lemma skip_white_space_prefix (v rest : string) :
  skip_white_space (v ++ rest) = None -> skip_white_space v = None.
Proof.
  destruct v as [|c1 [|c2 [|c3 v3]]]; [reflexivity| | |].
  - destruct rest as [|d1 [|d2 rest]]; cbn [append skip_white_space];
      repeat match goal with
             | |- context [if ?b then _ else _] => destruct b
             end; congruence.
  - destruct rest as [|d1 rest]; cbn [append skip_white_space];
      repeat match goal with
             | |- context [if ?b then _ else _] => destruct b
             end; congruence.
  - cbn [append skip_white_space];
      repeat match goal with
             | |- context [if ?b then _ else _] => destruct b
             end; congruence.
Qed.

Lemma trimEnd_clean (s : string) :
  skip_white_space s = None -> skip_white_space (trimEnd s) = None.
Proof.
  intros Hs. destruct (trimEnd_prefix s) as [rest E].
  rewrite E in Hs. now apply skip_white_space_prefix in Hs.
Qed.

Lemma trim_idempotent (s : string) : trim (trim s) = trim s.
Proof.
  unfold trim.
  rewrite (trimStart_done (trimEnd (trimStart s)))
    by apply trimEnd_clean, trimStart_clean.
  apply trimEnd_idempotent.
Qed.

(** *** Trimming strips the white space of the two ends, and only that *)












(** *** Only [trim s] is [s] stripped *)















(** *** The conversion of A to Z *)

Lemma lower_char_upper (c : ascii) :
  is_upper c = true ->
  (97 <= N_of_ascii (lower_char c) <= 122)%N.
Proof.
  intros U. unfold lower_char. rewrite U. unfold is_upper in U.
  apply andb_prop in U. destruct U as [U1 U2].
  apply N.leb_le in U1, U2.
  rewrite N_ascii_embedding by lia. lia.
Qed.

Lemma eqb_lower_char (c d : ascii) :
  letterless d = true -> Ascii.eqb (lower_char c) d = Ascii.eqb c d.
Proof.
  intros Hd. destruct (is_upper c) eqn:U.
  - pose proof (lower_char_upper c U) as Hl.
    unfold is_upper in U. apply andb_prop in U. destruct U as [U1 U2].
    apply N.leb_le in U1, U2.
    unfold letterless in Hd. apply negb_true_iff, orb_false_iff in Hd.
    destruct Hd as [D1 D2].
    assert (N1 : lower_char c <> d).
    { intros <-. apply andb_false_iff in D2.
      destruct D2 as [D|D]; apply N.leb_gt in D; lia. }
    assert (N2 : c <> d).
    { intros <-. apply andb_false_iff in D1.
      destruct D1 as [D|D]; apply N.leb_gt in D; lia. }
    apply Ascii.eqb_neq in N1, N2. now rewrite N1, N2.
  - unfold lower_char. now rewrite U.
Qed.

Lemma eqb_fold_ascii (b : string) : forall s,
  all_chars letterless b = true ->
  String.eqb (fold_ascii s) b = String.eqb s b.
Proof.
  induction b as [|d b IH]; intros s Hb; destruct s as [|c s];
    try reflexivity.
  cbn [all_chars] in Hb. apply andb_prop in Hb. destruct Hb as [Hd Hb].
  cbn [fold_ascii String.eqb]. now rewrite eqb_lower_char, IH.
Qed.

Lemma is_white_space_fold_ascii (s : string) :
  is_white_space (fold_ascii s) = is_white_space s.
Proof.
  unfold is_white_space.
  assert (Hall : forallb (all_chars letterless) white_space = true)
    by reflexivity.
  induction white_space as [|b l IH]; [reflexivity|].
  cbn [forallb] in Hall. apply andb_prop in Hall. destruct Hall as [Hb Hl].
  cbn [existsb]. now rewrite eqb_fold_ascii, IH.
Qed.

Lemma skip_white_space_fold_ascii (s : string) :
  skip_white_space (fold_ascii s) = option_map fold_ascii (skip_white_space s).
Proof.
  destruct s as [|c1 [|c2 [|c3 s3]]]; cbn [fold_ascii skip_white_space].
  - reflexivity.
  - change (String (lower_char c1) "") with (fold_ascii (String c1 "")).
    rewrite is_white_space_fold_ascii.
    now destruct (is_white_space (String c1 "")).
  - change (String (lower_char c1) "") with (fold_ascii (String c1 "")).
    change (String (lower_char c1) (String (lower_char c2) ""))
      with (fold_ascii (String c1 (String c2 ""))).
    rewrite !is_white_space_fold_ascii.
    destruct (is_white_space (String c1 "")); [reflexivity|].
    now destruct (is_white_space (String c1 (String c2 ""))).
  - change (String (lower_char c1) "") with (fold_ascii (String c1 "")).
    change (String (lower_char c1) (String (lower_char c2) ""))
      with (fold_ascii (String c1 (String c2 ""))).
    change (String (lower_char c1) (String (lower_char c2)
              (String (lower_char c3) "")))
      with (fold_ascii (String c1 (String c2 (String c3 "")))).
    rewrite !is_white_space_fold_ascii.
    destruct (is_white_space (String c1 "")); [reflexivity|].
    destruct (is_white_space (String c1 (String c2 ""))); [reflexivity|].
    now destruct (is_white_space (String c1 (String c2 (String c3 "")))).
Qed.

Lemma fold_ascii_length (s : string) :
  String.length (fold_ascii s) = String.length s.
Proof. induction s; simpl; congruence. Qed.

Lemma trimStart_fold_ascii_upto (n : nat) : forall s,
  String.length s <= n ->
  trimStart (fold_ascii s) = fold_ascii (trimStart s).
Proof.
  induction n as [|n IH]; intros s Hn.
  - destruct s; [reflexivity | simpl in Hn; lia].
  - rewrite (trimStart_step (fold_ascii s)), (trimStart_step s),
      skip_white_space_fold_ascii.
    destruct (skip_white_space s) as [rest|] eqn:E; [|reflexivity].
    cbn [option_map]. apply IH.
    apply skip_white_space_shorter in E. lia.
Qed.

Lemma trimStart_fold_ascii (s : string) :
  trimStart (fold_ascii s) = fold_ascii (trimStart s).
Proof. apply (trimStart_fold_ascii_upto (String.length s)). lia. Qed.

Lemma trimEnd_fold_ascii (s : string) :
  trimEnd (fold_ascii s) = fold_ascii (trimEnd s).
Proof.
  induction s as [|c s IH]; [reflexivity|].
  cbn [fold_ascii trimEnd]. cbv zeta. rewrite IH.
  change (String (lower_char c) (fold_ascii (trimEnd s)))
    with (fold_ascii (String c (trimEnd s))).
  rewrite is_white_space_fold_ascii.
  now destruct (is_white_space (String c (trimEnd s))).
Qed.

Lemma trim_fold_ascii (s : string) :
  fold_ascii (trim s) = trim (fold_ascii s).
Proof.
  unfold trim. now rewrite trimStart_fold_ascii, trimEnd_fold_ascii.
Qed.

Lemma lower_char_idempotent (c : ascii) :
  lower_char (lower_char c) = lower_char c.
Proof.
  destruct (is_upper c) eqn:U.
  - pose proof (lower_char_upper c U) as Hl.
    unfold lower_char at 1.
    replace (is_upper (lower_char c)) with false; [reflexivity|].
    symmetry. unfold is_upper. apply andb_false_iff. right.
    apply N.leb_gt. lia.
  - unfold lower_char. now rewrite U, U.
Qed.

Lemma fold_ascii_idempotent (s : string) :
  fold_ascii (fold_ascii s) = fold_ascii s.
Proof.
  induction s as [|c s IH]; simpl; [reflexivity|].
  now rewrite lower_char_idempotent, IH.
Qed.

(** *** The length a validator sees *)

Lemma utf16_length_from_le (s : string) : forall p,
  utf16_length_from p s <= String.length s.
Proof.
  induction s as [|c s IH]; intros p; simpl; [lia|].
  destruct p as [|k].
  - specialize (IH (continuation_bytes c)). lia.
  - destruct (is_continuation c).
    + specialize (IH k). destruct (Nat.eqb k 2); lia.
    + specialize (IH (continuation_bytes c)). lia.
Qed.

Lemma continuation_bytes_le (c : ascii) : continuation_bytes c <= 3.
Proof.
  unfold continuation_bytes.
  repeat match goal with
         | |- context [if ?b then _ else _] => destruct b
         end; lia.
Qed.

Lemma utf16_length_from_ge (s : string) : forall p,
  p <= 3 ->
  String.length s <= 3 * utf16_length_from p s + Nat.min p 2.
Proof.
  induction s as [|c s IH]; intros p Hp; simpl; [lia|].
  pose proof (continuation_bytes_le c) as Hc.
  destruct p as [|k].
  - specialize (IH (continuation_bytes c) Hc). lia.
  - destruct (is_continuation c).
    + assert (Hk : k <= 3) by lia. specialize (IH k Hk).
      destruct (Nat.eqb k 2) eqn:E.
      * apply Nat.eqb_eq in E. subst k. simpl in *. lia.
      * apply Nat.eqb_neq in E. destruct k as [|[|[|k]]]; simpl in *; lia.
    + specialize (IH (continuation_bytes c) Hc). lia.
Qed.

(** A string has at most as many code units as bytes, and at most three
    bytes for each code unit. *)
Lemma utf16_length_bounds (s : string) :
  utf16_length s <= String.length s <= 3 * utf16_length s.
Proof.
  split; [apply utf16_length_from_le|].
  pose proof (utf16_length_from_ge s 0). unfold utf16_length.
  simpl in *. lia.
Qed.

Lemma utf16_length_ascii (s : string) :
  is_ascii s = true -> utf16_length s = String.length s.
Proof.
  unfold utf16_length. induction s as [|c s IH]; [reflexivity|].
  cbn [is_ascii all_chars]. intros Hs. apply andb_prop in Hs.
  destruct Hs as [Hc Hs]. cbn [utf16_length_from String.length].
  unfold continuation_bytes. apply N.ltb_lt in Hc.
  replace (N_of_ascii c <? 192)%N with true
    by (symmetry; apply N.ltb_lt; lia).
  now rewrite (IH Hs).
Qed.

End TextFacts.

(* ===================================================================== *)
(** ** A concrete instance of the collaborators, to run examples          *)
(* ===================================================================== *)

Module Examples.
Import JsString.

(** The conversion that changes A to Z and no other character: what an
    engine does on text whose letters are ASCII. *)
#[export] Instance ascii_case : CaseConversion :=
  {| toLowerCase := fold_ascii;
     toLowerCase_on_ascii := fun s _ => eq_refl;
     toLowerCase_twice := TextFacts.fold_ascii_idempotent;
     toLowerCase_of_trim := TextFacts.trim_fold_ascii |}.

(** The first [n] characters of [s], padded with dots. *)
Fixpoint pad_to (n : nat) (s : string) : string :=
  match n with
  | O => EmptyString
  | S n' =>
      match s with
      | EmptyString => String "." (pad_to n' EmptyString)
      | String c s' => String c (pad_to n' s')
      end
  end.

Lemma pad_to_length (n : nat) (s : string) : String.length (pad_to n s) = n.
Proof.
  revert s; induction n as [|n IH]; intros s; [reflexivity|].
  destruct s; simpl; now rewrite IH.
Qed.

(** A 60-character digest with bcrypt's prefix. *)
Definition padding_hash (p : string) (rounds : nat) : string :=
  "$2a$10$" ++ pad_to 53 p.

Lemma padding_hash_length (p : string) (r : nat) :
  String.length (padding_hash p r) = 60.
Proof.
  unfold padding_hash.
  change (S (S (S (S (S (S (S (String.length (pad_to 53 p)))))))) = 60).
  now rewrite pad_to_length.
Qed.

#[export] Instance padding_hasher : SecretHasher :=
  {| bcrypt_hash := padding_hash; bcrypt_hash_length := padding_hash_length |}.

(** Dates are accepted when they have the ten characters of [YYYY-MM-DD]
    and rendered as they are. *)
#[export] Instance plain_dates : JsDate :=
  {| castDate := fun d => if Nat.eqb (String.length d) 10 then Some d else None;
     toDateString := fun d => d;
     createdAt_toLocaleString := fun id => "created:" ++ id |}.

End Examples.

(* ===================================================================== *)
(** ** Vocabulary of the statements                                       *)
(* ===================================================================== *)

Module Spec.
Import JsString Bson Schema Model Api Mcp.

(** The role's name equals the input up to case. *)
Definition name_matches `{unicode : CaseConversion} (input : string) (r : Role.t)
  : bool :=
  String.eqb (toLowerCase (Role.name r)) (toLowerCase input).

(** The world after one more request that left the Store as it was. *)
Definition after_request (w : World) (r : Request) : World :=
  {| api_up := api_up w; store := store w;
     requests := (requests w ++ [r])%list |}.

(** Some stored account refers to a role that is not in the Store. *)
Definition dangling (s : Store) (u : User.t) : Prop :=
  In u (users s) /\ find (role_has_id (User.role u)) (roles s) = None.

(** Identifiers in use are below the next one, which is a 96-bit value. *)
Definition well_formed (s : Store) : Prop :=
  Forall (fun u => (User._id u < next_oid s)%N) (users s)
  /\ Forall (fun r => (Role._id r < next_oid s)%N) (roles s)
  /\ (next_oid s < ObjectId_bound)%N.





(** The document [Role.save] inserts. *)
Definition saved_role (s : Store) (body : RoleFields.t) : Role.t :=
  new_role (next_oid s) (role_setters body).

(** The update names the key of the filter and supplies all other
    paths. *)
Definition full_role_update (name : string) (b : RoleFields.t) : Prop :=
  trim name = name
  /\ RoleFields.name (role_setters b) = Some name
  /\ (exists d, RoleFields.description b = Some d)
  /\ (exists ps, RoleFields.permissions b = Some ps)
  /\ (exists a, RoleFields.isActive b = Some a).

(** What the upsert does under [full_role_update]: the identifier is the
    one of the first role with that name, or the next one. *)
Definition role_upsert (s : Store) (name : string) (b : RoleFields.t)
  : Role.t * Store :=
  match find (role_has_name name) (roles s) with
  | Some old =>
      let doc := new_role (Role._id old) (role_setters b) in
      (doc, with_roles s (update_first (role_has_name name) doc (roles s)))
  | None =>
      let doc := new_role (next_oid s) (role_setters b) in
      (doc, insert_role s doc)
  end.

Definition admin_email : string := "admin@example.com".

(** What the upsert of the seeded account does. *)
Definition user_upsert (s : Store) (rid : ObjectId) : User.t * Store :=
  match find (user_has_email admin_email) (users s) with
  | Some old =>
      let doc := apply_user_update old (seed_admin_user rid) in
      (doc, with_users s (update_first (user_has_email admin_email) doc (users s)))
  | None =>
      let doc := new_user (next_oid s) (seed_admin_user rid) in
      (doc, insert_user s doc)
  end.

(** The roles, the account and the Store that [post_seed] produces. *)
Definition seeded (s : Store) : Role.t * Role.t * User.t * Store :=
  let (adminRole, s1) := role_upsert s "admin" seed_admin_role in
  let (userRole, s2) := role_upsert s1 "user" seed_user_role in
  let (adminUser, s3) := user_upsert s2 (Role._id adminRole) in
  (adminRole, userRole, adminUser, s3).

Definition seed_answer (adminRole userRole : Role.t) (adminUser : User.t)
  : Reply Json.Seed.t :=
  Sent 200
    {| Json.Seed.message := "Seed data created successfully";
       Json.Seed.roles := [role_toJSON adminRole; role_toJSON userRole];
       Json.Seed.users := [user_toJSON adminUser] |}.

(** The text every [catch] block of a tool puts before the error. *)
Definition failure_prefix (t : Tool) : string :=
  match t with
  | CreateUser => "❌ Failed to create user: "
  | GetUsers => "❌ Failed to retrieve users: "
  | UpdateUser => "❌ Failed to update user: "
  | DeleteUser => "❌ Failed to delete user: "
  | CreateRole => "❌ Failed to create role: "
  | GetRoles => "❌ Failed to retrieve roles: "
  | UpdateRole => "❌ Failed to update role: "
  | DeleteRole => "❌ Failed to delete role: "
  | SeedDatabase => "❌ Failed to seed database: "
  end.




(** The [catch] block of a tool. *)
Definition render_failure (t : Tool) (error : JsError) : Js ToolResult :=
  ret (reply_text (failure_prefix t ++ errorMessage error)).




Section WithCollaborators.
Context `{unicode : CaseConversion} `{SecretHasher} `{JsDate}.

(** The document [User.save] inserts. *)
Definition saved_user (s : Store) (body : UserFields.t) : User.t :=
  pre_save true (new_user (next_oid s) (cast_user_fields body)).

(** "Overwriting all non-key fields with the canonical defaults", at the
    account: after a seed, the account under the seeded email is the
    canonical one, the one a seed creates when there is none, whatever was
    stored before. *)
Definition seed_overwrites_all_fields : Prop :=
  forall (s s' : Store) (adminRole userRole : Role.t) (adminUser : User.t),
    post_seed s = (seed_answer adminRole userRole adminUser, s') ->
    adminUser
    = new_user (User._id adminUser) (seed_admin_user (Role._id adminRole)).



End WithCollaborators.

End Spec.

(* ===================================================================== *)
(** ** Example worlds                                                     *)
(* ===================================================================== *)

Module Scenario.
Import Examples JsString Bson Schema Model Api Mcp Spec.

Definition fresh_world : World :=
  {| api_up := true; store := empty_store; requests := [] |}.

(** The world after [seed_database] on an empty Store. *)
Definition seeded_world : World := snd (seedDatabase fresh_world).

(** The seeded world after [delete_role] on the admin role, which the
    seeded account still refers to. *)
Definition admin_role_deleted : World :=
  snd (deleteRole
         (Some {| Args.id := Some "000000000000000000000001";
                  Args.firstName := None; Args.lastName := None;
                  Args.email := None; Args.password := None;
                  Args.phone := None; Args.dateOfBirth := None;
                  Args.role := None; Args.isActive := None;
                  Args.name := None; Args.description := None;
                  Args.permissions := None |})
         seeded_world).

Definition john : Args.t :=
  {| Args.id := None; Args.firstName := Some "John";
     Args.lastName := Some "Doe"; Args.email := Some "JOHN@X.COM";
     Args.password := Some "secret1"; Args.phone := None;
     Args.dateOfBirth := None; Args.role := Some "Admin";
     Args.isActive := None; Args.name := None; Args.description := None;
     Args.permissions := None |}.

Definition with_role (a : Args.t) (role : string) : Args.t :=
  {| Args.id := Args.id a; Args.firstName := Args.firstName a;
     Args.lastName := Args.lastName a; Args.email := Args.email a;
     Args.password := Args.password a; Args.phone := Args.phone a;
     Args.dateOfBirth := Args.dateOfBirth a; Args.role := Some role;
     Args.isActive := Args.isActive a; Args.name := Args.name a;
     Args.description := Args.description a;
     Args.permissions := Args.permissions a |}.

Definition john_body (email : string) : UserFields.t :=
  {| UserFields.firstName := Some "John"; UserFields.lastName := Some "Doe";
     UserFields.email := Some email; UserFields.password := Some "secret1";
     UserFields.phone := None; UserFields.dateOfBirth := None;
     UserFields.role := Some "000000000000000000000001";
     UserFields.isActive := None |}.

Definition no_break_space : string := of_bytes [194; 160].


Definition editor_body (description : string) : RoleFields.t :=
  {| RoleFields.name := Some "editor";
     RoleFields.description := Some description;
     RoleFields.permissions := Some ["read"; "write"];
     RoleFields.isActive := None |}.

Definition role_named (name description : string) : RoleFields.t :=
  {| RoleFields.name := Some name;
     RoleFields.description := Some description;
     RoleFields.permissions := Some ["read"; "write"];
     RoleFields.isActive := None |}.

(** A Store in which the seeded email belongs to an account that has a
    date of birth. *)
Definition store_with_birthday : Store :=
  snd (post_users
         {| UserFields.firstName := Some "Ada";
            UserFields.lastName := Some "Admin";
            UserFields.email := Some "admin@example.com";
            UserFields.password := Some "correct horse";
            UserFields.phone := None;
            UserFields.dateOfBirth := Some "1990-01-01";
            UserFields.role := Some "000000000000000000000001";
            UserFields.isActive := Some false |}
         empty_store).

(** A body that sets the password and nothing else. *)
Definition password_only (p : string) : UserFields.t :=
  {| UserFields.firstName := None; UserFields.lastName := None;
     UserFields.email := None; UserFields.password := Some p;
     UserFields.phone := None; UserFields.dateOfBirth := None;
     UserFields.role := None; UserFields.isActive := None |}.


End Scenario.

(* ===================================================================== *)
(** ** The API as a whole, and the consistency of the Store               *)
(* ===================================================================== *)

Module App.
Import JsString Bson Schema Model Api.

(** One request to the Express app: the method, the path with its [:id]
    parameter, and the body. *)
Inductive Call :=
| GET_roles
| GET_role (id : string)
| POST_roles (body : RoleFields.t)
| PUT_role (id : string) (body : RoleFields.t)
| DELETE_role (id : string)
| GET_users
| GET_user (id : string)
| POST_users (body : UserFields.t)
| PUT_user (id : string) (body : UserFields.t)
| DELETE_user (id : string)
| POST_seed.

(** The value at a path is what a String path with [trim: true] holds. *)
Definition trimmed (n : string) : Prop := trim n = n.

(** The value is what the [email] path holds: trimmed and lowercased. *)
Definition normalised `{unicode : CaseConversion} (e : string) : Prop :=
  toLowerCase (trim e) = e.

(** What the Store guarantees about the two collections: identifiers in
    use are below the next one and are not shared, no two accounts have
    the same email and no two roles the same name, and emails and names
    are in the form their setters produce. *)
Record consistent `{unicode : CaseConversion} (s : Store) : Prop := {
  user_ids_below : Forall (fun u => (User._id u < next_oid s)%N) (users s);
  role_ids_below : Forall (fun r => (Role._id r < next_oid s)%N) (roles s);
  user_ids_unique : NoDup (map User._id (users s));
  role_ids_unique : NoDup (map Role._id (roles s));
  emails_unique : NoDup (map User.email (users s));
  names_unique : NoDup (map Role.name (roles s));
  emails_normalised : Forall (fun u => normalised (User.email u)) (users s);
  names_trimmed : Forall (fun r => trimmed (Role.name r)) (roles s)
}.

Section WithCollaborators.
Context `{unicode : CaseConversion} `{SecretHasher} `{JsDate}.

(** The Store after the app has served the request. *)
Definition serve (c : Call) (s : Store) : Store :=
  match c with
  | GET_roles => snd (get_roles s)
  | GET_role id => snd (get_role id s)
  | POST_roles body => snd (post_roles body s)
  | PUT_role id body => snd (put_role id body s)
  | DELETE_role id => snd (delete_role id s)
  | GET_users => snd (get_users s)
  | GET_user id => snd (get_user id s)
  | POST_users body => snd (post_users body s)
  | PUT_user id body => snd (put_user id body s)
  | DELETE_user id => snd (delete_user id s)
  | POST_seed => snd (post_seed s)
  end.

(** The Store after a sequence of requests, served in order. *)
Fixpoint serve_all (cs : list Call) (s : Store) : Store :=
  match cs with
  | [] => s
  | c :: rest => serve_all rest (serve c s)
  end.

End WithCollaborators.

End App.

(* ===================================================================== *)
(** ** Argument bags of the update tools                                  *)
(* ===================================================================== *)

Module Bags.
Import JsString Bson Schema Model Api Mcp.

(** [{ id }] *)
Definition only_id (id : string) : Args.t :=
  {| Args.id := Some id; Args.firstName := None; Args.lastName := None;
     Args.email := None; Args.password := None; Args.phone := None;
     Args.dateOfBirth := None; Args.role := None; Args.isActive := None;
     Args.name := None; Args.description := None;
     Args.permissions := None |}.

(** [{ id, role }]: the bag of "give this account that role". *)
Definition role_change (id role : string) : Args.t :=
  {| Args.id := Some id; Args.firstName := None; Args.lastName := None;
     Args.email := None; Args.password := None; Args.phone := None;
     Args.dateOfBirth := None; Args.role := Some role;
     Args.isActive := None; Args.name := None; Args.description := None;
     Args.permissions := None |}.

(** The stored account with another role reference. *)
Definition with_role_ref (u : User.t) (rid : ObjectId) : User.t :=
  {| User._id := User._id u;
     User.firstName := User.firstName u;
     User.lastName := User.lastName u;
     User.email := User.email u;
     User.password := User.password u;
     User.phone := User.phone u;
     User.dateOfBirth := User.dateOfBirth u;
     User.role := rid;
     User.isActive := User.isActive u |}.

End Bags.

(* ===================================================================== *)
(** ** mcp-server.js: the tool listing                                    *)
(* ===================================================================== *)

Module Listing.

(** What the [ListToolsRequestSchema] handler declares of a tool, as far
    as the handlers are concerned: its name, the keys of
    [inputSchema.properties], the [required] keys, and the [enum] of the
    items of [permissions] where that key is declared. *)
Record ToolSchema := {
  name : string;
  properties : list string;
  required : list string;
  permissions_enum : list string
}.

Definition ListTools : list ToolSchema :=
  [ {| name := "create_user";
       properties := ["firstName"; "lastName"; "email"; "password"; "phone";
                      "dateOfBirth"; "role"];
       required := ["firstName"; "lastName"; "email"; "password"; "role"];
       permissions_enum := [] |};
    {| name := "get_users";
       properties := ["id"];
       required := [];
       permissions_enum := [] |};
    {| name := "update_user";
       properties := ["id"; "firstName"; "lastName"; "email"; "password";
                      "phone"; "dateOfBirth"; "role"; "isActive"];
       required := ["id"];
       permissions_enum := [] |};
    {| name := "delete_user";
       properties := ["id"];
       required := ["id"];
       permissions_enum := [] |};
    {| name := "create_role";
       properties := ["name"; "description"; "permissions"; "isActive"];
       required := ["name"; "description"; "permissions"];
       permissions_enum := ["read"; "write"; "delete"; "admin"] |};
    {| name := "get_roles";
       properties := ["id"];
       required := [];
       permissions_enum := [] |};
    {| name := "update_role";
       properties := ["id"; "name"; "description"; "permissions"; "isActive"];
       required := ["id"];
       permissions_enum := ["read"; "write"; "delete"; "admin"] |};
    {| name := "delete_role";
       properties := ["id"];
       required := ["id"];
       permissions_enum := [] |};
    {| name := "seed_database";
       properties := [];
       required := [];
       permissions_enum := [] |} ]%list.

End Listing.

(* ===================================================================== *)
(** ** The two test scripts of the guides                                 *)
(* ===================================================================== *)

Module Script.
Import Mcp.

(** A line on the console, by the stream it goes to. *)
Inductive Line :=
| log (s : string)
| error (s : string).

(** What a script runs against: the world of the API, and the console
    (most recent line last). *)
Record Run := {
  world : World;
  console : list Line
}.

(** An async function body of a script: it returns or throws, and what it
    printed before throwing stays printed. *)
Definition t (A : Type) : Type := Run -> (JsError + A) * Run.

Definition ret {A : Type} (a : A) : t A := fun r => (inr a, r).

Definition bind {A B : Type} (m : t A) (k : A -> t B) : t B := fun r =>
  match m r with
  | (inr a, r') => k a r'
  | (inl e, r') => (inl e, r')
  end.

(** [try { body } catch (error) { handler }] *)
Definition try_catch {A : Type} (body : t A) (handler : JsError -> t A)
  : t A := fun r =>
  match body r with
  | (inr a, r') => (inr a, r')
  | (inl e, r') => handler e r'
  end.

(** [await] of a request: it runs against the world and leaves the
    console alone. *)
Definition await {A : Type} (m : Js A) : t A := fun r =>
  let (x, w') := m (world r) in
  (x, {| world := w'; console := console r |}).

Definition print (l : Line) : t unit := fun r =>
  (inr tt, {| world := world r; console := (console r ++ [l])%list |}).

(** [list.forEach(x => console.log(...))] *)
Fixpoint forEach {A : Type} (line : A -> Line) (l : list A) : t unit :=
  match l with
  | [] => ret tt
  | x :: rest => bind (print (line x)) (fun _ => forEach line rest)
  end.

End Script.

Module Scripts.
Import JsString Bson Schema Model Api Mcp.
Import Script (Line, log, error, Run, world, console, await, print, forEach).

Notation "x <~ m ;; k" := (Script.bind m (fun x => k))
  (at level 100, m at next level, right associativity).

Notation "m ;;; k" := (Script.bind m (fun _ => k))
  (at level 100, right associativity).

(** [error.response ? error.response.data.error : error.message] as the
    template literal prints it. *)
Definition response_error (e : JsError) : string :=
  match e with
  | AxiosError _ (Some (Some data_error)) => data_error
  | AxiosError _ (Some None) => "undefined"
  | _ => message e
  end.

Definition user_line (user : Json.User.t) : Line :=
  log ("   - " ++ Json.User.firstName user ++ " " ++ Json.User.lastName user
       ++ " (" ++ Json.User.email user ++ ")").

Definition role_line (role : Json.Role.t) : Line :=
  log ("   - " ++ Json.Role.name role ++ ": "
       ++ join ", " (Json.Role.permissions role)).

(** The body the script posts to [/api/users], with the id of the admin
    role. *)
Definition test_user (adminRole_id : string) : UserFields.t :=
  {| UserFields.firstName := Some "Test";
     UserFields.lastName := Some "User";
     UserFields.email := Some "test@example.com";
     UserFields.password := Some "testpass123";
     UserFields.phone := Some "+1234567890";
     UserFields.dateOfBirth := None;
     UserFields.role := Some adminRole_id;
     UserFields.isActive := None |}.

(** The body the script posts to [/api/roles]. *)
Definition editor_role : RoleFields.t :=
  {| RoleFields.name := Some "editor";
     RoleFields.description :=
       Some "Content editor with read and write permissions";
     RoleFields.permissions := Some ["read"; "write"];
     RoleFields.isActive := None |}.

Definition is_admin (r : Json.Role.t) : bool :=
  String.eqb (Json.Role.name r) "admin".

Section WithCollaborators.
Context `{unicode : CaseConversion} `{SecretHasher} `{JsDate}.

(** [quickTest()]: the paths are those below [http://localhost:3000/api]. *)
Definition quickTest : Script.t unit :=
  Script.try_catch
    (print (log "Testing API...") ;;;
     roles <~ await (axios (GET "/roles") get_roles) ;;
     print (log ("✅ API working! Found " ++ show_nat (List.length roles)
                 ++ " roles")) ;;;
     (if Nat.eqb (List.length roles) 0 then
        print (log "Seeding database...") ;;;
        _ <~ await (axios (POST "/seed") post_seed) ;;
        print (log "✅ Database seeded")
      else Script.ret tt) ;;;
     users <~ await (axios (GET "/users") get_users) ;;
     print (log ("✅ Found " ++ show_nat (List.length users) ++ " users")))
    (fun e => print (error ("❌ Error: " ++ message e))).

(** [testPrompts()] *)
Definition testPrompts : Script.t unit :=
  print (log ("🧪 Testing Direct API Calls..." ++ nl)) ;;;
  Script.try_catch
    (print (log "1. Current users:") ;;;
     users <~ await (axios (GET "/users") get_users) ;;
     print (log ("   Found " ++ show_nat (List.length users) ++ " users")) ;;;
     forEach user_line users ;;;
     print (log (nl ++ "2. Current roles:")) ;;;
     roles <~ await (axios (GET "/roles") get_roles) ;;
     print (log ("   Found " ++ show_nat (List.length roles) ++ " roles")) ;;;
     forEach role_line roles ;;;
     print (log (nl ++ "3. Creating new user " ++ dq ++ "Test User" ++ dq
                 ++ "...")) ;;;
     (match find is_admin roles with
      | Some adminRole =>
          data <~ await (axios (POST "/users")
                           (post_users (test_user (Json.Role._id adminRole)))) ;;
          newUser <~ await (nonnull data "firstName") ;;
          print (log ("   ✅ Created user: " ++ Json.User.firstName newUser
                      ++ " " ++ Json.User.lastName newUser))
      | None => Script.ret tt
      end) ;;;
     print (log (nl ++ "4. Creating new role " ++ dq ++ "editor" ++ dq
                 ++ "...")) ;;;
     newRole <~ await (axios (POST "/roles") (post_roles editor_role)) ;;
     print (log ("   ✅ Created role: " ++ Json.Role.name newRole)))
    (fun e => print (log ("   ❌ Error: " ++ response_error e))).

End WithCollaborators.

End Scripts.

(* ===================================================================== *)
(** ** Vocabulary of the further statements                               *)
(* ===================================================================== *)

Module Observe.
Import JsString Bson Schema Model Api Mcp.

(** The text [create_user] answers with when the account was created. *)
Definition created_text (user : User.t) (roleName : string) : string :=
  "✅ User created successfully!" ++ nl ++ nl ++ "Details:" ++ nl
  ++ "- Name: " ++ User.firstName user ++ " " ++ User.lastName user ++ nl
  ++ "- Email: " ++ User.email user ++ nl
  ++ "- Role: " ++ roleName ++ nl
  ++ "- ID: " ++ toHexString (User._id user).

Definition is_GET (r : Request) : bool :=
  match r with
  | GET _ => true
  | _ => false
  end.

(** From [w] to [w'] the Store and the reachability of the API are the
    same, and the requests issued in between are GETs. *)
Definition only_reads (w w' : World) : Prop :=
  store w' = store w
  /\ api_up w' = api_up w
  /\ exists l, requests w' = (requests w ++ l)%list
               /\ forallb is_GET l = true.

(** The computation reads and does not write, whatever it returns or
    throws. *)
Definition read_only {A : Type} (m : Js A) : Prop :=
  forall w, only_reads w (snd (m w)).


(** The last line on the console is the error line of [testPrompts]. *)
Definition ends_in_error (console : list Script.Line) : Prop :=
  exists e, last console (Script.log "")
            = Script.log ("   ❌ Error: " ++ e).

Section WithCollaborators.
Context `{unicode : CaseConversion} `{SecretHasher} `{JsDate}.

(** The POST that [testPrompts] reaches first on this Store is refused
    with 400 and leaves the Store as it is: the POST of the account when
    a role is named admin, the POST of the role otherwise. *)
Definition blocked (s : Store) : Prop :=
  (forall adminRole,
      find Scripts.is_admin (map role_toJSON (roles s)) = Some adminRole ->
      exists e,
        post_users (Scripts.test_user (Json.Role._id adminRole)) s
        = (Failed 400 e, s))
  /\ (find Scripts.is_admin (map role_toJSON (roles s)) = None ->
      exists e, post_roles Scripts.editor_role s = (Failed 400 e, s)).

End WithCollaborators.

End Observe.

(* ===================================================================== *)
(** ** Facts about the string primitives and ObjectIds                    *)
(* ===================================================================== *)

Module JsStringFacts.
Import JsString.

Example trim_both_ends : trim "  John Doe  " = "John Doe".
Proof. reflexivity. Qed.

Example trim_blank : trim "   " = "".
Proof. reflexivity. Qed.

(** U+00A0 and U+3000 are stripped as SPACE is, at both ends. *)
Example trim_no_break_space :
  trim (of_bytes [194; 160; 32] ++ "editor" ++ of_bytes [227; 128; 128])
  = "editor".
Proof. reflexivity. Qed.

Example trim_only_no_break_space : trim (of_bytes [194; 160]) = "".
Proof. reflexivity. Qed.

(** Three letters of two bytes each are three code units; a character
    outside the Basic Multilingual Plane is two. *)
Example utf16_length_accented :
  utf16_length (of_bytes [195; 169; 195; 169; 195; 169]) = 3.
Proof. reflexivity. Qed.

Example utf16_length_astral :
  utf16_length (of_bytes [240; 159; 152; 128]) = 2.
Proof. reflexivity. Qed.

Example regex_accepts_24_hex :
  test_ObjectId_regex "507f1f77bcf86cd799439011" = true.
Proof. reflexivity. Qed.

Example regex_refuses_25_hex :
  test_ObjectId_regex "507f1f77bcf86cd7994390110" = false.
Proof. reflexivity. Qed.

Example regex_refuses_name : test_ObjectId_regex "admin" = false.
Proof. reflexivity. Qed.

Example show_nat_404 : show_nat 404 = "404".
Proof. reflexivity. Qed.

Section WithCaseConversion.
Context `{unicode : CaseConversion}.

Example toLowerCase_email : toLowerCase "JOHN@X.COM" = "john@x.com".
Proof. now rewrite toLowerCase_on_ascii. Qed.

(** Case conversion and trimming commute. *)
Lemma trim_toLowerCase (s : string) :
  trim (toLowerCase s) = toLowerCase (trim s).
Proof. symmetry. apply toLowerCase_of_trim. Qed.

(** Strings equal up to case are equal once trimmed and lowercased. *)
Lemma normalised_email_eq (a b : string) :
  toLowerCase a = toLowerCase b ->
  toLowerCase (trim a) = toLowerCase (trim b).
Proof. intros E. now rewrite <- !trim_toLowerCase, E. Qed.

End WithCaseConversion.

Lemma truthy_length (s : string) : truthy s = false <-> s = EmptyString.
Proof. destruct s; simpl; split; congruence. Qed.

End JsStringFacts.

Module BsonFacts.
Import JsString Bson.

Example toHexString_255 : toHexString 255%N = "0000000000000000000000ff".
Proof. reflexivity. Qed.

Example castObjectId_upper :
  castObjectId "0000000000000000000000FF" = Some 255%N.
Proof. reflexivity. Qed.

Example castObjectId_short : castObjectId "ff" = None.
Proof. reflexivity. Qed.

Lemma hex_val_hex_char (d : N) :
  (d < 16)%N -> hex_val (hex_char d) = Some d.
Proof.
  intros Hd.
  assert (E : existsb (N.eqb d) (map N.of_nat (seq 0 16)) = true).
  { apply existsb_exists. exists d. split; [|apply N.eqb_refl].
    replace d with (N.of_nat (N.to_nat d)) by apply N2Nat.id.
    apply in_map, in_seq. lia. }
  simpl in E.
  repeat (apply orb_prop in E; destruct E as [E|E];
          [apply N.eqb_eq in E; subst d; reflexivity|]).
  discriminate.
Qed.

Lemma is_hex_digit_hex_char (d : N) :
  (d < 16)%N -> is_hex_digit (hex_char d) = true.
Proof.
  intros Hd.
  assert (E : existsb (N.eqb d) (map N.of_nat (seq 0 16)) = true).
  { apply existsb_exists. exists d. split; [|apply N.eqb_refl].
    replace d with (N.of_nat (N.to_nat d)) by apply N2Nat.id.
    apply in_map, in_seq. lia. }
  simpl in E.
  repeat (apply orb_prop in E; destruct E as [E|E];
          [apply N.eqb_eq in E; subst d; reflexivity|]).
  discriminate.
Qed.

Lemma hex_digits_length (k : nat) (n : N) (acc : string) :
  String.length (hex_digits k n acc) = k + String.length acc.
Proof.
  revert n acc; induction k as [|k IH]; intros n acc; simpl; [reflexivity|].
  rewrite IH. simpl. lia.
Qed.

Lemma hex_digits_all_hex (k : nat) (n : N) (acc : string) :
  all_chars is_hex_digit (hex_digits k n acc) = all_chars is_hex_digit acc.
Proof.
  revert n acc; induction k as [|k IH]; intros n acc; simpl; [reflexivity|].
  rewrite IH. simpl.
  rewrite is_hex_digit_hex_char; [reflexivity|].
  apply N.mod_lt. discriminate.
Qed.

Lemma parse_hex_hex_digits (k : nat) (n a : N) (acc : string) :
  parse_hex (hex_digits k n acc) a
  = parse_hex acc (a * 16 ^ N.of_nat k + n mod 16 ^ N.of_nat k)%N.
Proof.
  revert n a acc; induction k as [|k IH]; intros n a acc.
  - simpl. rewrite N.mod_1_r. f_equal. lia.
  - cbn [hex_digits]. rewrite IH. cbn [parse_hex].
    rewrite hex_val_hex_char by (apply N.mod_lt; discriminate).
    f_equal.
    rewrite Nat2N.inj_succ, N.pow_succ_r'.
    rewrite (N.Div0.mod_mul_r n 16 (16 ^ N.of_nat k)).
    lia.
Qed.

(** The wire form of an identifier is accepted by the regular expression
    of the resolver. *)
Lemma toHexString_regex (id : ObjectId) :
  test_ObjectId_regex (toHexString id) = true.
Proof.
  unfold test_ObjectId_regex, toHexString.
  now rewrite hex_digits_length, hex_digits_all_hex.
Qed.

(** Casting the wire form of an identifier gives the identifier back. *)
Lemma castObjectId_toHexString (id : ObjectId) :
  (id < ObjectId_bound)%N -> castObjectId (toHexString id) = Some id.
Proof.
  intros Hid. unfold castObjectId. rewrite toHexString_regex.
  unfold toHexString. rewrite parse_hex_hex_digits. cbn [parse_hex].
  f_equal. change (0 * 16 ^ N.of_nat 24)%N with 0%N. rewrite N.add_0_l.
  apply N.mod_small. exact Hid.
Qed.

End BsonFacts.

(* ===================================================================== *)
(** ** Facts about lists and the Store                                    *)
(* ===================================================================== *)

Module ModelFacts.
Import JsString Bson Schema Model.

Section Lists.
Context {A : Type}.
Implicit Types (p q : A -> bool) (l : list A) (d : A).

Lemma existsb_find p l :
  existsb p l = match find p l with Some _ => true | None => false end.
Proof.
  induction l as [|x l IH]; simpl; [reflexivity|].
  destruct (p x); [reflexivity | exact IH].
Qed.

Lemma find_app_last p l d :
  find p (l ++ [d])
  = match find p l with
    | Some x => Some x
    | None => if p d then Some d else None
    end.
Proof.
  induction l as [|x l IH]; simpl; [reflexivity|].
  destruct (p x); [reflexivity | exact IH].
Qed.

Lemma find_update_first_same p l d old :
  find p l = Some old -> p d = true ->
  find p (update_first p d l) = Some d.
Proof.
  intros Hf Hd. induction l as [|x l IH]; simpl in *; [discriminate|].
  destruct (p x) eqn:Hx; simpl.
  - now rewrite Hd.
  - rewrite Hx. now apply IH.
Qed.

Lemma update_first_fixed p l d :
  find p l = Some d -> update_first p d l = l.
Proof.
  induction l as [|x l IH]; simpl; [discriminate|].
  destruct (p x); intros Hf.
  - now inversion Hf.
  - now rewrite IH.
Qed.

Lemma find_update_first_other p q l d :
  p d = false ->
  (forall x, q x = true -> p x = false) ->
  find p (update_first q d l) = find p l.
Proof.
  intros Hd Hpq. induction l as [|x l IH]; simpl; [reflexivity|].
  destruct (q x) eqn:Hq; simpl.
  - now rewrite Hd, (Hpq x Hq).
  - now rewrite IH.
Qed.

Lemma find_update_first_none p l d :
  find p l = None -> update_first p d l = l.
Proof.
  induction l as [|x l IH]; simpl; [reflexivity|].
  destruct (p x); [discriminate|]. intros Hf. now rewrite IH.
Qed.

Lemma find_none_intro p l :
  (forall x, In x l -> p x = false) -> find p l = None.
Proof.
  induction l as [|x l IH]; simpl; intros Hall; [reflexivity|].
  rewrite (Hall x (or_introl eq_refl)). apply IH. intros y Hy.
  apply Hall. now right.
Qed.

End Lists.

Lemma find_fresh_user (s : Store) (u : User.t) :
  Forall (fun x => (User._id x < next_oid s)%N) (users s) ->
  User._id u = next_oid s ->
  find (user_has_id (User._id u)) (users s ++ [u]) = Some u.
Proof.
  intros Hall Hid. rewrite find_app_last.
  replace (find (user_has_id (User._id u)) (users s)) with (@None User.t).
  - unfold user_has_id. now rewrite N.eqb_refl.
  - symmetry. apply find_none_intro. intros x Hx.
    rewrite Forall_forall in Hall. specialize (Hall x Hx).
    unfold user_has_id. apply N.eqb_neq. lia.
Qed.

End ModelFacts.

(* ===================================================================== *)
(** ** The Reference Resolver                                             *)
(* ===================================================================== *)

Module ResolverFacts.
Import JsString Bson Schema Model Api Mcp Spec.

Section WithCaseConversion.
Context `{unicode : CaseConversion}.

(** The adapter's search over the serialised roles is the search over the
    stored roles. *)
Lemma find_role_map (input : string) (rs : list Role.t) :
  find_role (Some input) (map role_toJSON rs)
  = inr (option_map role_toJSON (find (name_matches input) rs)).
Proof.
  induction rs as [|r rs IH]; simpl; [reflexivity|].
  unfold name_matches at 1.
  destruct (String.eqb _ _); [reflexivity | exact IH].
Qed.

Lemma resolveRoleId_identifier (input : string) (w : World) :
  test_ObjectId_regex input = true ->
  resolveRoleId (Some input) w = (inr input, w).
Proof.
  intros Hre. unfold resolveRoleId, try_catch.
  change (show_opt (Some input)) with input.
  rewrite Hre. reflexivity.
Qed.

Lemma resolveRoleId_name (input : string) (w : World) :
  test_ObjectId_regex input = false -> api_up w = true ->
  resolveRoleId (Some input) w
  = (match find (name_matches input) (roles (store w)) with
     | Some r => inr (toHexString (Role._id r))
     | None =>
         inl (Error ("Failed to resolve role: Role '" ++ input
                     ++ "' not found"))
     end,
     after_request w (GET "/roles")).
Proof.
  intros Hre Hup. unfold resolveRoleId, try_catch, bind.
  change (show_opt (Some input)) with input.
  rewrite Hre. unfold axios. rewrite Hup.
  unfold Api.get_roles, Role_find, lift. rewrite find_role_map.
  unfold after_request. rewrite Hup.
  destruct (find (name_matches input) (roles (store w))); reflexivity.
Qed.

(** C4.  The Reference Resolver, on every input string: an input of
    exactly 24 hexadecimal digits is returned unchanged and no request is
    issued; any other input costs one fetch of the whole role collection,
    and the result is the identifier of the (first) role whose name equals
    the input up to case, or, when there is none, the error
    "Failed to resolve role: Role '<input>' not found", which carries the
    input. *)
Theorem resolveRoleId_spec (input : string) (w : World) :
  (test_ObjectId_regex input = true ->
   resolveRoleId (Some input) w = (inr input, w))
  /\ (test_ObjectId_regex input = false -> api_up w = true ->
      resolveRoleId (Some input) w
      = (match find (name_matches input) (roles (store w)) with
         | Some r => inr (toHexString (Role._id r))
         | None =>
             inl (Error ("Failed to resolve role: Role '" ++ input
                         ++ "' not found"))
         end,
         after_request w (GET "/roles"))).
Proof.
  split.
  - apply resolveRoleId_identifier.
  - apply resolveRoleId_name.
Qed.

End WithCaseConversion.

Import Examples.

Lemma resolveRoleId_spec_witness :
  resolveRoleId (Some "0123456789abcdefABCDEF01") Scenario.seeded_world
  = (inr "0123456789abcdefABCDEF01", Scenario.seeded_world)
  /\ resolveRoleId (Some "ADMIN") Scenario.seeded_world
     = (inr "000000000000000000000001",
        after_request Scenario.seeded_world (GET "/roles"))
  /\ resolveRoleId (Some "manager") Scenario.seeded_world
     = (inl (Error "Failed to resolve role: Role 'manager' not found"),
        after_request Scenario.seeded_world (GET "/roles")).
Proof.
  split; [|split].
  - exact (proj1 (resolveRoleId_spec (unicode := ascii_case) "0123456789abcdefABCDEF01"
                    Scenario.seeded_world) eq_refl).
  - exact (proj2 (resolveRoleId_spec (unicode := ascii_case) "ADMIN" Scenario.seeded_world)
             eq_refl eq_refl).
  - exact (proj2 (resolveRoleId_spec (unicode := ascii_case) "manager" Scenario.seeded_world)
             eq_refl eq_refl).
Defined.

End ResolverFacts.

(* ===================================================================== *)
(** ** The tool handlers                                                  *)
(* ===================================================================== *)

Module GatewayFacts.
Import JsString Bson Schema Model Api Mcp Spec.

Section WithCollaborators.
Context `{unicode : CaseConversion} `{SecretHasher} `{JsDate}.

(** C7.  [create_user] with a role argument that is a name (not of the
    identifier shape) matching no stored role: the tool answers with the
    failure text that carries the resolver's "Role '<name>' not found",
    the only request issued is the fetch of the roles, and the Store, so
    in particular the account collection, is exactly as before. *)
Theorem createUser_unknown_role (a : Args.t) (name : string) (w : World) :
  api_up w = true ->
  Args.role a = Some name ->
  test_ObjectId_regex name = false ->
  find (name_matches name) (roles (store w)) = None ->
  exists w',
    createUser (Some a) w
    = (inr (reply_text
              ("❌ Failed to create user: Failed to resolve role: Role '"
               ++ name ++ "' not found")), w')
    /\ store w' = store w
    /\ users (store w') = users (store w)
    /\ requests w' = (requests w ++ [GET "/roles"])%list.
Proof.
  intros Hup Hrole Hre Hfind.
  exists (after_request w (GET "/roles")).
  split; [|repeat split].
  unfold createUser, try_catch, bind, prop, ret at 1.
  rewrite Hrole, (ResolverFacts.resolveRoleId_name name w Hre Hup), Hfind.
  reflexivity.
Qed.

Lemma user_lines_null_role (users : list Json.User.t) (index : nat) :
  (exists u, In u users /\ Json.User.role u = Json.Populated None) ->
  user_lines index users = inl (cannot_read "null" "name").
Proof.
  revert index. induction users as [|u users IH]; intros index [x [Hin Hx]].
  - destruct Hin.
  - simpl. destruct Hin as [->|Hin].
    + now rewrite Hx.
    + rewrite (IH (S index)) by (exists x; now split).
      destruct (Json.User.role u) as [|[|]]; reflexivity.
Qed.

Lemma populate_dangling (s : Store) (u : User.t) :
  find (role_has_id (User.role u)) (roles s) = None ->
  Json.User.role (populated_without_password s u) = Json.Populated None.
Proof. intros Hf. simpl. unfold populate. now rewrite Hf. Qed.

(** [DELETE /api/roles/:id] does not look at the accounts: a stored role
    is deleted whether or not an account refers to it, and the accounts
    stay as they are. *)
Lemma delete_role_ignores_references (s : Store) (id : string)
  (oid : ObjectId) (r : Role.t) :
  castObjectId id = Some oid ->
  find (role_has_id oid) (roles s) = Some r ->
  delete_role id s
  = (Sent 200 "Role deleted successfully",
     with_roles s (remove_first (role_has_id oid) (roles s)))
  /\ users (snd (delete_role id s)) = users s.
Proof.
  intros Hid Hf. unfold delete_role, Role_findByIdAndDelete.
  rewrite Hid, Hf. now split.
Qed.

(** C10.  In a state where some stored account refers to a role that is
    not in the Store, the full-list form of [get_users] (no [id], or a
    falsy one) answers with the failure text: the populate step yields
    [null] for that account's role, and the list rendering reads [name]
    of it. *)
Theorem getUsers_dangling_role (a : Args.t) (w : World) (u : User.t) :
  api_up w = true ->
  truthy_opt (Args.id a) = false ->
  dangling (store w) u ->
  exists w',
    getUsers (Some a) w
    = (inr (reply_text
              "❌ Failed to retrieve users: Cannot read properties of null (reading 'name')"),
       w')
    /\ store w' = store w.
Proof.
  intros Hup Hid [Hin Hdang].
  exists (after_request w (GET "/users")). split; [|reflexivity].
  unfold getUsers, try_catch, bind, prop, ret at 1. rewrite Hid.
  unfold axios. rewrite Hup. unfold Api.get_users.
  set (views := map (populated_without_password (store w)) (users (store w))).
  assert (Hne : Nat.eqb (List.length views) 0 = false).
  { unfold views. rewrite length_map. destruct (users (store w)); [destruct Hin | reflexivity]. }
  rewrite Hne. unfold lift.
  rewrite (user_lines_null_role views 0).
  - unfold after_request. rewrite Hup. reflexivity.
  - exists (populated_without_password (store w) u). split.
    + unfold views. now apply in_map.
    + now apply populate_dangling.
Qed.

End WithCollaborators.

Import Examples.

Lemma createUser_unknown_role_witness :
  api_up Scenario.seeded_world = true
  /\ Args.role (Scenario.with_role Scenario.john "manager") = Some "manager"
  /\ test_ObjectId_regex "manager" = false
  /\ find (name_matches "manager") (roles (store Scenario.seeded_world)) = None
  /\ exists w',
       createUser (Some (Scenario.with_role Scenario.john "manager"))
         Scenario.seeded_world
       = (inr (reply_text
                 ("❌ Failed to create user: Failed to resolve role: Role '"
                  ++ "manager" ++ "' not found")), w')
       /\ store w' = store Scenario.seeded_world
       /\ users (store w') = users (store Scenario.seeded_world)
       /\ requests w'
          = (requests Scenario.seeded_world ++ [GET "/roles"])%list.
Proof.
  repeat (split; [reflexivity|]).
  apply (createUser_unknown_role (unicode := ascii_case)
           (Scenario.with_role Scenario.john "manager") "manager"
           Scenario.seeded_world); reflexivity.
Defined.

Lemma getUsers_dangling_role_witness :
  api_up Scenario.admin_role_deleted = true
  /\ truthy_opt (Args.id Args.empty) = false
  /\ dangling (store Scenario.admin_role_deleted)
       (new_user 3%N (seed_admin_user 1%N))
  /\ exists w',
       getUsers (Some Args.empty) Scenario.admin_role_deleted
       = (inr (reply_text
                 "❌ Failed to retrieve users: Cannot read properties of null (reading 'name')"),
          w')
       /\ store w' = store Scenario.admin_role_deleted.
Proof.
  assert (D : dangling (store Scenario.admin_role_deleted)
                (new_user 3%N (seed_admin_user 1%N))).
  { split; [left; reflexivity | reflexivity]. }
  repeat (split; [first [reflexivity | exact D]|]).
  apply (getUsers_dangling_role Args.empty Scenario.admin_role_deleted
           (new_user 3%N (seed_admin_user 1%N))); [reflexivity | reflexivity | exact D].
Defined.

(** [create_user] with an identifier-shaped role that no stored role has:
    the account is inserted, the populate step yields [null] for its role,
    and the rendering of the answer throws, so the tool reports the
    failure line although the account now exists. *)
Example createUser_dangling_identifier :
  let w := Scenario.seeded_world in
  let a := Scenario.with_role Scenario.john "aaaaaaaaaaaaaaaaaaaaaaaa" in
  fst (createUser (Some a) w)
  = inr (reply_text
           "❌ Failed to create user: Cannot read properties of null (reading 'name')")
  /\ List.length (users (store w)) = 1
  /\ List.length (users (store (snd (createUser (Some a) w)))) = 2.
Proof. repeat split. Qed.

End GatewayFacts.

(* ===================================================================== *)
(** ** The routes: creation                                               *)
(* ===================================================================== *)

Module CreateFacts.
Import JsString Bson Schema Model Api Spec TextFacts ModelFacts.

Lemma check_required_nil (path : string) (v : option string) :
  check_required path v = [] -> exists x, v = Some x /\ truthy x = true.
Proof.
  destruct v as [x|]; simpl; [|discriminate].
  destruct (truthy x) eqn:E; [|discriminate]. intros _. now exists x.
Qed.

Lemma first_failure_nil (a b : list violation) :
  first_failure a b = [] -> a = [] /\ b = [].
Proof. destruct a; simpl; [now split | discriminate]. Qed.

Section WithCollaborators.
Context `{unicode : CaseConversion} `{SecretHasher} `{JsDate}.

(** What a body that passes document validation looks like. *)
Lemma validate_user_nil (b : UserFields.t) :
  validate_user (user_setters b) = [] ->
  (exists x, UserFields.firstName b = Some x)
  /\ (exists x, UserFields.lastName b = Some x)
  /\ (exists x, UserFields.email b = Some x)
  /\ (exists x, UserFields.password b = Some x /\ 6 <= utf16_length x)
  /\ (exists x, option_map castObjectId (UserFields.role b) = Some (Some x)).
Proof.
  unfold validate_user. intros Hv.
  repeat (apply app_eq_nil in Hv; let H1 := fresh "V" in destruct Hv as [H1 Hv]).
  apply first_failure_nil in V2. destruct V2 as [V2 V2'].
  apply first_failure_nil in Hv. destruct Hv as [V4 V5].
  apply check_required_nil in V, V0, V1, V2.
  simpl in V, V0, V1, V2, V2', V4, V5.
  destruct V as [x [Hx _]], V0 as [y [Hy _]], V1 as [z [Hz _]],
           V2 as [p [Hp _]].
  repeat split.
  - destruct (UserFields.firstName b); [eauto | discriminate].
  - destruct (UserFields.lastName b); [eauto | discriminate].
  - destruct (UserFields.email b); [eauto | discriminate].
  - exists p. split; [exact Hp|]. rewrite Hp in V2'. simpl in V2'.
    destruct (Nat.ltb (utf16_length p) 6) eqn:E; [discriminate|].
    apply Nat.ltb_ge in E. exact E.
  - destruct (UserFields.role b) as [r|]; [|discriminate]. simpl in *.
    destruct (castObjectId r); [eauto | discriminate].
Qed.

Lemma User_save_ok (s : Store) (body : UserFields.t) :
  validate_user (user_setters body) = [] ->
  existsb (user_has_email (User.email (saved_user s body))) (users s) = false ->
  User_save s body
  = inr (saved_user s body, insert_user s (saved_user s body)).
Proof.
  intros Hv He. unfold User_save. rewrite Hv.
  fold (saved_user s body). now rewrite He.
Qed.

Lemma User_save_inv (s s' : Store) (body : UserFields.t) (doc : User.t) :
  User_save s body = inr (doc, s') ->
  validate_user (user_setters body) = []
  /\ existsb (user_has_email (User.email (saved_user s body))) (users s) = false
  /\ doc = saved_user s body /\ s' = insert_user s doc.
Proof.
  unfold User_save. fold (saved_user s body).
  destruct (validate_user (user_setters body)); [|discriminate].
  destruct (existsb _ _); [discriminate|].
  intros E. inversion E; subst. now repeat split.
Qed.

Lemma post_users_inv (s s' : Store) (body : UserFields.t) (st : nat)
  (data : option Json.User.t) :
  post_users body s = (Sent st data, s') ->
  User_save s body = inr (saved_user s body, s').
Proof.
  unfold post_users. destruct (User_save s body) as [e|[doc s1]] eqn:E.
  - destruct (error_code e) as [[|p]|];
      try discriminate;
      repeat (destruct p; try discriminate).
  - intros Hp. inversion Hp; subst.
    apply User_save_inv in E. destruct E as (_ & _ & -> & _). reflexivity.
Qed.

Lemma saved_user_id (s : Store) (body : UserFields.t) :
  User._id (saved_user s body) = next_oid s.
Proof. reflexivity. Qed.

Lemma saved_user_email (s : Store) (body : UserFields.t) (e : string) :
  UserFields.email body = Some e ->
  User.email (saved_user s body) = toLowerCase (trim e).
Proof. intros He. simpl. now rewrite He. Qed.

(** The pre-save hook ran: what is stored is the digest of the
    plaintext. *)
Lemma saved_user_password (s : Store) (body : UserFields.t) (p : string) :
  UserFields.password body = Some p ->
  User.password (saved_user s body) = bcrypt_hash p 10.
Proof. intros Hp. simpl. now rewrite Hp. Qed.

(** A created user can be read back by the identifier the route
    returned. *)
Lemma post_users_then_get (s : Store) (body : UserFields.t) :
  well_formed s ->
  validate_user (user_setters body) = [] ->
  existsb (user_has_email (User.email (saved_user s body))) (users s) = false ->
  let s' := insert_user s (saved_user s body) in
  let user := populated_without_password s' (saved_user s body) in
  post_users body s = (Sent 201 (Some user), s')
  /\ get_user (Json.User._id user) s' = (Sent 200 user, s').
Proof.
  intros (Hu & _ & Hb) Hv He s' user.
  assert (Hfind : find (user_has_id (next_oid s)) (users s') = Some (saved_user s body)).
  { apply (find_fresh_user s (saved_user s body) Hu (saved_user_id s body)). }
  split.
  - unfold post_users. rewrite (User_save_ok s body Hv He).
    rewrite saved_user_id. fold s'. now rewrite Hfind.
  - unfold get_user, User_findById.
    change (Json.User._id user) with (toHexString (next_oid s)).
    rewrite (BsonFacts.castObjectId_toHexString _ Hb). now rewrite Hfind.
Qed.

(** The Store invariant holds initially and survives a creation as long
    as identifiers remain. *)
Lemma well_formed_empty : well_formed empty_store.
Proof. repeat split; constructor. Qed.

Lemma post_users_well_formed (s s' : Store) (body : UserFields.t)
  (r : Reply (option Json.User.t)) :
  well_formed s ->
  (N.succ (next_oid s) < ObjectId_bound)%N ->
  post_users body s = (r, s') ->
  well_formed s'.
Proof.
  intros (Hu & Hr & Hb) Hnext. unfold post_users.
  destruct (User_save s body) as [e|[doc s1]] eqn:E.
  - destruct (error_code e) as [[|p]|]; intros Hp; inversion Hp; subst;
      try (now repeat split);
      repeat (destruct p; try (inversion Hp; subst; now repeat split)).
  - intros Hp. inversion Hp; subst. clear Hp.
    apply User_save_inv in E. destruct E as (_ & _ & -> & ->).
    unfold well_formed. cbn [insert_user users roles next_oid].
    split; [|split; [|exact Hnext]].
    + apply Forall_app. split.
      * eapply Forall_impl; [|exact Hu]. cbv beta. intros u Hlt. lia.
      * constructor; [|constructor]. rewrite saved_user_id. lia.
    + eapply Forall_impl; [|exact Hr]. cbv beta. intros x Hlt. lia.
Qed.


End WithCollaborators.

Import Examples.


End CreateFacts.

(* ===================================================================== *)
(** ** The routes: uniqueness                                             *)
(* ===================================================================== *)

Module DuplicateFacts.
Import JsString Bson Schema Model Api Spec ModelFacts CreateFacts Scenario.

Lemma post_roles_inv (s s' : Store) (body : RoleFields.t) (st : nat)
  (data : Json.Role.t) :
  post_roles body s = (Sent st data, s') ->
  s' = insert_role s (saved_role s body).
Proof.
  unfold post_roles, Role_save. fold (saved_role s body).
  destruct (validate_role (role_setters body)).
  - destruct (existsb _ _); simpl.
    + discriminate.
    + intros E. now inversion E.
  - simpl. discriminate.
Qed.

Lemma existsb_last {A : Type} (p : A -> bool) (l : list A) (d : A) :
  p d = true -> existsb p (l ++ [d]) = true.
Proof.
  intros Hd. rewrite existsb_app. simpl. rewrite Hd.
  now rewrite orb_true_r.
Qed.

Section WithCollaborators.
Context `{unicode : CaseConversion} `{SecretHasher} `{JsDate}.

Lemma post_users_taken (s : Store) (body : UserFields.t) :
  validate_user (user_setters body) = [] ->
  existsb (user_has_email (User.email (saved_user s body))) (users s) = true ->
  post_users body s = (Failed 400 "Email already exists", s).
Proof.
  intros Hv He. unfold post_users, User_save. rewrite Hv.
  fold (saved_user s body). now rewrite He.
Qed.

Lemma post_roles_taken (s : Store) (body : RoleFields.t) :
  validate_role (role_setters body) = [] ->
  existsb (role_has_name (Role.name (saved_role s body))) (roles s) = true ->
  post_roles body s = (Failed 400 "Role name already exists", s).
Proof.
  intros Hv He. unfold post_roles, Role_save. rewrite Hv.
  fold (saved_role s body). now rewrite He.
Qed.

(** C3.  Two creations in a row.  If the first account was created and
    the second body, valid by itself, gives an email that is the first
    one's once both are stripped and lowercased (so an email equal to the
    first up to case, whatever the letters), the second call is answered
    400 "Email already exists"; if the first role was created and the
    second body, valid by itself, gives the same name once both are
    stripped, the second call is answered 400 "Role name already exists".
    The message names the field and is not the Store's duplicate-key
    text.  In both cases the Store after the second call is the Store
    after the first, so the first entity is read back as it was. *)
Theorem second_create_is_duplicate :
  (forall (s s1 : Store) (b1 b2 : UserFields.t) (e1 e2 : string)
          (d1 : option Json.User.t),
      post_users b1 s = (Sent 201 d1, s1) ->
      UserFields.email b1 = Some e1 ->
      UserFields.email b2 = Some e2 ->
      toLowerCase (trim e2) = toLowerCase (trim e1) ->
      validate_user (user_setters b2) = [] ->
      post_users b2 s1 = (Failed 400 "Email already exists", s1)
      /\ forall id, get_user id (snd (post_users b2 s1)) = get_user id s1)
  /\ (forall (s s1 : Store) (b1 b2 : RoleFields.t) (n1 n2 : string)
             (r1 : Json.Role.t),
      post_roles b1 s = (Sent 201 r1, s1) ->
      RoleFields.name b1 = Some n1 ->
      RoleFields.name b2 = Some n2 ->
      trim n2 = trim n1 ->
      validate_role (role_setters b2) = [] ->
      post_roles b2 s1 = (Failed 400 "Role name already exists", s1)
      /\ forall id, get_role id (snd (post_roles b2 s1)) = get_role id s1).
Proof.
  split.
  - intros s s1 b1 b2 e1 e2 d1 Hfirst He1 He2 Hcase Hv.
    assert (Hsecond :
              post_users b2 s1 = (Failed 400 "Email already exists", s1)).
    { apply post_users_inv, User_save_inv in Hfirst.
      destruct Hfirst as (_ & _ & _ & ->).
      apply post_users_taken; [exact Hv|].
      rewrite (saved_user_email _ b2 e2 He2).
      apply existsb_last. unfold user_has_email.
      rewrite (saved_user_email s b1 e1 He1).
      apply String.eqb_eq. symmetry. exact Hcase. }
    split; [exact Hsecond|]. intros id. now rewrite Hsecond.
  - intros s s1 b1 b2 n1 n2 r1 Hfirst Hn1 Hn2 Hsame Hv.
    assert (Hsecond :
              post_roles b2 s1 = (Failed 400 "Role name already exists", s1)).
    { apply post_roles_inv in Hfirst. subst s1.
      apply post_roles_taken; [exact Hv|].
      apply existsb_last. unfold role_has_name. simpl.
      rewrite Hn1, Hn2. cbn [option_map from_opt]. rewrite Hsame.
      apply String.eqb_refl. }
    split; [exact Hsecond|]. intros id. now rewrite Hsecond.
Qed.

(** An email equal to the first up to case is the first one once both
    are stripped and lowercased. *)
Lemma same_up_to_case (e1 e2 : string) :
  toLowerCase e2 = toLowerCase e1 ->
  toLowerCase (trim e2) = toLowerCase (trim e1).
Proof. intros E. symmetry. now apply JsStringFacts.normalised_email_eq. Qed.

End WithCollaborators.

Import Examples.

Lemma second_create_is_duplicate_witness :
  let s := Mcp.store Scenario.seeded_world in
  let first := john_body "JOHN@X.COM" in
  let second := john_body " john@x.com " in
  let first_role := role_named "editor" "Content editor" in
  let second_role := role_named (no_break_space ++ "editor ") "Another" in
  let s1 := snd (post_users first s) in
  let t1 := snd (post_roles first_role s) in
  (exists d1, post_users first s = (Sent 201 d1, s1))
  /\ toLowerCase (trim " john@x.com ") = toLowerCase (trim "JOHN@X.COM")
  /\ validate_user (user_setters second) = []
  /\ post_users second s1 = (Failed 400 "Email already exists", s1)
  /\ get_user "000000000000000000000004" (snd (post_users second s1))
     = get_user "000000000000000000000004" s1
  /\ (exists r1, post_roles first_role s = (Sent 201 r1, t1))
  /\ trim (no_break_space ++ "editor ") = trim "editor"
  /\ validate_role (role_setters second_role) = []
  /\ post_roles second_role t1
     = (Failed 400 "Role name already exists", t1).
Proof.
  intros s first second first_role second_role s1 t1.
  assert (First : exists d1, post_users first s = (Sent 201 d1, s1))
    by (eexists; cbv; reflexivity).
  assert (Same : toLowerCase (trim " john@x.com ")
                 = toLowerCase (trim "JOHN@X.COM"))
    by (vm_compute; reflexivity).
  assert (Valid : validate_user (user_setters second) = [])
    by (vm_compute; reflexivity).
  assert (FirstRole : exists r1, post_roles first_role s = (Sent 201 r1, t1))
    by (eexists; cbv; reflexivity).
  assert (SameRole : trim (no_break_space ++ "editor ") = trim "editor")
    by (vm_compute; reflexivity).
  assert (ValidRole : validate_role (role_setters second_role) = [])
    by (vm_compute; reflexivity).
  split; [exact First|]. split; [exact Same|]. split; [exact Valid|].
  destruct First as [d1 First]. destruct FirstRole as [r1 FirstRole].
  destruct (proj1 (second_create_is_duplicate (unicode := ascii_case))
              s s1 first second "JOHN@X.COM" " john@x.com " d1
              First eq_refl eq_refl Same Valid)
    as [Second Read].
  destruct (proj2 (second_create_is_duplicate (unicode := ascii_case))
              s t1 first_role second_role
              "editor" (no_break_space ++ "editor ") r1
              FirstRole eq_refl eq_refl SameRole ValidRole)
    as [SecondRole _].
  split; [exact Second|]. split; [apply Read|].
  split; [eexists; exact FirstRole|]. split; [exact SameRole|].
  split; [exact ValidRole | exact SecondRole].
Defined.

End DuplicateFacts.

(* ===================================================================== *)
(** ** The seed route                                                     *)
(* ===================================================================== *)

Module SeedFacts.
Import JsString Bson Schema Model Api Spec ModelFacts Scenario.

Lemma with_roles_same (s : Store) : with_roles s (roles s) = s.
Proof. now destruct s. Qed.

Lemma with_users_same (s : Store) : with_users s (users s) = s.
Proof. now destruct s. Qed.

Lemma role_has_name_eq (n : string) (r : Role.t) :
  role_has_name n r = true -> Role.name r = n.
Proof. apply String.eqb_eq. Qed.

Lemma user_has_email_eq (e : string) (u : User.t) :
  user_has_email e u = true -> User.email u = e.
Proof. apply String.eqb_eq. Qed.

Lemma role_names_apart (n m : string) :
  n <> m -> forall r, role_has_name n r = true -> role_has_name m r = false.
Proof.
  intros Hnm r Hn. apply role_has_name_eq in Hn.
  unfold role_has_name. apply String.eqb_neq. congruence.
Qed.

(** *** Upsert of a role whose update supplies every path *)

Lemma role_upsert_correct (s : Store) (name : string) (b : RoleFields.t) :
  full_role_update name b ->
  Role_findOneAndUpdate_upsert s name b = inr (role_upsert s name b).
Proof.
  intros (Ht & Hn & [d Hd] & [ps Hps] & [a Ha]).
  unfold Role_findOneAndUpdate_upsert, role_upsert. rewrite Ht.
  destruct (find (role_has_name name) (roles s)) as [old|] eqn:Hf.
  - assert (Hdoc : apply_role_update old (role_setters b)
                   = new_role (Role._id old) (role_setters b)).
    { unfold apply_role_update, new_role. simpl in *.
      now rewrite Hn, Hd, Hps, Ha. }
    rewrite Hdoc. unfold write_role.
    assert (Hname : Role.name (new_role (Role._id old) (role_setters b)) = name).
    { unfold new_role. cbn [Role.name]. now rewrite Hn. }
    rewrite Hname.
    apply find_some in Hf. destruct Hf as [_ Hold].
    apply role_has_name_eq in Hold. rewrite Hold, String.eqb_refl.
    reflexivity.
  - rewrite Hn. cbn [from_opt].
    replace {| RoleFields.name := Some name;
               RoleFields.description :=
                 RoleFields.description (role_setters b);
               RoleFields.permissions :=
                 RoleFields.permissions (role_setters b);
               RoleFields.isActive := RoleFields.isActive (role_setters b) |}
      with (role_setters b)
      by (destruct (role_setters b); simpl in *; now rewrite Hn).
    assert (Hname : Role.name (new_role (next_oid s) (role_setters b)) = name).
    { unfold new_role. cbn [Role.name]. now rewrite Hn. }
    rewrite Hname, existsb_find, Hf. reflexivity.
Qed.

Section RoleUpsert.
Variables (s : Store) (name : string) (b : RoleFields.t).
Hypothesis Hfull : full_role_update name b.

Let doc := fst (role_upsert s name b).
Let s' := snd (role_upsert s name b).

Lemma role_upsert_name : Role.name doc = name.
Proof.
  destruct Hfull as (_ & Hn & _).
  unfold doc, role_upsert.
  destruct (find _ _); cbn [fst new_role Role.name]; now rewrite Hn.
Qed.

Lemma role_upsert_canonical : doc = new_role (Role._id doc) (role_setters b).
Proof. unfold doc, role_upsert. destruct (find _ _); reflexivity. Qed.

Lemma role_upsert_found : find (role_has_name name) (roles s') = Some doc.
Proof.
  assert (Hp : role_has_name name doc = true).
  { unfold role_has_name. rewrite role_upsert_name. apply String.eqb_refl. }
  revert Hp. unfold doc, s', role_upsert.
  destruct (find (role_has_name name) (roles s)) as [old|] eqn:Hf;
    cbn [fst snd]; intros Hp.
  - cbn [with_roles roles]. now apply (find_update_first_same _ _ _ old).
  - cbn [insert_role roles]. rewrite find_app_last, Hf. now rewrite Hp.
Qed.

Lemma role_upsert_other (m : string) :
  name <> m ->
  find (role_has_name m) (roles s') = find (role_has_name m) (roles s).
Proof.
  intros Hnm.
  assert (Hp : role_has_name m doc = false).
  { unfold role_has_name. rewrite role_upsert_name.
    now apply String.eqb_neq. }
  revert Hp. unfold doc, s', role_upsert.
  destruct (find (role_has_name name) (roles s)) as [old|] eqn:Hf;
    cbn [fst snd]; intros Hp.
  - cbn [with_roles roles]. apply find_update_first_other; [exact Hp|].
    now apply role_names_apart.
  - cbn [insert_role roles]. rewrite find_app_last, Hp.
    now destruct (find (role_has_name m) (roles s)).
Qed.

Lemma role_upsert_users : users s' = users s.
Proof. unfold s', role_upsert. now destruct (find _ _). Qed.

End RoleUpsert.

(** A second upsert with the same update finds the document of the first
    and leaves the Store as it is. *)
Lemma role_upsert_again (s : Store) (name : string) (b : RoleFields.t)
  (doc : Role.t) :
  find (role_has_name name) (roles s) = Some doc ->
  doc = new_role (Role._id doc) (role_setters b) ->
  role_upsert s name b = (doc, s).
Proof.
  intros Hf Hdoc. unfold role_upsert. rewrite Hf. cbn zeta.
  rewrite <- Hdoc. rewrite (update_first_fixed _ _ _ Hf).
  now rewrite with_roles_same.
Qed.

(** *** Upsert of the seeded account *)

Section WithCollaborators.
Context `{unicode : CaseConversion} `{SecretHasher} `{JsDate}.

Lemma user_upsert_correct (s : Store) (rid : ObjectId) :
  User_findOneAndUpdate_upsert s admin_email (seed_admin_user rid)
  = inr (user_upsert s rid).
Proof.
  assert (Hemail : toLowerCase (trim admin_email) = admin_email).
  { change (trim admin_email) with admin_email.
    now rewrite toLowerCase_on_ascii. }
  assert (Hset : user_update_setters (seed_admin_user rid)
                 = seed_admin_user rid).
  { unfold user_update_setters, seed_admin_user.
    cbn [UserUpdate.firstName UserUpdate.lastName UserUpdate.email
         UserUpdate.password UserUpdate.phone UserUpdate.dateOfBirth
         UserUpdate.role UserUpdate.isActive option_map].
    fold admin_email. rewrite Hemail. reflexivity. }
  unfold User_findOneAndUpdate_upsert, user_upsert.
  rewrite Hemail, Hset.
  destruct (find (user_has_email admin_email) (users s)) as [old|] eqn:Hf.
  - unfold write_user.
    change (User.email (apply_user_update old (seed_admin_user rid)))
      with admin_email.
    apply find_some in Hf. destruct Hf as [_ Hold].
    apply user_has_email_eq in Hold. rewrite Hold, String.eqb_refl.
    reflexivity.
  - cbn [from_opt UserUpdate.email UserUpdate.firstName UserUpdate.lastName
         UserUpdate.password UserUpdate.phone UserUpdate.dateOfBirth
         UserUpdate.role UserUpdate.isActive seed_admin_user].
    fold (seed_admin_user rid).
    change (User.email (new_user (next_oid s) (seed_admin_user rid)))
      with admin_email.
    rewrite existsb_find, Hf. reflexivity.
Qed.

End WithCollaborators.

Lemma user_upsert_found (s : Store) (rid : ObjectId) :
  find (user_has_email admin_email) (users (snd (user_upsert s rid)))
  = Some (fst (user_upsert s rid)).
Proof.
  unfold user_upsert.
  destruct (find (user_has_email admin_email) (users s)) as [old|] eqn:Hf;
    cbn [fst snd].
  - cbn [with_users users].
    now apply (find_update_first_same _ _ _ old).
  - cbn [insert_user users]. rewrite find_app_last, Hf. reflexivity.
Qed.

Lemma user_upsert_roles (s : Store) (rid : ObjectId) :
  roles (snd (user_upsert s rid)) = roles s.
Proof. unfold user_upsert. now destruct (find _ _). Qed.

Lemma user_upsert_settled (s : Store) (rid : ObjectId) :
  apply_user_update (fst (user_upsert s rid)) (seed_admin_user rid)
  = fst (user_upsert s rid).
Proof. unfold user_upsert. now destruct (find _ _). Qed.

Lemma user_upsert_again (s : Store) (rid : ObjectId) (doc : User.t) :
  find (user_has_email admin_email) (users s) = Some doc ->
  apply_user_update doc (seed_admin_user rid) = doc ->
  user_upsert s rid = (doc, s).
Proof.
  intros Hf Hdoc. unfold user_upsert. rewrite Hf. cbn zeta.
  rewrite Hdoc, (update_first_fixed _ _ _ Hf).
  now rewrite with_users_same.
Qed.

Lemma role_upsert_kept (s : Store) (name : string) (b : RoleFields.t)
  (old : Role.t) :
  find (role_has_name name) (roles s) = Some old ->
  Role._id (fst (role_upsert s name b)) = Role._id old.
Proof. intros Hf. unfold role_upsert. now rewrite Hf. Qed.

Lemma user_upsert_fields (s : Store) (rid : ObjectId) :
  let adminUser := fst (user_upsert s rid) in
  (User.firstName adminUser, User.lastName adminUser,
   User.email adminUser, User.phone adminUser, User.role adminUser,
   User.isActive adminUser)
  = ("Admin", "User", admin_email, Some "+1234567890", rid, true)
  /\ User.password adminUser = "admin123".
Proof. unfold user_upsert. now destruct (find _ _). Qed.

Lemma user_upsert_kept (s : Store) (rid : ObjectId) (old : User.t) :
  find (user_has_email admin_email) (users s) = Some old ->
  User._id (fst (user_upsert s rid)) = User._id old
  /\ User.dateOfBirth (fst (user_upsert s rid)) = User.dateOfBirth old.
Proof. intros Hf. unfold user_upsert. now rewrite Hf. Qed.

(** *** The three upserts together *)

Lemma admin_role_full : full_role_update "admin" seed_admin_role.
Proof. repeat split; eexists; reflexivity. Qed.

Lemma user_role_full : full_role_update "user" seed_user_role.
Proof. repeat split; eexists; reflexivity. Qed.

Section WithCollaborators.
Context `{unicode : CaseConversion} `{SecretHasher} `{JsDate}.

Lemma post_seed_correct (s : Store) :
  post_seed s
  = (let '(adminRole, userRole, adminUser, s3) := seeded s in
     (seed_answer adminRole userRole adminUser, s3)).
Proof.
  unfold post_seed, seeded.
  rewrite (role_upsert_correct s _ _ admin_role_full).
  destruct (role_upsert s "admin" seed_admin_role) as [adminRole s1].
  rewrite (role_upsert_correct s1 _ _ user_role_full).
  destruct (role_upsert s1 "user" seed_user_role) as [userRole s2].
  fold admin_email. rewrite user_upsert_correct.
  destruct (user_upsert s2 (Role._id adminRole)) as [adminUser s3].
  reflexivity.
Qed.

End WithCollaborators.

(** Seeding a seeded Store changes nothing and produces the same
    entities. *)
Lemma seeded_again (s : Store) :
  let '(adminRole, userRole, adminUser, s3) := seeded s in
  seeded s3 = (adminRole, userRole, adminUser, s3).
Proof.
  unfold seeded at 1.
  pose proof (role_upsert_found s _ _ admin_role_full) as Ha.
  pose proof (role_upsert_canonical s "admin" seed_admin_role) as Hca.
  destruct (role_upsert s "admin" seed_admin_role) as [adminRole s1].
  pose proof (role_upsert_found s1 _ _ user_role_full) as Hu.
  pose proof (role_upsert_canonical s1 "user" seed_user_role) as Hcu.
  assert (Hne : "user" <> "admin") by discriminate.
  pose proof (role_upsert_other s1 _ _ user_role_full "admin" Hne) as Ho.
  destruct (role_upsert s1 "user" seed_user_role) as [userRole s2].
  pose proof (user_upsert_found s2 (Role._id adminRole)) as Hf.
  pose proof (user_upsert_roles s2 (Role._id adminRole)) as Hr.
  pose proof (user_upsert_settled s2 (Role._id adminRole)) as Hs.
  destruct (user_upsert s2 (Role._id adminRole)) as [adminUser s3].
  cbn [fst snd] in *.
  unfold seeded.
  rewrite (role_upsert_again s3 "admin" seed_admin_role adminRole);
    [| rewrite Hr, Ho; exact Ha | exact Hca].
  rewrite (role_upsert_again s3 "user" seed_user_role userRole);
    [| rewrite Hr; exact Hu | exact Hcu].
  now rewrite (user_upsert_again s3 (Role._id adminRole) adminUser Hf Hs).
Qed.

Lemma seeded_found (s : Store) :
  let '(adminRole, userRole, adminUser, s3) := seeded s in
  find (role_has_name "admin") (roles s3) = Some adminRole
  /\ find (role_has_name "user") (roles s3) = Some userRole
  /\ find (user_has_email admin_email) (users s3) = Some adminUser.
Proof.
  unfold seeded.
  pose proof (role_upsert_found s _ _ admin_role_full) as Ha.
  destruct (role_upsert s "admin" seed_admin_role) as [adminRole s1].
  pose proof (role_upsert_found s1 _ _ user_role_full) as Hu.
  assert (Hne : "user" <> "admin") by discriminate.
  pose proof (role_upsert_other s1 _ _ user_role_full "admin" Hne) as Ho.
  destruct (role_upsert s1 "user" seed_user_role) as [userRole s2].
  pose proof (user_upsert_found s2 (Role._id adminRole)) as Hf.
  pose proof (user_upsert_roles s2 (Role._id adminRole)) as Hr.
  destruct (user_upsert s2 (Role._id adminRole)) as [adminUser s3].
  cbn [fst snd] in *. rewrite Hr, Ho. now repeat split.
Qed.

(** The seeded entities against what was stored before: an entity found
    by its key keeps its identifier, and the account keeps its date of
    birth; the other paths are the ones the seed supplies. *)
Lemma seeded_fields (s : Store) :
  let '(adminRole, userRole, adminUser, s3) := seeded s in
  adminRole = new_role (Role._id adminRole) seed_admin_role
  /\ userRole = new_role (Role._id userRole) seed_user_role
  /\ (User.firstName adminUser, User.lastName adminUser,
      User.email adminUser, User.phone adminUser, User.role adminUser,
      User.isActive adminUser)
     = ("Admin", "User", admin_email, Some "+1234567890",
        Role._id adminRole, true)
  /\ User.password adminUser = "admin123"
  /\ (forall old, find (role_has_name "admin") (roles s) = Some old ->
                  Role._id adminRole = Role._id old)
  /\ (forall old, find (role_has_name "user") (roles s) = Some old ->
                  Role._id userRole = Role._id old)
  /\ (forall old, find (user_has_email admin_email) (users s) = Some old ->
                  User._id adminUser = User._id old
                  /\ User.dateOfBirth adminUser = User.dateOfBirth old).
Proof.
  unfold seeded.
  assert (Hne : "admin" <> "user") by discriminate.
  pose proof (role_upsert_canonical s "admin" seed_admin_role) as Ca.
  pose proof (role_upsert_kept s "admin" seed_admin_role) as Ka.
  pose proof (role_upsert_other s _ _ admin_role_full "user" Hne) as Oa.
  pose proof (role_upsert_users s "admin" seed_admin_role) as Ua.
  destruct (role_upsert s "admin" seed_admin_role) as [adminRole s1].
  pose proof (role_upsert_canonical s1 "user" seed_user_role) as Cu.
  pose proof (role_upsert_kept s1 "user" seed_user_role) as Ku.
  pose proof (role_upsert_users s1 "user" seed_user_role) as Uu.
  destruct (role_upsert s1 "user" seed_user_role) as [userRole s2].
  pose proof (user_upsert_fields s2 (Role._id adminRole)) as Fx.
  pose proof (user_upsert_kept s2 (Role._id adminRole)) as Kx.
  destruct (user_upsert s2 (Role._id adminRole)) as [adminUser s3].
  cbn [fst snd] in *. destruct Fx as [Fx Px].
  rewrite Oa in Ku. rewrite Uu, Ua in Kx.
  split; [exact Ca|]. split; [exact Cu|]. split; [exact Fx|].
  split; [exact Px|]. split; [exact Ka|]. split; [exact Ku | exact Kx].
Qed.

Section WithCollaborators.
Context `{unicode : CaseConversion} `{SecretHasher} `{JsDate}.

(** C5, as the code has it.  [POST /api/seed] always succeeds, and a
    second seed right after the first returns the same answer, so the same
    two role identifiers and the same account identifier, and leaves the
    Store as the first left it.  Each upsert is by natural key: a role
    found by name, or the account found by email, keeps its identifier,
    and otherwise the entity is created; afterwards the entity is found by
    its key.  The paths the seed supplies are overwritten with the
    canonical values: all paths of a role, and [firstName], [lastName],
    [phone], [role] and [isActive] of the account.  The account's
    [dateOfBirth], which the seed does not supply, keeps its stored
    value. *)
Theorem seed_twice (s : Store) :
  exists (adminRole userRole : Role.t) (adminUser : User.t) (s' : Store),
    post_seed s = (seed_answer adminRole userRole adminUser, s')
    /\ post_seed s' = (seed_answer adminRole userRole adminUser, s')
    /\ (find (role_has_name "admin") (roles s') = Some adminRole
        /\ find (role_has_name "user") (roles s') = Some userRole
        /\ find (user_has_email admin_email) (users s') = Some adminUser)
    /\ adminRole = new_role (Role._id adminRole) seed_admin_role
    /\ userRole = new_role (Role._id userRole) seed_user_role
    /\ (User.firstName adminUser, User.lastName adminUser,
        User.email adminUser, User.phone adminUser, User.role adminUser,
        User.isActive adminUser)
       = ("Admin", "User", admin_email, Some "+1234567890",
          Role._id adminRole, true)
    /\ (forall old, find (role_has_name "admin") (roles s) = Some old ->
                    Role._id adminRole = Role._id old)
    /\ (forall old, find (role_has_name "user") (roles s) = Some old ->
                    Role._id userRole = Role._id old)
    /\ (forall old, find (user_has_email admin_email) (users s) = Some old ->
                    User._id adminUser = User._id old
                    /\ User.dateOfBirth adminUser = User.dateOfBirth old).
Proof.
  pose proof (post_seed_correct s) as H1.
  pose proof (seeded_again s) as H2.
  pose proof (seeded_found s) as H3.
  pose proof (seeded_fields s) as H4.
  destruct (seeded s) as [[[adminRole userRole] adminUser] s'].
  exists adminRole, userRole, adminUser, s'.
  split; [exact H1|]. split.
  - rewrite post_seed_correct, H2. reflexivity.
  - split; [exact H3|].
    destruct H4 as (A & B & C & _ & D & E & F).
    split; [exact A|]. split; [exact B|]. split; [exact C|].
    split; [exact D|]. split; [exact E | exact F].
Qed.

(** C1 at the seed route.  Whatever the Store, the account that
    [POST /api/seed] writes holds the password "admin123" as it is: the
    stored string is not the bcrypt digest of it, and the answer of the
    route shows it under the [password] key. *)
Theorem seed_stores_plaintext_password (s : Store) :
  exists (adminRole userRole : Role.t) (adminUser : User.t) (s' : Store),
    post_seed s = (seed_answer adminRole userRole adminUser, s')
    /\ In adminUser (users s')
    /\ User.password adminUser = "admin123"
    /\ User.password adminUser <> bcrypt_hash "admin123" 10
    /\ map Json.User.password
         (match seed_answer adminRole userRole adminUser with
          | Sent _ data => Json.Seed.users data
          | Failed _ _ => []
          end)
       = [Some "admin123"].
Proof.
  pose proof (post_seed_correct s) as H1.
  pose proof (seeded_found s) as H3.
  pose proof (seeded_fields s) as H4.
  destruct (seeded s) as [[[adminRole userRole] adminUser] s'].
  exists adminRole, userRole, adminUser, s'.
  destruct H3 as (_ & _ & Hf). destruct H4 as (_ & _ & _ & Hp & _).
  split; [exact H1|]. split; [now apply find_some in Hf|].
  split; [exact Hp|]. split.
  - rewrite Hp. intros E.
    pose proof (bcrypt_hash_length "admin123" 10) as L.
    rewrite <- E in L. discriminate L.
  - simpl. now rewrite Hp.
Qed.

End WithCollaborators.

Import Examples.

(** On [store_with_birthday] the seed leaves the date of birth in place:
    the account is not the canonical one. *)
Lemma seed_keeps_dateOfBirth : ~ seed_overwrites_all_fields.
Proof.
  intros Hall.
  pose proof (post_seed_correct store_with_birthday) as E.
  destruct (seeded store_with_birthday) as [[[a u] x] s'] eqn:S.
  apply Hall in E.
  vm_compute in S. injection S as Sa Su Sx Ss. subst x.
  apply (f_equal User.dateOfBirth) in E.
  discriminate E.
Qed.

Lemma seed_twice_witness :
  exists (adminRole userRole : Role.t) (adminUser : User.t) (s' : Store),
    post_seed empty_store = (seed_answer adminRole userRole adminUser, s')
    /\ post_seed s' = (seed_answer adminRole userRole adminUser, s').
Proof.
  destruct (seed_twice (unicode := ascii_case) empty_store)
    as (a & u & x & s' & H1 & H2 & _).
  exists a, u, x, s'. split; [exact H1 | exact H2].
Defined.

End SeedFacts.

(* ===================================================================== *)
(** ** The routes: update                                                 *)
(* ===================================================================== *)

Module UpdateFacts.
Import JsString Bson Schema Model Api Spec ModelFacts Scenario.

(** A digest of 60 bytes has at least 20 code units, whatever its
    bytes. *)
Lemma digest_passes (h : string) :
  String.length h = 60 ->
  truthy h = true /\ Nat.ltb (utf16_length h) 6 = false.
Proof.
  intros L. split.
  - destruct h; [discriminate L | reflexivity].
  - pose proof (TextFacts.utf16_length_bounds h) as [_ B].
    apply Nat.ltb_ge. lia.
Qed.

Section WithCollaborators.
Context `{unicode : CaseConversion} `{SecretHasher} `{JsDate}.

(** C6 at the update route.  [PUT /api/users/:id] on a stored account,
    with a body that sets a non-empty password of any length, so also one
    shorter than 6 characters: the route hashes the password first, the
    update validators then see the 60-character digest, and the update is
    accepted; the account's password becomes the digest. *)
Theorem put_user_accepts_short_password (s : Store) (id : string)
  (oid : ObjectId) (old : User.t) (p : string) :
  castObjectId id = Some oid ->
  find (user_has_id oid) (users s) = Some old ->
  truthy p = true ->
  let doc := set_password old (bcrypt_hash p 10) in
  let s' := with_users s (update_first (user_has_id oid) doc (users s)) in
  put_user id (password_only p) s
  = (Sent 200 (populated_without_password s' doc), s').
Proof.
  intros Hid Hfind Hp doc s'.
  destruct (digest_passes _ (bcrypt_hash_length p 10)) as [Ht Hl].
  unfold put_user, hash_body_password. cbn [password_only UserFields.password
    truthy_opt]. rewrite Hp. cbn [option_map].
  unfold User_findByIdAndUpdate. rewrite Hid.
  cbn [check_role_cast check_date_cast UserFields.role UserFields.dateOfBirth
       app].
  unfold update_validate_user, user_setters.
  cbn [UserFields.firstName UserFields.lastName UserFields.email
       UserFields.password option_map check_present app check_required
       check_minlength first_failure].
  rewrite Ht, Hl. cbn [first_failure]. rewrite Hfind.
  unfold write_user.
  change (User.email (apply_user_update old _)) with (User.email old).
  rewrite String.eqb_refl. cbn [negb andb].
  reflexivity.
Qed.

(** On creation the length rule is applied to the plaintext: a password
    shorter than 6 characters is refused and nothing is stored. *)
Lemma post_users_refuses_short_password (s : Store) (body : UserFields.t)
  (p : string) :
  UserFields.password body = Some p ->
  utf16_length p < 6 ->
  exists error, post_users body s = (Failed 400 error, s).
Proof.
  intros Hp Hlen. unfold post_users, User_save.
  assert (Hpw : first_failure (check_required "password" (Some p))
                  (check_minlength "password" 6 (Some p)) <> []).
  { unfold check_required, check_minlength.
    apply Nat.ltb_lt in Hlen. rewrite Hlen.
    destruct (truthy p); discriminate. }
  assert (Hv : validate_user (user_setters body) <> []).
  { unfold validate_user. cbn [user_setters UserFields.password].
    rewrite Hp. intros E.
    do 3 (apply app_eq_nil in E; destruct E as [_ E]).
    apply app_eq_nil in E. destruct E as [E _]. now apply Hpw. }
  destruct (validate_user (user_setters body)); [congruence|].
  eexists. reflexivity.
Qed.



End WithCollaborators.

Import Examples.

Lemma put_user_accepts_short_password_witness :
  let s := Mcp.store Scenario.seeded_world in
  let old := new_user 3%N (seed_admin_user 1%N) in
  let doc := set_password old (bcrypt_hash "abc" 10) in
  castObjectId "000000000000000000000003" = Some 3%N
  /\ find (user_has_id 3%N) (users s) = Some old
  /\ truthy "abc" = true
  /\ utf16_length "abc" < 6
  /\ put_user "000000000000000000000003" (password_only "abc") s
     = (Sent 200
          (populated_without_password
             (with_users s (update_first (user_has_id 3%N) doc (users s)))
             doc),
        with_users s (update_first (user_has_id 3%N) doc (users s))).
Proof.
  intros s old doc.
  split; [reflexivity|]. split; [reflexivity|]. split; [reflexivity|].
  split; [repeat constructor|].
  apply (put_user_accepts_short_password (unicode := ascii_case) s "000000000000000000000003"
           3%N old "abc"); reflexivity.
Defined.



End UpdateFacts.

(* ===================================================================== *)
(** ** The envelope of every tool                                         *)
(* ===================================================================== *)

Module EnvelopeFacts.
Import JsString Bson Schema Model Api Mcp Spec.


(** *** Inversion of the monadic combinators *)













Section WithCollaborators.
Context `{unicode : CaseConversion} `{SecretHasher} `{JsDate}.












(** A server error string is what the failure text carries. *)
Lemma errorMessage_of_response (m e : string) :
  truthy e = true -> errorMessage (AxiosError m (Some (Some e))) = e.
Proof. intros He. simpl. now rewrite He. Qed.

(** A name outside the nine tools is answered by a thrown [McpError]. *)
Lemma CallTool_unknown (args : option Args.t) (w : World) :
  CallTool "drop_database" args w
  = (inl (McpError MethodNotFound "Unknown tool: drop_database"), w).
Proof. reflexivity. Qed.

(** An error answer of a route, met by the first request of a [try]
    block, is caught and its [error] string is what the tool returns. *)
Lemma repository_error_rendered {A : Type} (t : Tool) (request : Request)
  (route : Route A) (k : A -> Js ToolResult) (w : World) (status : nat)
  (error : string) (s' : Store) :
  api_up w = true ->
  route (store w) = (Failed status error, s') ->
  truthy error = true ->
  try_catch (x <- axios request route ;; k x) (render_failure t) w
  = (inr (reply_text (failure_prefix t ++ error)),
     {| api_up := true; store := s';
        requests := (requests w ++ [request])%list |}).
Proof.
  intros Hup Hroute He. unfold try_catch, bind, axios.
  rewrite Hup, Hroute. unfold render_failure, ret.
  now rewrite (errorMessage_of_response _ error He).
Qed.


End WithCollaborators.

Import Examples.


End EnvelopeFacts.

(* ===================================================================== *)
(** ** Normal forms of names and emails                                   *)
(* ===================================================================== *)

Module NormalFormFacts.
Import JsString App Observe TextFacts JsStringFacts.

Section WithCaseConversion.
Context `{unicode : CaseConversion}.

Lemma toLowerCase_idempotent (s : string) :
  toLowerCase (toLowerCase s) = toLowerCase s.
Proof. apply toLowerCase_twice. Qed.

(** What the setter of a trimmed path produces is trimmed, and what the
    setters of [email] produce is normalised. *)
Lemma trim_trimmed (s : string) : trimmed (trim s).
Proof. apply trim_idempotent. Qed.

Lemma email_setters_normalised (e : string) :
  normalised (toLowerCase (trim e)).
Proof.
  unfold normalised.
  now rewrite (trim_toLowerCase (trim e)), trim_idempotent,
    toLowerCase_idempotent.
Qed.

Lemma normalised_empty : normalised "".
Proof.
  unfold normalised. change (trim "") with "".
  now rewrite toLowerCase_on_ascii.
Qed.

(** A normalised email equal to an input up to case is what the setters
    make of the input. *)
Lemma normalised_matches (stored input : string) :
  normalised stored ->
  toLowerCase input = toLowerCase stored ->
  toLowerCase (trim input) = stored.
Proof.
  intros Hn Hcase. rewrite (normalised_email_eq _ _ Hcase). exact Hn.
Qed.

End WithCaseConversion.

End NormalFormFacts.

(* ===================================================================== *)
(** ** Lists with a key                                                   *)
(* ===================================================================== *)

Module KeyedLists.
Import Model.

Section Keyed.
Context {A K : Type} (key : A -> K).
Implicit Types (p : A -> bool) (l : list A) (d : A).

Lemma in_map_update_first p l d k :
  In k (map key (update_first p d l)) -> k = key d \/ In k (map key l).
Proof.
  induction l as [|x l IH]; simpl; [tauto|].
  destruct (p x); simpl.
  - intros [E|E]; [left; congruence | right; now right].
  - intros [E|E]; [right; now left|].
    destruct (IH E) as [E'|E']; [now left | right; now right].
Qed.

Lemma in_map_remove_first p l k :
  In k (map key (remove_first p l)) -> In k (map key l).
Proof.
  induction l as [|x l IH]; simpl; [tauto|].
  destruct (p x); simpl; [now right|].
  intros [E|E]; [now left | right; now apply IH].
Qed.

Lemma map_update_first_same p l d old :
  find p l = Some old -> key d = key old ->
  map key (update_first p d l) = map key l.
Proof.
  intros Hf Hk. induction l as [|x l IH]; simpl in *; [discriminate|].
  destruct (p x); simpl.
  - inversion Hf; subst. now rewrite Hk.
  - now rewrite IH.
Qed.

Lemma NoDup_map_update_first p l d :
  ~ In (key d) (map key l) ->
  NoDup (map key l) -> NoDup (map key (update_first p d l)).
Proof.
  intros Hnew Hnd. induction l as [|x l IH]; simpl in *; [constructor|].
  inversion Hnd as [|? ? Hx Hrest]; subst.
  destruct (p x); simpl.
  - constructor; [tauto | exact Hrest].
  - constructor.
    + intros Hin. apply in_map_update_first in Hin.
      destruct Hin as [E|E]; [apply Hnew; left; congruence | now apply Hx].
    + apply IH; [tauto | exact Hrest].
Qed.

Lemma NoDup_map_remove_first p l :
  NoDup (map key l) -> NoDup (map key (remove_first p l)).
Proof.
  intros Hnd. induction l as [|x l IH]; simpl in *; [constructor|].
  inversion Hnd as [|? ? Hx Hrest]; subst.
  destruct (p x); simpl; [exact Hrest|].
  constructor; [|now apply IH].
  intros Hin. apply Hx. now apply in_map_remove_first in Hin.
Qed.

Lemma NoDup_map_app_last l d :
  ~ In (key d) (map key l) ->
  NoDup (map key l) -> NoDup (map key (l ++ [d])).
Proof.
  intros Hnew Hnd. rewrite map_app. simpl.
  apply NoDup_app; [exact Hnd | repeat constructor; tauto |].
  intros k Hk [E|[]]. subst. now apply Hnew.
Qed.

End Keyed.

Section Elements.
Context {A : Type}.
Implicit Types (p : A -> bool) (P : A -> Prop) (l : list A) (d : A).

Lemma Forall_update_first P p l d :
  P d -> Forall P l -> Forall P (update_first p d l).
Proof.
  intros Hd Hl. induction Hl as [|x l Hx Hl IH]; simpl; [constructor|].
  destruct (p x); constructor; assumption.
Qed.

Lemma Forall_remove_first P p l :
  Forall P l -> Forall P (remove_first p l).
Proof.
  intros Hl. induction Hl as [|x l Hx Hl IH]; simpl; [constructor|].
  destruct (p x); [exact Hl | now constructor].
Qed.

Lemma Forall_app_last P l d : P d -> Forall P l -> Forall P (l ++ [d]).
Proof. intros Hd Hl. apply Forall_app. split; [exact Hl | now constructor]. Qed.

(** An element other than the one replaced, or removed, stays. *)
Lemma in_update_first_other p l d x :
  In x l -> p x = false -> In x (update_first p d l).
Proof.
  intros Hin Hp. induction l as [|y l IH]; simpl in *; [tauto|].
  destruct Hin as [->|Hin].
  - rewrite Hp. now left.
  - destruct (p y); right; [exact Hin | now apply IH].
Qed.

Lemma in_remove_first_other p l x :
  In x l -> p x = false -> In x (remove_first p l).
Proof.
  intros Hin Hp. induction l as [|y l IH]; simpl in *; [tauto|].
  destruct Hin as [->|Hin].
  - rewrite Hp. now left.
  - destruct (p y); [exact Hin | right; now apply IH].
Qed.

End Elements.

(** At most one element has a given key, so after the first match is
    removed none has. *)
Lemma find_remove_first_unique {A : Type} (key : A -> N) (k : N)
  (l : list A) :
  NoDup (map key l) ->
  find (fun x => N.eqb (key x) k) (remove_first (fun x => N.eqb (key x) k) l)
  = None.
Proof.
  intros Hnd. induction l as [|x l IH]; simpl in *; [reflexivity|].
  inversion Hnd as [|? ? Hx Hrest]; subst.
  destruct (N.eqb (key x) k) eqn:E; simpl.
  - apply N.eqb_eq in E. subst k.
    apply ModelFacts.find_none_intro. intros y Hy.
    apply N.eqb_neq. intros Ey. apply Hx. rewrite <- Ey. now apply in_map.
  - rewrite E. now apply IH.
Qed.

End KeyedLists.

(* ===================================================================== *)
(** ** Every route keeps the Store consistent                             *)
(* ===================================================================== *)

Module ConsistencyFacts.
Import JsString Bson Schema Model Api Spec App ModelFacts KeyedLists
       NormalFormFacts.

Lemma email_not_stored (e : string) (l : list User.t) :
  existsb (user_has_email e) l = false -> ~ In e (map User.email l).
Proof.
  intros Hex Hin. apply in_map_iff in Hin. destruct Hin as (u & Hu & Hin).
  rewrite existsb_find in Hex.
  destruct (find (user_has_email e) l) eqn:Hf; [discriminate|].
  pose proof (find_none _ _ Hf u Hin) as Hne.
  unfold user_has_email in Hne. apply String.eqb_neq in Hne. congruence.
Qed.

Lemma name_not_stored (n : string) (l : list Role.t) :
  existsb (role_has_name n) l = false -> ~ In n (map Role.name l).
Proof.
  intros Hex Hin. apply in_map_iff in Hin. destruct Hin as (r & Hr & Hin).
  rewrite existsb_find in Hex.
  destruct (find (role_has_name n) l) eqn:Hf; [discriminate|].
  pose proof (find_none _ _ Hf r Hin) as Hne.
  unfold role_has_name in Hne. apply String.eqb_neq in Hne. congruence.
Qed.

Lemma next_oid_fresh {A : Type} (key : A -> N) (next : N) (l : list A) :
  Forall (fun x => (key x < next)%N) l -> ~ In next (map key l).
Proof.
  intros Hall Hin. apply in_map_iff in Hin. destruct Hin as (x & Hx & Hin).
  rewrite Forall_forall in Hall. specialize (Hall x Hin). lia.
Qed.

Lemma below_succ {A : Type} (key : A -> N) (next : N) (l : list A) :
  Forall (fun x => (key x < next)%N) l ->
  Forall (fun x => (key x < N.succ next)%N) l.
Proof. apply Forall_impl. intros x Hx. lia. Qed.

Lemma consistent_empty `{unicode : CaseConversion} : consistent empty_store.
Proof. constructor; simpl; constructor. Qed.

(** *** The three ways a collection changes *)

Lemma consistent_insert_user `{unicode : CaseConversion} (s : Store) (u : User.t) :
  consistent s ->
  User._id u = next_oid s ->
  existsb (user_has_email (User.email u)) (users s) = false ->
  normalised (User.email u) ->
  consistent (insert_user s u).
Proof.
  intros [Ub Rb Uu Ru Eu Nu En Nt] Hid Hfree Hnorm.
  constructor; cbn [insert_user users roles next_oid]; try assumption.
  - apply Forall_app_last; [rewrite Hid; lia | now apply below_succ].
  - now apply below_succ.
  - apply NoDup_map_app_last; [|exact Uu].
    rewrite Hid. now apply next_oid_fresh.
  - apply NoDup_map_app_last; [|exact Eu]. now apply email_not_stored.
  - now apply Forall_app_last.
Qed.

Lemma consistent_insert_role `{unicode : CaseConversion} (s : Store) (r : Role.t) :
  consistent s ->
  Role._id r = next_oid s ->
  existsb (role_has_name (Role.name r)) (roles s) = false ->
  trimmed (Role.name r) ->
  consistent (insert_role s r).
Proof.
  intros [Ub Rb Uu Ru Eu Nu En Nt] Hid Hfree Htrim.
  constructor; cbn [insert_role users roles next_oid]; try assumption.
  - now apply below_succ.
  - apply Forall_app_last; [rewrite Hid; lia | now apply below_succ].
  - apply NoDup_map_app_last; [|exact Ru].
    rewrite Hid. now apply next_oid_fresh.
  - apply NoDup_map_app_last; [|exact Nu]. now apply name_not_stored.
  - now apply Forall_app_last.
Qed.

Lemma consistent_write_user `{unicode : CaseConversion} (s s' : Store) (p : User.t -> bool)
  (old doc doc' : User.t) :
  consistent s ->
  find p (users s) = Some old ->
  User._id doc = User._id old ->
  normalised (User.email doc) ->
  write_user s p old doc = inr (doc', s') ->
  consistent s'.
Proof.
  intros [Ub Rb Uu Ru Eu Nu En Nt] Hf Hid Hnorm. unfold write_user.
  pose proof (find_some _ _ Hf) as [Hin _].
  destruct (String.eqb (User.email doc) (User.email old)) eqn:Ee;
    cbn [negb andb].
  - apply String.eqb_eq in Ee. intros E. inversion E; subst. clear E.
    constructor; cbn [with_users users roles next_oid]; try assumption.
    + apply Forall_update_first; [|exact Ub]. rewrite Hid.
      rewrite Forall_forall in Ub. now apply Ub.
    + now rewrite (map_update_first_same User._id p _ doc' old Hf Hid).
    + now rewrite (map_update_first_same User.email p _ doc' old Hf Ee).
    + now apply Forall_update_first.
  - destruct (existsb (user_has_email (User.email doc)) (users s)) eqn:Ex;
      [discriminate|].
    intros E. inversion E; subst. clear E.
    constructor; cbn [with_users users roles next_oid]; try assumption.
    + apply Forall_update_first; [|exact Ub]. rewrite Hid.
      rewrite Forall_forall in Ub. now apply Ub.
    + now rewrite (map_update_first_same User._id p _ doc' old Hf Hid).
    + apply NoDup_map_update_first; [|exact Eu]. now apply email_not_stored.
    + now apply Forall_update_first.
Qed.

Lemma consistent_write_role `{unicode : CaseConversion} (s s' : Store) (p : Role.t -> bool)
  (old doc doc' : Role.t) :
  consistent s ->
  find p (roles s) = Some old ->
  Role._id doc = Role._id old ->
  trimmed (Role.name doc) ->
  write_role s p old doc = inr (doc', s') ->
  consistent s'.
Proof.
  intros [Ub Rb Uu Ru Eu Nu En Nt] Hf Hid Htrim. unfold write_role.
  pose proof (find_some _ _ Hf) as [Hin _].
  destruct (String.eqb (Role.name doc) (Role.name old)) eqn:Ee;
    cbn [negb andb].
  - apply String.eqb_eq in Ee. intros E. inversion E; subst. clear E.
    constructor; cbn [with_roles users roles next_oid]; try assumption.
    + apply Forall_update_first; [|exact Rb]. rewrite Hid.
      rewrite Forall_forall in Rb. now apply Rb.
    + now rewrite (map_update_first_same Role._id p _ doc' old Hf Hid).
    + now rewrite (map_update_first_same Role.name p _ doc' old Hf Ee).
    + now apply Forall_update_first.
  - destruct (existsb (role_has_name (Role.name doc)) (roles s)) eqn:Ex;
      [discriminate|].
    intros E. inversion E; subst. clear E.
    constructor; cbn [with_roles users roles next_oid]; try assumption.
    + apply Forall_update_first; [|exact Rb]. rewrite Hid.
      rewrite Forall_forall in Rb. now apply Rb.
    + now rewrite (map_update_first_same Role._id p _ doc' old Hf Hid).
    + apply NoDup_map_update_first; [|exact Nu]. now apply name_not_stored.
    + now apply Forall_update_first.
Qed.

Lemma consistent_remove_user `{unicode : CaseConversion} (s : Store) (p : User.t -> bool) :
  consistent s -> consistent (with_users s (remove_first p (users s))).
Proof.
  intros [Ub Rb Uu Ru Eu Nu En Nt].
  constructor; cbn [with_users users roles next_oid]; try assumption.
  - now apply Forall_remove_first.
  - now apply NoDup_map_remove_first.
  - now apply NoDup_map_remove_first.
  - now apply Forall_remove_first.
Qed.

Lemma consistent_remove_role `{unicode : CaseConversion} (s : Store) (p : Role.t -> bool) :
  consistent s -> consistent (with_roles s (remove_first p (roles s))).
Proof.
  intros [Ub Rb Uu Ru Eu Nu En Nt].
  constructor; cbn [with_roles users roles next_oid]; try assumption.
  - now apply Forall_remove_first.
  - now apply NoDup_map_remove_first.
  - now apply NoDup_map_remove_first.
  - now apply Forall_remove_first.
Qed.

(** *** The model operations *)

Lemma updated_name_trimmed `{unicode : CaseConversion} (s : Store) (p : Role.t -> bool) (old : Role.t)
  (b : RoleFields.t) :
  consistent s -> find p (roles s) = Some old ->
  trimmed (Role.name (apply_role_update old (role_setters b))).
Proof.
  intros Hc Hf. cbn [apply_role_update Role.name role_setters RoleFields.name].
  destruct (RoleFields.name b) as [n|]; cbn [option_map from_opt].
  - apply trim_trimmed.
  - pose proof (names_trimmed s Hc) as Nt. rewrite Forall_forall in Nt.
    apply Nt. now apply (find_some _ _ Hf).
Qed.

Lemma Role_save_consistent `{unicode : CaseConversion} (s s' : Store) (body : RoleFields.t)
  (doc : Role.t) :
  consistent s -> Role_save s body = inr (doc, s') -> consistent s'.
Proof.
  intros Hc. unfold Role_save.
  destruct (validate_role (role_setters body)); [|discriminate].
  destruct (existsb _ _) eqn:Ex; [discriminate|].
  intros E. inversion E; subst. clear E.
  apply consistent_insert_role; [exact Hc | reflexivity | exact Ex |].
  cbn [new_role Role.name role_setters RoleFields.name].
  destruct (RoleFields.name body); cbn [option_map from_opt];
    [apply trim_trimmed | reflexivity].
Qed.

Lemma Role_findByIdAndUpdate_consistent `{unicode : CaseConversion} (s s' : Store) (id : string)
  (body : RoleFields.t) (r : option Role.t) :
  consistent s ->
  Role_findByIdAndUpdate s id body = inr (r, s') -> consistent s'.
Proof.
  intros Hc. unfold Role_findByIdAndUpdate.
  destruct (castObjectId id) as [oid|]; [|discriminate].
  destruct (update_validate_role (role_setters body)); [|discriminate].
  destruct (find (role_has_id oid) (roles s)) as [old|] eqn:Hf.
  - destruct (write_role s (role_has_id oid) old
                (apply_role_update old (role_setters body)))
      as [e|[doc s1]] eqn:Hw; [discriminate|].
    intros E. inversion E; subst. clear E.
    apply (consistent_write_role s s' _ old
             (apply_role_update old (role_setters body)) doc Hc Hf eq_refl
             (updated_name_trimmed s _ old body Hc Hf) Hw).
  - intros E. now inversion E; subst.
Qed.

Lemma Role_findByIdAndDelete_consistent `{unicode : CaseConversion} (s s' : Store) (id : string)
  (r : option Role.t) :
  consistent s ->
  Role_findByIdAndDelete s id = inr (r, s') -> consistent s'.
Proof.
  intros Hc. unfold Role_findByIdAndDelete.
  destruct (castObjectId id) as [oid|]; [|discriminate].
  destruct (find (role_has_id oid) (roles s)); intros E; inversion E; subst.
  - now apply consistent_remove_role.
  - exact Hc.
Qed.

Lemma Role_upsert_consistent `{unicode : CaseConversion} (s s' : Store) (name : string)
  (b : RoleFields.t) (doc : Role.t) :
  consistent s ->
  Role_findOneAndUpdate_upsert s name b = inr (doc, s') -> consistent s'.
Proof.
  intros Hc. unfold Role_findOneAndUpdate_upsert.
  destruct (find (role_has_name (trim name)) (roles s)) as [old|] eqn:Hf.
  - intros Hw.
    apply (consistent_write_role s s' _ old
             (apply_role_update old (role_setters b)) doc Hc Hf eq_refl
             (updated_name_trimmed s _ old b Hc Hf) Hw).
  - destruct (existsb _ _) eqn:Ex; [discriminate|].
    intros E. inversion E; subst. clear E.
    apply consistent_insert_role; [exact Hc | reflexivity | exact Ex |].
    cbn [new_role Role.name role_setters RoleFields.name].
    destruct (RoleFields.name b); cbn [option_map from_opt];
      apply trim_trimmed.
Qed.

Section WithCollaborators.
Context `{unicode : CaseConversion} `{SecretHasher} `{JsDate}.

Lemma updated_email_normalised (s : Store) (p : User.t -> bool)
  (old : User.t) (b : UserFields.t) :
  consistent s -> find p (users s) = Some old ->
  normalised (User.email (apply_user_update old (cast_user_fields b))).
Proof.
  intros Hc Hf.
  cbn [apply_user_update User.email cast_user_fields UserUpdate.email
       user_setters UserFields.email].
  destruct (UserFields.email b) as [e|]; cbn [option_map from_opt].
  - apply email_setters_normalised.
  - pose proof (emails_normalised s Hc) as En. rewrite Forall_forall in En.
    apply En. now apply (find_some _ _ Hf).
Qed.

Lemma User_save_consistent (s s' : Store) (body : UserFields.t)
  (doc : User.t) :
  consistent s -> User_save s body = inr (doc, s') -> consistent s'.
Proof.
  intros Hc Hs. apply CreateFacts.User_save_inv in Hs.
  destruct Hs as (_ & Hfree & -> & ->).
  apply consistent_insert_user; [exact Hc | reflexivity | exact Hfree |].
  cbn [saved_user pre_save negb set_password User.email new_user
       cast_user_fields UserUpdate.email user_setters UserFields.email].
  destruct (UserFields.email body); cbn [option_map from_opt];
    [apply email_setters_normalised | apply normalised_empty].
Qed.

Lemma User_findByIdAndUpdate_consistent (s s' : Store) (id : string)
  (body : UserFields.t) (u : option User.t) :
  consistent s ->
  User_findByIdAndUpdate s id body = inr (u, s') -> consistent s'.
Proof.
  intros Hc. unfold User_findByIdAndUpdate.
  destruct (castObjectId id) as [oid|]; [|discriminate].
  destruct (check_role_cast (UserFields.role body)
            ++ check_date_cast (UserFields.dateOfBirth body))%list
    as [|[path m] rest]; [|discriminate].
  destruct (update_validate_user (user_setters body)); [|discriminate].
  destruct (find (user_has_id oid) (users s)) as [old|] eqn:Hf.
  - destruct (write_user s (user_has_id oid) old
                (apply_user_update old (cast_user_fields body)))
      as [e|[doc s1]] eqn:Hw; [discriminate|].
    intros E. inversion E; subst. clear E.
    apply (consistent_write_user s s' _ old
             (apply_user_update old (cast_user_fields body)) doc Hc Hf
             eq_refl (updated_email_normalised s _ old body Hc Hf) Hw).
  - intros E. now inversion E; subst.
Qed.

Lemma User_findByIdAndDelete_consistent (s s' : Store) (id : string)
  (u : option User.t) :
  consistent s ->
  User_findByIdAndDelete s id = inr (u, s') -> consistent s'.
Proof.
  intros Hc. unfold User_findByIdAndDelete.
  destruct (castObjectId id) as [oid|]; [|discriminate].
  destruct (find (user_has_id oid) (users s)); intros E; inversion E; subst.
  - now apply consistent_remove_user.
  - exact Hc.
Qed.

Lemma User_upsert_consistent (s s' : Store) (email : string)
  (b : UserUpdate.t) (doc : User.t) :
  consistent s ->
  User_findOneAndUpdate_upsert s email b = inr (doc, s') -> consistent s'.
Proof.
  intros Hc. unfold User_findOneAndUpdate_upsert.
  destruct (find (user_has_email (toLowerCase (trim email))) (users s))
    as [old|] eqn:Hf.
  - intros Hw.
    apply (consistent_write_user s s' _ old
             (apply_user_update old (user_update_setters b)) doc Hc Hf
             eq_refl); [|exact Hw].
    cbn [apply_user_update User.email user_update_setters UserUpdate.email].
    destruct (UserUpdate.email b); cbn [option_map from_opt].
    + apply email_setters_normalised.
    + pose proof (emails_normalised s Hc) as En. rewrite Forall_forall in En.
      apply En. now apply (find_some _ _ Hf).
  - destruct (existsb _ _) eqn:Ex; [discriminate|].
    intros E. inversion E; subst. clear E.
    apply consistent_insert_user; [exact Hc | reflexivity | exact Ex |].
    cbn [new_user User.email user_update_setters UserUpdate.email].
    destruct (UserUpdate.email b); cbn [option_map from_opt];
      apply email_setters_normalised.
Qed.

(** *** The routes *)

(** Both branches of the duplicate-key test of the two POST routes leave
    the Store as it is. *)
Lemma duplicate_key_branches {A : Type} (code : option N) (x y : A)
  (s : Store) :
  snd (match code with
       | Some 11000%N => (x, s)
       | _ => (y, s)
       end) = s.
Proof.
  destruct code as [[|p]|]; try reflexivity.
  repeat (destruct p; try reflexivity).
Qed.

(** Every route of the app takes a consistent Store to a consistent
    Store. *)
Lemma serve_consistent (c : Call) (s : Store) :
  consistent s -> consistent (serve c s).
Proof.
  intros Hc. destruct c; cbn [serve].
  - exact Hc.
  - unfold get_role. now destruct (Role_findById s id) as [e|[r|]].
  - unfold post_roles.
    destruct (Role_save s body) as [e|[doc s']] eqn:E.
    + now rewrite duplicate_key_branches.
    + apply (Role_save_consistent s s' body doc Hc E).
  - unfold put_role.
    destruct (Role_findByIdAndUpdate s id body) as [e|[[r|] s']] eqn:E;
      [exact Hc | |];
      apply (Role_findByIdAndUpdate_consistent s s' id body _ Hc E).
  - unfold delete_role.
    destruct (Role_findByIdAndDelete s id) as [e|[[r|] s']] eqn:E;
      [exact Hc | |];
      apply (Role_findByIdAndDelete_consistent s s' id _ Hc E).
  - exact Hc.
  - unfold get_user. now destruct (User_findById s id) as [e|[u|]].
  - unfold post_users.
    destruct (User_save s body) as [e|[doc s']] eqn:E.
    + now rewrite duplicate_key_branches.
    + apply (User_save_consistent s s' body doc Hc E).
  - unfold put_user.
    destruct (User_findByIdAndUpdate s id (hash_body_password body))
      as [e|[[u|] s']] eqn:E;
      [exact Hc | |];
      apply (User_findByIdAndUpdate_consistent s s' id _ _ Hc E).
  - unfold delete_user.
    destruct (User_findByIdAndDelete s id) as [e|[[u|] s']] eqn:E;
      [exact Hc | |];
      apply (User_findByIdAndDelete_consistent s s' id _ Hc E).
  - unfold post_seed.
    destruct (Role_findOneAndUpdate_upsert s "admin" seed_admin_role)
      as [e|[adminRole s1]] eqn:E1; [exact Hc|].
    pose proof (Role_upsert_consistent s s1 _ _ _ Hc E1) as Hc1.
    destruct (Role_findOneAndUpdate_upsert s1 "user" seed_user_role)
      as [e|[userRole s2]] eqn:E2; [exact Hc1|].
    pose proof (Role_upsert_consistent s1 s2 _ _ _ Hc1 E2) as Hc2.
    destruct (User_findOneAndUpdate_upsert s2 "admin@example.com"
                (seed_admin_user (Role._id adminRole)))
      as [e|[adminUser s3]] eqn:E3; [exact Hc2|].
    apply (User_upsert_consistent s2 s3 _ _ _ Hc2 E3).
Qed.

Lemma serve_all_consistent (cs : list Call) (s : Store) :
  consistent s -> consistent (serve_all cs s).
Proof.
  revert s. induction cs as [|c cs IH]; intros s Hc; [exact Hc|].
  cbn [serve_all]. apply IH. now apply serve_consistent.
Qed.

(** X1.  Whatever requests the app has served since the Store was empty, the
    Store is consistent: no two accounts with the same email, no two
    roles with the same name, no identifier used twice, every email
    trimmed and lowercase, every role name trimmed. *)
Theorem served_store_consistent (cs : list Call) :
  consistent (serve_all cs empty_store).
Proof. apply serve_all_consistent, consistent_empty. Qed.

End WithCollaborators.

Import Examples.

(** The seeded Store of the examples is one the app has served. *)
Lemma seeded_world_consistent : consistent (Mcp.store Scenario.seeded_world).
Proof.
  exact (serve_all_consistent [POST_seed] empty_store consistent_empty).
Qed.

End ConsistencyFacts.

(* ===================================================================== *)
(** ** The routes: what a caller of the API can rely on                   *)
(* ===================================================================== *)

Module RouteFacts.
Import JsString Bson Schema Model Api Spec App ModelFacts KeyedLists
       NormalFormFacts ConsistencyFacts CreateFacts.

Lemma cast_refused (id : string) :
  test_ObjectId_regex id = false -> castObjectId id = None.
Proof. intros Hre. unfold castObjectId. now rewrite Hre. Qed.

Section WithCollaborators.
Context `{unicode : CaseConversion} `{SecretHasher} `{JsDate}.


(** X3.  In a consistent Store, a valid creation whose email equals the email
    of a stored account up to case is refused with "Email already exists",
    and the Store is left as it is. *)
Theorem create_with_stored_email (s : Store) (body : UserFields.t)
  (u : User.t) (e : string) :
  consistent s ->
  In u (users s) ->
  UserFields.email body = Some e ->
  toLowerCase e = toLowerCase (User.email u) ->
  validate_user (user_setters body) = [] ->
  post_users body s = (Failed 400 "Email already exists", s).
Proof.
  intros Hc Hin He Hcase Hv.
  apply DuplicateFacts.post_users_taken; [exact Hv|].
  rewrite (saved_user_email s body e He).
  pose proof (emails_normalised s Hc) as En. rewrite Forall_forall in En.
  rewrite (normalised_matches (User.email u) e (En u Hin) Hcase).
  apply existsb_exists. exists u. split; [exact Hin|].
  apply String.eqb_refl.
Qed.

(** X4.  An id that is not 24 hexadecimal digits: the three routes with an
    [:id] answer with the same cast error and touch nothing, GET and
    DELETE with status 500 and PUT with status 400. *)
Theorem malformed_id (s : Store) (id : string) :
  test_ObjectId_regex id = false ->
  (forall body,
      get_user id s = (Failed 500 (error_message (id_cast_error id "User")), s)
      /\ put_user id body s
         = (Failed 400 (error_message (id_cast_error id "User")), s)
      /\ delete_user id s
         = (Failed 500 (error_message (id_cast_error id "User")), s))
  /\ (forall body,
         get_role id s
         = (Failed 500 (error_message (id_cast_error id "Role")), s)
         /\ put_role id body s
            = (Failed 400 (error_message (id_cast_error id "Role")), s)
         /\ delete_role id s
            = (Failed 500 (error_message (id_cast_error id "Role")), s)).
Proof.
  intros Hre. apply cast_refused in Hre.
  split; intros body; repeat split.
  - unfold get_user, User_findById. now rewrite Hre.
  - unfold put_user, User_findByIdAndUpdate. now rewrite Hre.
  - unfold delete_user, User_findByIdAndDelete. now rewrite Hre.
  - unfold get_role, Role_findById. now rewrite Hre.
  - unfold put_role, Role_findByIdAndUpdate. now rewrite Hre.
  - unfold delete_role, Role_findByIdAndDelete. now rewrite Hre.
Qed.

(** X5.  Deleting an account in a consistent Store: the account is gone, a
    read or a second delete of the same id is answered 404, exactly one
    account was removed, and the roles are as before. *)
Theorem delete_user_then_gone (s s' : Store) (id : string) (status : nat)
  (message : string) :
  consistent s ->
  delete_user id s = (Sent status message, s') ->
  get_user id s' = (Failed 404 "User not found", s')
  /\ delete_user id s' = (Failed 404 "User not found", s')
  /\ S (List.length (users s')) = List.length (users s)
  /\ roles s' = roles s.
Proof.
  intros Hc. unfold delete_user at 1, User_findByIdAndDelete at 1.
  destruct (castObjectId id) as [oid|] eqn:Hid; [|discriminate].
  destruct (find (user_has_id oid) (users s)) as [u|] eqn:Hf; [|discriminate].
  intros E. inversion E; subst. clear E.
  assert (Hgone : find (user_has_id oid)
                    (remove_first (user_has_id oid) (users s)) = None).
  { apply (find_remove_first_unique User._id oid), (user_ids_unique s Hc). }
  repeat split.
  - unfold get_user, User_findById. rewrite Hid.
    cbn [with_users users]. now rewrite Hgone.
  - unfold delete_user, User_findByIdAndDelete. rewrite Hid.
    cbn [with_users users]. now rewrite Hgone.
  - cbn [with_users users]. clear -Hf.
    induction (users s) as [|x l IH]; simpl in *; [discriminate|].
    destruct (user_has_id oid x); [reflexivity|].
    simpl. f_equal. now apply IH.
Qed.

(** X6.  The same for a role; the accounts are as before, also those that
    refer to the role. *)
Theorem delete_role_then_gone (s s' : Store) (id : string) (status : nat)
  (message : string) :
  consistent s ->
  delete_role id s = (Sent status message, s') ->
  get_role id s' = (Failed 404 "Role not found", s')
  /\ delete_role id s' = (Failed 404 "Role not found", s')
  /\ S (List.length (roles s')) = List.length (roles s)
  /\ users s' = users s.
Proof.
  intros Hc. unfold delete_role at 1, Role_findByIdAndDelete at 1.
  destruct (castObjectId id) as [oid|] eqn:Hid; [|discriminate].
  destruct (find (role_has_id oid) (roles s)) as [r|] eqn:Hf; [|discriminate].
  intros E. inversion E; subst. clear E.
  assert (Hgone : find (role_has_id oid)
                    (remove_first (role_has_id oid) (roles s)) = None).
  { apply (find_remove_first_unique Role._id oid), (role_ids_unique s Hc). }
  repeat split.
  - unfold get_role, Role_findById. rewrite Hid.
    cbn [with_roles roles]. now rewrite Hgone.
  - unfold delete_role, Role_findByIdAndDelete. rewrite Hid.
    cbn [with_roles roles]. now rewrite Hgone.
  - cbn [with_roles roles]. clear -Hf.
    induction (roles s) as [|x l IH]; simpl in *; [discriminate|].
    destruct (role_has_id oid x); [reflexivity|].
    simpl. f_equal. now apply IH.
Qed.

(** X7.  An update that is answered 200 can be read back: a GET of the same id
    right after it returns the entity the update returned. *)
Theorem update_then_read :
  (forall s s' id body status user,
      put_user id body s = (Sent status user, s') ->
      get_user id s' = (Sent 200 user, s'))
  /\ (forall s s' id body status role,
         put_role id body s = (Sent status role, s') ->
         get_role id s' = (Sent 200 role, s')).
Proof.
  split.
  - intros s s' id body status user. unfold put_user, User_findByIdAndUpdate.
    destruct (castObjectId id) as [oid|] eqn:Hid; [|discriminate].
    destruct (check_role_cast _ ++ check_date_cast _)%list
      as [|[path m] rest]; [|discriminate].
    destruct (update_validate_user _); [|discriminate].
    destruct (find (user_has_id oid) (users s)) as [old|] eqn:Hf;
      [|discriminate].
    unfold write_user. destruct (_ && _); [discriminate|].
    intros E. inversion E; subst. clear E.
    unfold get_user, User_findById. rewrite Hid. cbn [with_users users].
    rewrite (find_update_first_same _ _ _ old Hf); [reflexivity|].
    apply (find_some _ _ Hf).
  - intros s s' id body status role. unfold put_role, Role_findByIdAndUpdate.
    destruct (castObjectId id) as [oid|] eqn:Hid; [|discriminate].
    destruct (update_validate_role _); [|discriminate].
    destruct (find (role_has_id oid) (roles s)) as [old|] eqn:Hf;
      [|discriminate].
    unfold write_role. destruct (_ && _); [discriminate|].
    intros E. inversion E; subst. clear E.
    unfold get_role, Role_findById. rewrite Hid. cbn [with_roles roles].
    rewrite (find_update_first_same _ _ _ old Hf); [reflexivity|].
    apply (find_some _ _ Hf).
Qed.

(** X8.  What a successful [PUT /api/users/:id] does to stored passwords.  A
    body without a password leaves every stored password as it is; a body
    with a password writes the bcrypt digest of it.  (An empty password
    is refused by the validators, so an update that succeeds has a
    non-empty one or none.) *)
Theorem update_and_passwords (s s' : Store) (id : string)
  (body : UserFields.t) (status : nat) (user : Json.User.t) :
  put_user id body s = (Sent status user, s') ->
  match UserFields.password body with
  | None => map User.password (users s') = map User.password (users s)
  | Some p =>
      p <> ""
      /\ exists oid doc,
           castObjectId id = Some oid
           /\ find (user_has_id oid) (users s') = Some doc
           /\ User.password doc = bcrypt_hash p 10
  end.
Proof.
  unfold put_user, User_findByIdAndUpdate.
  destruct (castObjectId id) as [oid|] eqn:Hid; [|discriminate].
  destruct (check_role_cast _ ++ check_date_cast _)%list
    as [|[path m] rest]; [|discriminate].
  destruct (update_validate_user (user_setters (hash_body_password body)))
    eqn:Hv; [|discriminate].
  destruct (find (user_has_id oid) (users s)) as [old|] eqn:Hf;
    [|discriminate].
  unfold write_user. destruct (_ && _); [discriminate|].
  intros E. inversion E; subst. clear E.
  cbn [with_users users].
  destruct (UserFields.password body) as [p|] eqn:Hp.
  - destruct p as [|c p'].
    + exfalso. revert Hv. unfold hash_body_password, update_validate_user.
      rewrite Hp. cbn [truthy_opt truthy user_setters UserFields.password].
      rewrite Hp. cbn [check_present check_required truthy first_failure].
      intros E. do 3 (apply app_eq_nil in E; destruct E as [_ E]).
      discriminate E.
    + split; [discriminate|].
      exists oid.
      exists (apply_user_update old
                (cast_user_fields (hash_body_password body))).
      split; [reflexivity|]. split.
      * apply (find_update_first_same _ _ _ old Hf), (find_some _ _ Hf).
      * assert (Hd : User.password
                       (apply_user_update old
                          (cast_user_fields (hash_body_password body)))
                     = bcrypt_hash (String c p') 10).
        { unfold hash_body_password. rewrite Hp. cbn [truthy_opt truthy].
          reflexivity. }
        exact Hd.
  - apply (map_update_first_same User.password _ _ _ old Hf).
    unfold hash_body_password. rewrite Hp. cbn [truthy_opt]. cbn.
    now rewrite Hp.
Qed.

End WithCollaborators.

(** *** Roles *)

Lemma offending_permission (ps : list string) (i : nat) :
  existsb (fun p => negb (in_enum p)) ps = true ->
  check_permissions_from i ps <> [].
Proof.
  revert i. induction ps as [|p ps IH]; intros i; simpl; [discriminate|].
  destruct (in_enum p); simpl; [apply IH | discriminate].
Qed.

(** X9.  A role body with a permission outside [read], [write], [delete],
    [admin] is refused with status 400 and nothing is stored. *)
Theorem create_role_with_unknown_permission (s : Store)
  (body : RoleFields.t) (ps : list string) :
  RoleFields.permissions body = Some ps ->
  existsb (fun p => negb (in_enum p)) ps = true ->
  exists error, post_roles body s = (Failed 400 error, s).
Proof.
  intros Hps Hbad. unfold post_roles, Role_save.
  assert (Hv : validate_role (role_setters body) <> []).
  { unfold validate_role. cbn [role_setters RoleFields.permissions].
    rewrite Hps. intros E.
    do 2 (apply app_eq_nil in E; destruct E as [_ E]).
    now apply (offending_permission ps 0 Hbad). }
  destruct (validate_role (role_setters body)); [congruence|].
  eexists. reflexivity.
Qed.

Lemma validate_role_nil (b : RoleFields.t) :
  validate_role (role_setters b) = [] ->
  (exists n, RoleFields.name b = Some n)
  /\ (exists d, RoleFields.description b = Some d).
Proof.
  unfold validate_role. intros Hv.
  apply app_eq_nil in Hv. destruct Hv as [Vn Hv].
  apply app_eq_nil in Hv. destruct Hv as [Vd _].
  apply check_required_nil in Vn, Vd. cbn [role_setters RoleFields.name
    RoleFields.description] in Vn, Vd.
  destruct Vn as [n [Hn _]], Vd as [d [Hd _]].
  split.
  - destruct (RoleFields.name b); [eauto | discriminate].
  - eauto.
Qed.

Lemma find_fresh_role (s : Store) (r : Role.t) :
  Forall (fun x => (Role._id x < next_oid s)%N) (roles s) ->
  Role._id r = next_oid s ->
  find (role_has_id (Role._id r)) (roles s ++ [r]) = Some r.
Proof.
  intros Hall Hid. rewrite find_app_last.
  replace (find (role_has_id (Role._id r)) (roles s)) with (@None Role.t).
  - unfold role_has_id. now rewrite N.eqb_refl.
  - symmetry. apply find_none_intro. intros x Hx.
    rewrite Forall_forall in Hall. specialize (Hall x Hx).
    unfold role_has_id. apply N.eqb_neq. lia.
Qed.

(** X10.  A valid role body whose name is not taken: [POST /api/roles] answers
    201 with the role, [GET /api/roles/:id] on its identifier returns the
    same role, the name is the input trimmed, and the paths the body
    leaves out take the schema defaults, no permissions and active. *)
Theorem create_role_then_read (s : Store) (body : RoleFields.t) :
  well_formed s ->
  validate_role (role_setters body) = [] ->
  (forall n, RoleFields.name body = Some n ->
             existsb (role_has_name (trim n)) (roles s) = false) ->
  exists role s',
    post_roles body s = (Sent 201 role, s')
    /\ get_role (Json.Role._id role) s' = (Sent 200 role, s')
    /\ Some (Json.Role.name role) = option_map trim (RoleFields.name body)
    /\ Some (Json.Role.description role) = RoleFields.description body
    /\ Json.Role.permissions role
       = from_opt [] (RoleFields.permissions body)
    /\ Json.Role.isActive role = from_opt true (RoleFields.isActive body).
Proof.
  intros (_ & Hr & Hb) Hv Hfree.
  destruct (validate_role_nil body Hv) as ([n Hn] & [d Hd]).
  exists (role_toJSON (saved_role s body)),
         (insert_role s (saved_role s body)).
  assert (Hname : Role.name (saved_role s body) = trim n).
  { cbn [saved_role new_role Role.name role_setters RoleFields.name].
    now rewrite Hn. }
  split; [|split].
  - unfold post_roles, Role_save. rewrite Hv. fold (saved_role s body).
    now rewrite Hname, (Hfree n Hn).
  - unfold get_role, Role_findById.
    change (Json.Role._id (role_toJSON (saved_role s body)))
      with (toHexString (next_oid s)).
    rewrite (BsonFacts.castObjectId_toHexString _ Hb).
    cbn [insert_role roles].
    assert (Hfind : find (role_has_id (next_oid s))
                      (roles s ++ [saved_role s body])
                    = Some (saved_role s body))
      by exact (find_fresh_role s (saved_role s body) Hr eq_refl).
    now rewrite Hfind.
  - cbn. rewrite Hn, Hd. now repeat split.
Qed.

(** *** The seed and the records it does not name *)

Lemma role_upsert_keeps (s : Store) (name : string) (b : RoleFields.t)
  (r : Role.t) :
  In r (roles s) -> Role.name r <> name ->
  In r (roles (snd (role_upsert s name b))).
Proof.
  intros Hin Hne.
  assert (Hp : role_has_name name r = false)
    by now apply String.eqb_neq.
  unfold role_upsert. destruct (find _ _); cbn [snd with_roles insert_role roles].
  - now apply in_update_first_other.
  - apply in_or_app. now left.
Qed.

Lemma user_upsert_keeps (s : Store) (rid : ObjectId) (u : User.t) :
  In u (users s) -> User.email u <> admin_email ->
  In u (users (snd (user_upsert s rid))).
Proof.
  intros Hin Hne.
  assert (Hp : user_has_email admin_email u = false)
    by now apply String.eqb_neq.
  unfold user_upsert. destruct (find _ _); cbn [snd with_users insert_user users].
  - now apply in_update_first_other.
  - apply in_or_app. now left.
Qed.

Section WithCollaborators.
Context `{unicode : CaseConversion} `{SecretHasher} `{JsDate}.

(** X11.  The seed touches the two roles and the account it names and nothing
    else: every other stored role and account is still there, as it
    was. *)
Theorem seed_keeps_other_records (s : Store) :
  (forall r, In r (roles s) ->
             Role.name r <> "admin" -> Role.name r <> "user" ->
             In r (roles (snd (post_seed s))))
  /\ (forall u, In u (users s) ->
                User.email u <> "admin@example.com" ->
                In u (users (snd (post_seed s)))).
Proof.
  rewrite SeedFacts.post_seed_correct. unfold seeded.
  pose proof (role_upsert_keeps s "admin" seed_admin_role) as Ka.
  pose proof (SeedFacts.role_upsert_users s "admin" seed_admin_role) as Ua.
  destruct (role_upsert s "admin" seed_admin_role) as [adminRole s1].
  pose proof (role_upsert_keeps s1 "user" seed_user_role) as Ku.
  pose proof (SeedFacts.role_upsert_users s1 "user" seed_user_role) as Uu.
  destruct (role_upsert s1 "user" seed_user_role) as [userRole s2].
  pose proof (user_upsert_keeps s2 (Role._id adminRole)) as Kx.
  pose proof (SeedFacts.user_upsert_roles s2 (Role._id adminRole)) as Rx.
  destruct (user_upsert s2 (Role._id adminRole)) as [adminUser s3].
  cbn [fst snd] in *. split.
  - intros r Hin Hna Hnu. rewrite Rx. apply Ku; [|exact Hnu].
    now apply Ka.
  - intros u Hin Hne. apply Kx; [|exact Hne]. now rewrite Uu, Ua.
Qed.

End WithCollaborators.

Import Examples.


Lemma create_with_stored_email_witness :
  let s := Mcp.store Scenario.seeded_world in
  let u := new_user 3%N (seed_admin_user 1%N) in
  let body := Scenario.john_body "Admin@Example.COM" in
  In u (users s)
  /\ toLowerCase "Admin@Example.COM" = toLowerCase (User.email u)
  /\ validate_user (user_setters body) = []
  /\ post_users body s = (Failed 400 "Email already exists", s).
Proof.
  intros s u body.
  assert (Hin : In u (users s)) by (left; reflexivity).
  split; [exact Hin|]. split; [reflexivity|]. split; [reflexivity|].
  exact (create_with_stored_email (unicode := ascii_case) s body u "Admin@Example.COM"
           seeded_world_consistent Hin eq_refl eq_refl eq_refl).
Defined.

Lemma malformed_id_witness :
  let s := Mcp.store Scenario.seeded_world in
  test_ObjectId_regex "undefined" = false
  /\ get_user "undefined" s
     = (Failed 500 (error_message (id_cast_error "undefined" "User")), s)
  /\ put_role "undefined" (Scenario.editor_body "Content editor") s
     = (Failed 400 (error_message (id_cast_error "undefined" "Role")), s).
Proof.
  intros s. split; [reflexivity|].
  destruct (malformed_id (unicode := ascii_case) s "undefined" eq_refl) as [Husers Hroles].
  split.
  - exact (proj1 (Husers (Scenario.password_only "secret1"))).
  - exact (proj1 (proj2 (Hroles (Scenario.editor_body "Content editor")))).
Defined.

Lemma delete_user_then_gone_witness :
  let s := Mcp.store Scenario.seeded_world in
  let id := "000000000000000000000003" in
  let s' := snd (delete_user id s) in
  delete_user id s = (Sent 200 "User deleted successfully", s')
  /\ get_user id s' = (Failed 404 "User not found", s')
  /\ delete_user id s' = (Failed 404 "User not found", s')
  /\ S (List.length (users s')) = List.length (users s)
  /\ roles s' = roles s.
Proof.
  intros s id s'. split; [reflexivity|].
  exact (delete_user_then_gone (unicode := ascii_case) s s' id 200 "User deleted successfully"
           seeded_world_consistent eq_refl).
Defined.

Lemma delete_role_then_gone_witness :
  let s := Mcp.store Scenario.seeded_world in
  let id := "000000000000000000000001" in
  let s' := snd (delete_role id s) in
  delete_role id s = (Sent 200 "Role deleted successfully", s')
  /\ get_role id s' = (Failed 404 "Role not found", s')
  /\ delete_role id s' = (Failed 404 "Role not found", s')
  /\ S (List.length (roles s')) = List.length (roles s)
  /\ users s' = users s.
Proof.
  intros s id s'. split; [reflexivity|].
  exact (delete_role_then_gone (unicode := ascii_case) s s' id 200 "Role deleted successfully"
           seeded_world_consistent eq_refl).
Defined.

Lemma update_then_read_witness :
  let s := Mcp.store Scenario.seeded_world in
  let id := "000000000000000000000003" in
  let body := Scenario.password_only "new-secret" in
  let s' := snd (put_user id body s) in
  exists user,
    put_user id body s = (Sent 200 user, s')
    /\ get_user id s' = (Sent 200 user, s').
Proof.
  intros s id body s'. eexists. split; [reflexivity|].
  apply (proj1 update_then_read s s' id body 200). reflexivity.
Defined.

Lemma update_and_passwords_witness :
  let s := Mcp.store Scenario.seeded_world in
  let id := "000000000000000000000003" in
  let body := Scenario.password_only "new-secret" in
  let s' := snd (put_user id body s) in
  exists user,
    put_user id body s = (Sent 200 user, s')
    /\ exists oid doc,
         castObjectId id = Some oid
         /\ find (user_has_id oid) (users s') = Some doc
         /\ User.password doc = bcrypt_hash "new-secret" 10.
Proof.
  intros s id body s'. eexists. split; [reflexivity|].
  exact (proj2 (update_and_passwords (unicode := ascii_case) s s' id body 200 _ eq_refl)).
Defined.

Lemma create_role_with_unknown_permission_witness :
  let body :=
    {| RoleFields.name := Some "ops";
       RoleFields.description := Some "Operations";
       RoleFields.permissions := Some ["read"; "deploy"];
       RoleFields.isActive := None |} in
  existsb (fun p => negb (in_enum p)) ["read"; "deploy"] = true
  /\ exists error, post_roles body empty_store = (Failed 400 error, empty_store).
Proof.
  intros body. split; [reflexivity|].
  exact (create_role_with_unknown_permission empty_store body
           ["read"; "deploy"] eq_refl eq_refl).
Defined.

Lemma create_role_then_read_witness :
  let s := Mcp.store Scenario.seeded_world in
  let body := Scenario.editor_body "Content editor" in
  well_formed s
  /\ validate_role (role_setters body) = []
  /\ exists role s',
       post_roles body s = (Sent 201 role, s')
       /\ get_role (Json.Role._id role) s' = (Sent 200 role, s')
       /\ Json.Role.name role = "editor"
       /\ Json.Role.isActive role = true.
Proof.
  intros s body.
  assert (W : well_formed s) by (repeat split; repeat constructor).
  assert (F : forall n, RoleFields.name body = Some n ->
                        existsb (role_has_name (trim n)) (roles s) = false).
  { intros n Hn. injection Hn as <-. reflexivity. }
  split; [exact W|]. split; [reflexivity|].
  destruct (create_role_then_read s body W eq_refl F)
    as (role & s' & Hpost & Hget & Hname & _ & _ & Hactive).
  exists role, s'. split; [exact Hpost|]. split; [exact Hget|].
  split; [|exact Hactive].
  injection Hname as Hname. exact Hname.
Defined.

Lemma seed_keeps_other_records_witness :
  let s := snd (post_roles (Scenario.editor_body "Content editor")
                  empty_store) in
  let editor := new_role 1%N (Scenario.editor_body "Content editor") in
  In editor (roles s)
  /\ In editor (roles (snd (post_seed s))).
Proof.
  intros s editor.
  assert (Hin : In editor (roles s)) by (left; reflexivity).
  split; [exact Hin|].
  apply (proj1 (seed_keeps_other_records (unicode := ascii_case) s) editor Hin); discriminate.
Defined.

End RouteFacts.

(* ===================================================================== *)
(** ** The tools: what a caller of the adapter can rely on                *)
(* ===================================================================== *)

Module ToolFacts.
Import JsString Bson Schema Model Api Mcp Spec App Observe ModelFacts
       KeyedLists NormalFormFacts ConsistencyFacts CreateFacts EnvelopeFacts.

(** *** The resolver *)

Lemma resolveRoleId_store `{unicode : CaseConversion} (r : option string) (w w' : World)
  (x : JsError + string) :
  resolveRoleId r w = (x, w') -> store w' = store w.
Proof.
  unfold resolveRoleId, try_catch.
  destruct (test_ObjectId_regex (show_opt r)).
  - unfold ret. intros E. now inversion E.
  - unfold bind, axios, Api.get_roles, lift, ret, throw.
    destruct (api_up w).
    + destruct (find_role r _) as [e|[role|]]; intros E; now inversion E.
    + intros E. now inversion E.
Qed.

Lemma find_same_test {A : Type} (p q : A -> bool) (l : list A) :
  (forall x, p x = q x) -> find p l = find q l.
Proof.
  intros E. induction l as [|x l IH]; simpl; [reflexivity|].
  now rewrite E, IH.
Qed.

Lemma name_matches_case `{unicode : CaseConversion} (a b : string) (r : Role.t) :
  toLowerCase a = toLowerCase b -> name_matches a r = name_matches b r.
Proof. intros E. unfold name_matches. now rewrite E. Qed.

(** X12.  Resolution by name does not depend on the case of the input: two
    names equal up to case, of which one resolves, resolve to the same
    identifier.  And what the resolver returns is an identifier: resolved
    again, it is returned as it is, without a request. *)
Theorem resolveRoleId_case_and_again `{unicode : CaseConversion} (a b id : string) (w w' : World) :
  test_ObjectId_regex a = false ->
  test_ObjectId_regex b = false ->
  toLowerCase a = toLowerCase b ->
  api_up w = true ->
  resolveRoleId (Some a) w = (inr id, w') ->
  resolveRoleId (Some b) w = (inr id, w')
  /\ resolveRoleId (Some id) w' = (inr id, w').
Proof.
  intros Ha Hb Hcase Hup.
  rewrite (ResolverFacts.resolveRoleId_name a w Ha Hup),
          (ResolverFacts.resolveRoleId_name b w Hb Hup).
  rewrite (find_same_test _ _ (roles (store w))
             (fun r => name_matches_case a b r Hcase)).
  destruct (find (name_matches b) (roles (store w))) as [r|];
    [|discriminate].
  intros E. inversion E; subst. split; [reflexivity|].
  apply ResolverFacts.resolveRoleId_identifier, BsonFacts.toHexString_regex.
Qed.

(** The role key is absent from the bag: the resolver fails, on an empty
    role collection with "Role 'undefined' not found" and otherwise on the
    first role with the TypeError of reading [toLowerCase] of
    [undefined]. *)
Lemma resolveRoleId_undefined `{unicode : CaseConversion} (w : World) :
  api_up w = true ->
  resolveRoleId None w
  = (inl (Error
            ("Failed to resolve role: "
             ++ match roles (store w) with
                | [] => "Role 'undefined' not found"
                | _ :: _ =>
                    "Cannot read properties of undefined (reading 'toLowerCase')"
                end)),
     after_request w (GET "/roles")).
Proof.
  intros Hup. unfold resolveRoleId, try_catch, bind, axios.
  cbn [show_opt].
  change (test_ObjectId_regex "undefined") with false. cbv beta iota.
  rewrite Hup. unfold Api.get_roles, Role_find, lift, after_request.
  rewrite Hup.
  destruct (roles (store w)); reflexivity.
Qed.

Lemma resolveRoleId_undefined_fails `{unicode : CaseConversion} (w : World) :
  exists e w', resolveRoleId None w = (inl e, w').
Proof.
  destruct (api_up w) eqn:Hup.
  - rewrite (resolveRoleId_undefined w Hup). eauto.
  - unfold resolveRoleId, try_catch, bind, axios. cbn [show_opt].
    change (test_ObjectId_regex "undefined") with false. cbv beta iota.
    rewrite Hup. unfold throw. eauto.
Qed.

(** *** create_user *)

Section WithCollaborators.
Context `{unicode : CaseConversion} `{SecretHasher} `{JsDate}.

Lemma post_users_invalid_store (b : UserFields.t) (s : Store) :
  validate_user (user_setters b) <> [] -> snd (post_users b s) = s.
Proof.
  intros Hv. unfold post_users, User_save.
  destruct (validate_user (user_setters b)); [congruence|].
  apply duplicate_key_branches.
Qed.

Lemma missing_required_invalid (b : UserFields.t) :
  UserFields.firstName b = None \/ UserFields.lastName b = None
  \/ UserFields.email b = None \/ UserFields.password b = None ->
  validate_user (user_setters b) <> [].
Proof.
  unfold validate_user.
  cbn [user_setters UserFields.firstName UserFields.lastName
       UserFields.email UserFields.password].
  intros [E|[E|[E|E]]]; rewrite E; cbn [option_map check_required];
    intros V.
  - discriminate V.
  - apply app_eq_nil in V. destruct V as [_ V]. discriminate V.
  - do 2 (apply app_eq_nil in V; destruct V as [_ V]). discriminate V.
  - do 3 (apply app_eq_nil in V; destruct V as [_ V]). discriminate V.
Qed.

(** X13.  [create_user] with one of the five keys its schema requires missing
    from the bag never creates an account, whatever the world: the Store
    after the call is the Store before it. *)
Theorem createUser_missing_required (a : Args.t) (w : World) :
  Args.firstName a = None \/ Args.lastName a = None
  \/ Args.email a = None \/ Args.password a = None
  \/ Args.role a = None ->
  store (snd (createUser (Some a) w)) = store w.
Proof.
  intros Hmiss. unfold createUser, try_catch, bind, prop, ret at 1.
  destruct (resolveRoleId (Args.role a) w) as [[e|rid] w1] eqn:R;
    pose proof (resolveRoleId_store _ _ _ _ R) as Hs.
  - exact Hs.
  - assert (Hfour : Args.firstName a = None \/ Args.lastName a = None
                    \/ Args.email a = None \/ Args.password a = None).
    { destruct Hmiss as [E|[E|[E|[E|E]]]]; auto.
      rewrite E in R. destruct (resolveRoleId_undefined_fails w)
        as (e & w' & R'). congruence. }
    pose proof (post_users_invalid_store
                  (user_body (from_opt Args.empty (Some a)) (Some rid))
                  (store w1)
                  (missing_required_invalid
                     (user_body (from_opt Args.empty (Some a)) (Some rid))
                     Hfour)) as Hp.
    unfold axios. destruct (api_up w1); [|exact Hs].
    destruct (post_users _ (store w1)) as [[st d|st err] s'];
      cbn [snd] in Hp; subst s'.
    + destruct d as [user|]; cbn [nonnull]; unfold ret, throw;
        [|exact Hs].
      destruct (Json.User.role user) as [|[|]]; exact Hs.
    + exact Hs.
Qed.

Lemma unique_id_found (l : list Role.t) (r : Role.t) :
  NoDup (map Role._id l) -> In r l ->
  find (role_has_id (Role._id r)) l = Some r.
Proof.
  intros Hnd Hin. induction l as [|x l IH]; simpl in *; [tauto|].
  inversion Hnd as [|? ? Hx Hrest]; subst.
  destruct Hin as [->|Hin].
  - unfold role_has_id. now rewrite N.eqb_refl.
  - destruct (role_has_id (Role._id r) x) eqn:E; [|now apply IH].
    apply N.eqb_eq in E. exfalso. apply Hx. rewrite E. now apply in_map.
Qed.

Lemma consistent_well_formed (s : Store) :
  consistent s -> (next_oid s < ObjectId_bound)%N -> well_formed s.
Proof.
  intros Hc Hb. repeat split;
    [apply (user_ids_below s Hc) | apply (role_ids_below s Hc) | exact Hb].
Qed.

Lemma saved_user_role (s : Store)
  (body : UserFields.t) (r : string) (oid : ObjectId) :
  UserFields.role body = Some r -> castObjectId r = Some oid ->
  User.role (saved_user s body) = oid.
Proof.
  intros Hr Hc.
  unfold saved_user, pre_save, set_password, new_user, cast_user_fields,
    user_setters.
  cbn [negb User.role UserUpdate.role UserFields.role].
  now rewrite Hr, Hc.
Qed.

(** X14.  [create_user] with the role given by name, in any case: the name is
    resolved with one fetch of the roles, the account is posted with the
    identifier of the role of that name, and the answer shows the stored
    account, its email trimmed and lowercased, under the role's own
    name. *)
Theorem createUser_by_role_name (a : Args.t) (name : string) (r : Role.t)
  (w : World) :
  api_up w = true ->
  consistent (store w) ->
  (next_oid (store w) < ObjectId_bound)%N ->
  Args.role a = Some name ->
  test_ObjectId_regex name = false ->
  find (name_matches name) (roles (store w)) = Some r ->
  validate_user
    (user_setters (user_body a (Some (toHexString (Role._id r))))) = [] ->
  (forall e, Args.email a = Some e ->
             existsb (user_has_email (toLowerCase (trim e)))
               (users (store w)) = false) ->
  let doc :=
    saved_user (store w) (user_body a (Some (toHexString (Role._id r)))) in
  exists w',
    createUser (Some a) w = (inr (reply_text (created_text doc (Role.name r))), w')
    /\ store w' = insert_user (store w) doc
    /\ User.role doc = Role._id r
    /\ Some (User.email doc)
       = option_map (fun e => toLowerCase (trim e)) (Args.email a)
    /\ requests w' = (requests w ++ [GET "/roles"; POST "/users"])%list.
Proof.
  intros Hup Hc Hb Hrole Hre Hfind Hv Hfree doc.
  set (body := user_body a (Some (toHexString (Role._id r)))) in *.
  pose proof (find_some _ _ Hfind) as [Hin _].
  assert (Hrid : (Role._id r < ObjectId_bound)%N).
  { pose proof (role_ids_below _ Hc) as Rb. rewrite Forall_forall in Rb.
    specialize (Rb r Hin). lia. }
  destruct (validate_user_nil body Hv) as (_ & _ & [e He] & _).
  assert (Hex : existsb (user_has_email (User.email doc)) (users (store w))
                = false).
  { unfold doc. rewrite (saved_user_email _ body e He). now apply Hfree. }
  destruct (post_users_then_get (store w) body
              (consistent_well_formed _ Hc Hb) Hv Hex) as [Hpost _].
  assert (Hdocrole : User.role doc = Role._id r).
  { apply (saved_user_role _ body (toHexString (Role._id r)));
      [reflexivity | now apply BsonFacts.castObjectId_toHexString]. }
  exists {| api_up := true; store := insert_user (store w) doc;
            requests := ((requests w ++ [GET "/roles"]) ++ [POST "/users"])%list |}.
  split; [|split; [reflexivity|split; [exact Hdocrole|split]]].
  - unfold createUser, try_catch, bind, prop, ret at 1.
    rewrite Hrole, (ResolverFacts.resolveRoleId_name name w Hre Hup), Hfind.
    unfold axios. cbn [after_request api_up store requests from_opt].
    rewrite Hup. fold body. rewrite Hpost. cbn [nonnull].
    unfold ret at 1.
    cbn [populated_without_password Json.User.role].
    fold doc. rewrite Hdocrole. unfold populate. cbn [insert_user roles].
    rewrite (unique_id_found _ r (role_ids_unique _ Hc) Hin).
    reflexivity.
  - cbn in He. unfold doc. rewrite (saved_user_email _ body e He).
    cbn in He |- *. now rewrite He.
  - cbn [requests]. now rewrite <- app_assoc.
Qed.

(** X15.  [create_user] with a role of the identifier shape that no stored role
    has: the account is created all the same, with that reference, and
    the tool then answers with its failure line, because the populated
    role of the answer is [null] and the summary reads its [name]. *)
Theorem createUser_with_unknown_identifier (a : Args.t) (rid : string)
  (oid : ObjectId) (w : World) :
  api_up w = true ->
  well_formed (store w) ->
  Args.role a = Some rid ->
  test_ObjectId_regex rid = true ->
  castObjectId rid = Some oid ->
  find (role_has_id oid) (roles (store w)) = None ->
  validate_user (user_setters (user_body a (Some rid))) = [] ->
  (forall e, Args.email a = Some e ->
             existsb (user_has_email (toLowerCase (trim e)))
               (users (store w)) = false) ->
  let doc := saved_user (store w) (user_body a (Some rid)) in
  exists w',
    createUser (Some a) w
    = (inr (reply_text
              "❌ Failed to create user: Cannot read properties of null (reading 'name')"),
       w')
    /\ store w' = insert_user (store w) doc
    /\ User.role doc = oid.
Proof.
  intros Hup Hwf Hrole Hre Hcast Hnone Hv Hfree doc.
  set (body := user_body a (Some rid)) in *.
  destruct (validate_user_nil body Hv) as (_ & _ & [e He] & _).
  assert (Hex : existsb (user_has_email (User.email doc)) (users (store w))
                = false).
  { unfold doc. rewrite (saved_user_email _ body e He). now apply Hfree. }
  destruct (post_users_then_get (store w) body Hwf Hv Hex) as [Hpost _].
  assert (Hdocrole : User.role doc = oid)
    by (apply (saved_user_role _ body rid); [reflexivity | exact Hcast]).
  exists {| api_up := true; store := insert_user (store w) doc;
            requests := (requests w ++ [POST "/users"])%list |}.
  split; [|split; [reflexivity | exact Hdocrole]].
  unfold createUser, try_catch, bind, prop, ret at 1.
  rewrite Hrole, (ResolverFacts.resolveRoleId_identifier rid w Hre).
  unfold axios. cbn [from_opt]. rewrite Hup. fold body. rewrite Hpost.
  cbn [nonnull]. unfold ret at 1.
  cbn [populated_without_password Json.User.role].
  fold doc. rewrite Hdocrole. unfold populate. cbn [insert_user roles].
  rewrite Hnone. reflexivity.
Qed.

(** *** update_user and delete_user *)

(** X16.  [update_user] with a role name that matches no role: the tool answers
    with the resolver's error, no PUT is issued, and the Store is as it
    was. *)
Theorem updateUser_unknown_role (a : Args.t) (name : string) (w : World) :
  api_up w = true ->
  Args.role a = Some name ->
  truthy name = true ->
  test_ObjectId_regex name = false ->
  find (name_matches name) (roles (store w)) = None ->
  exists w',
    updateUser (Some a) w
    = (inr (reply_text
              ("❌ Failed to update user: Failed to resolve role: Role '"
               ++ name ++ "' not found")), w')
    /\ store w' = store w
    /\ requests w' = (requests w ++ [GET "/roles"])%list.
Proof.
  intros Hup Hrole Ht Hre Hfind.
  exists (after_request w (GET "/roles")).
  split; [|split; reflexivity].
  unfold updateUser, try_catch, bind.
  rewrite Hrole. cbn [truthy_opt]. rewrite Ht.
  rewrite (ResolverFacts.resolveRoleId_name name w Hre Hup), Hfind.
  reflexivity.
Qed.

(** X17.  [update_user] with only an id and a role name: the name is resolved,
    the account is given the identifier of the role of that name and
    nothing else about it changes, and the answer shows the account under
    the role's own name. *)
Theorem updateUser_role_by_name (id name : string) (oid : ObjectId)
  (old : User.t) (r : Role.t) (w : World) :
  api_up w = true ->
  consistent (store w) ->
  (next_oid (store w) < ObjectId_bound)%N ->
  castObjectId id = Some oid ->
  find (user_has_id oid) (users (store w)) = Some old ->
  truthy name = true ->
  test_ObjectId_regex name = false ->
  find (name_matches name) (roles (store w)) = Some r ->
  exists w',
    updateUser (Some (Bags.role_change id name)) w
    = (inr (reply_text
              ("✅ User updated successfully!" ++ nl ++ nl
               ++ "Updated Details:" ++ nl
               ++ "- Name: " ++ User.firstName old ++ " "
               ++ User.lastName old ++ nl
               ++ "- Email: " ++ User.email old ++ nl
               ++ "- Role: " ++ Role.name r)), w')
    /\ find (user_has_id oid) (users (store w'))
       = Some (Bags.with_role_ref old (Role._id r))
    /\ roles (store w') = roles (store w)
    /\ List.length (users (store w')) = List.length (users (store w)).
Proof.
  intros Hup Hc Hb Hid Hold Ht Hre Hfind.
  pose proof (find_some _ _ Hfind) as [Hin _].
  assert (Hrid : (Role._id r < ObjectId_bound)%N).
  { pose proof (role_ids_below _ Hc) as Rb. rewrite Forall_forall in Rb.
    specialize (Rb r Hin). lia. }
  pose proof (BsonFacts.castObjectId_toHexString _ Hrid) as Hcast.
  pose proof (find_some _ _ Hold) as [_ Hpold].
  set (doc := Bags.with_role_ref old (Role._id r)).
  set (s' := with_users (store w)
               (update_first (user_has_id oid) doc (users (store w)))).
  assert (Hput : put_user id
                   (user_body (Bags.role_change id name)
                      (Some (toHexString (Role._id r))))
                   (store w)
                 = (Sent 200 (populated_without_password s' doc), s')).
  { unfold put_user, hash_body_password, User_findByIdAndUpdate,
      update_validate_user, check_role_cast, write_user, cast_user_fields,
      user_setters.
    cbn [user_body Bags.role_change Args.password Args.role
         Args.dateOfBirth Args.firstName Args.lastName Args.email
         Args.phone Args.isActive UserFields.password UserFields.role
         UserFields.dateOfBirth UserFields.firstName UserFields.lastName
         UserFields.email UserFields.phone UserFields.isActive
         truthy_opt option_map check_present check_date_cast app].
    rewrite Hid, Hcast. cbn [app]. rewrite Hold.
    cbn [apply_user_update User.email UserUpdate.email from_opt].
    rewrite String.eqb_refl. reflexivity. }
  exists {| api_up := true; store := s';
            requests := ((requests w ++ [GET "/roles"])
                         ++ [PUT ("/users/" ++ id)])%list |}.
  split; [|split; [|split]].
  - unfold updateUser, try_catch, bind.
    cbn [Bags.role_change Args.role Args.id truthy_opt show_opt].
    rewrite Ht.
    rewrite (ResolverFacts.resolveRoleId_name name w Hre Hup), Hfind.
    unfold ret at 1. unfold axios.
    cbn [after_request api_up store requests]. rewrite Hup.
    change (user_body
              {| Args.id := Some id; Args.firstName := None;
                 Args.lastName := None; Args.email := None;
                 Args.password := None; Args.phone := None;
                 Args.dateOfBirth := None; Args.role := Some name;
                 Args.isActive := None; Args.name := None;
                 Args.description := None; Args.permissions := None |}
              (Some (toHexString (Role._id r))))
      with (user_body (Bags.role_change id name)
              (Some (toHexString (Role._id r)))).
    rewrite Hput.
    cbn [populated_without_password Json.User.role].
    unfold populate. cbn [s' with_users roles doc Bags.with_role_ref User.role].
    rewrite (unique_id_found _ r (role_ids_unique _ Hc) Hin).
    reflexivity.
  - cbn [store s' with_users users].
    now apply (find_update_first_same _ _ _ old).
  - reflexivity.
  - cbn [store s' with_users users]. clear.
    induction (users (store w)) as [|x l IH]; simpl; [reflexivity|].
    destruct (user_has_id oid x); simpl; [reflexivity | now rewrite IH].
Qed.

(** X18.  [delete_user] on a stored account, then [get_users] with the same
    id: the first answers with its confirmation, the second with the
    failure line carrying the API's "User not found". *)
Theorem deleteUser_then_getUsers (id : string) (oid : ObjectId)
  (u : User.t) (w : World) :
  api_up w = true ->
  consistent (store w) ->
  truthy id = true ->
  castObjectId id = Some oid ->
  find (user_has_id oid) (users (store w)) = Some u ->
  exists w1 w2,
    deleteUser (Some (Bags.only_id id)) w
    = (inr (reply_text "✅ User deleted successfully!"), w1)
    /\ getUsers (Some (Bags.only_id id)) w1
       = (inr (reply_text "❌ Failed to retrieve users: User not found"), w2)
    /\ users (store w2) = remove_first (user_has_id oid) (users (store w))
    /\ ~ In u (users (store w2)).
Proof.
  intros Hup Hc Ht Hid Hf.
  assert (Hgone : find (user_has_id oid)
                    (remove_first (user_has_id oid) (users (store w))) = None).
  { apply (find_remove_first_unique User._id oid), (user_ids_unique _ Hc). }
  set (s1 := with_users (store w)
               (remove_first (user_has_id oid) (users (store w)))).
  exists {| api_up := true; store := s1;
            requests := (requests w ++ [DELETE ("/users/" ++ id)])%list |}.
  exists {| api_up := true; store := s1;
            requests := ((requests w ++ [DELETE ("/users/" ++ id)])
                         ++ [GET ("/users/" ++ id)])%list |}.
  split; [|split; [|split]].
  - unfold deleteUser, try_catch, bind, prop, ret at 1, axios.
    cbn [Bags.only_id Args.id show_opt]. rewrite Hup.
    unfold Api.delete_user, User_findByIdAndDelete. rewrite Hid, Hf.
    reflexivity.
  - unfold getUsers, try_catch, bind, prop, ret at 1.
    cbn [Bags.only_id Args.id truthy_opt show_opt]. rewrite Ht.
    unfold axios. cbn [api_up store requests].
    unfold get_user, User_findById. rewrite Hid.
    cbn [s1 with_users users]. rewrite Hgone. reflexivity.
  - reflexivity.
  - cbn [store s1 with_users users]. intros Hin.
    pose proof (find_none _ _ Hgone u Hin) as Hne.
    pose proof (find_some _ _ Hf) as [_ Hyes]. congruence.
Qed.

(** *** The tools called without their id, and the seed tool *)

(** X25.  The four tools whose schema requires [id], called with a bag that
    has none, against a reachable API: the path ends in [undefined], the
    API refuses the id with its cast error, the tool answers with its
    failure line carrying that error, and the Store is as it was.  (For
    [update_user] the bag has no truthy role, so that no role is
    resolved first.) *)
Theorem tools_without_id (a : Args.t) (w : World) :
  api_up w = true ->
  Args.id a = None ->
  deleteUser (Some a) w
  = (inr (reply_text ("❌ Failed to delete user: "
                      ++ error_message (id_cast_error "undefined" "User"))),
     after_request w (DELETE "/users/undefined"))
  /\ deleteRole (Some a) w
     = (inr (reply_text ("❌ Failed to delete role: "
                         ++ error_message (id_cast_error "undefined" "Role"))),
        after_request w (DELETE "/roles/undefined"))
  /\ updateRole (Some a) w
     = (inr (reply_text ("❌ Failed to update role: "
                         ++ error_message (id_cast_error "undefined" "Role"))),
        after_request w (PUT "/roles/undefined"))
  /\ (truthy_opt (Args.role a) = false ->
      updateUser (Some a) w
      = (inr (reply_text ("❌ Failed to update user: "
                          ++ error_message (id_cast_error "undefined" "User"))),
         after_request w (PUT "/users/undefined"))).
Proof.
  intros Hup Hid.
  assert (Hcast : castObjectId "undefined" = None) by reflexivity.
  split; [|split; [|split]].
  - unfold deleteUser, try_catch, bind, prop, ret at 1, axios.
    rewrite Hid. cbn [show_opt]. rewrite Hup.
    unfold Api.delete_user, User_findByIdAndDelete. rewrite Hcast.
    unfold after_request. rewrite Hup. reflexivity.
  - unfold deleteRole, try_catch, bind, prop, ret at 1, axios.
    rewrite Hid. cbn [show_opt]. rewrite Hup.
    unfold Api.delete_role, Role_findByIdAndDelete. rewrite Hcast.
    unfold after_request. rewrite Hup. reflexivity.
  - unfold updateRole, try_catch, bind, axios.
    rewrite Hid. cbn [show_opt]. rewrite Hup.
    unfold put_role, Role_findByIdAndUpdate. rewrite Hcast.
    unfold after_request. rewrite Hup. reflexivity.
  - intros Hrole.
    unfold updateUser, try_catch, bind. rewrite Hrole. unfold ret at 1.
    unfold axios. rewrite Hid. cbn [show_opt]. rewrite Hup.
    unfold put_user, User_findByIdAndUpdate. rewrite Hcast.
    unfold after_request. rewrite Hup. reflexivity.
Qed.

(** X26.  [seed_database] against a reachable API never fails, whatever the
    Store holds: it answers with the same confirmation, which counts two
    roles and one account, after the one POST, and the Store is the one
    the seed route leaves. *)
Theorem seedDatabase_answer (w : World) :
  api_up w = true ->
  seedDatabase w
  = (inr (reply_text
            ("✅ Database seeded successfully!" ++ nl ++ nl
             ++ "Seed data created successfully" ++ nl ++ nl
             ++ "Created:" ++ nl ++ "- 2 roles" ++ nl ++ "- 1 users"
             ++ nl ++ nl ++ "Default admin login:" ++ nl
             ++ "- Email: admin@example.com" ++ nl
             ++ "- Password: admin123")),
     {| api_up := true; store := snd (post_seed (store w));
        requests := (requests w ++ [POST "/seed"])%list |}).
Proof.
  intros Hup. unfold seedDatabase, try_catch, bind, axios. rewrite Hup.
  rewrite SeedFacts.post_seed_correct.
  destruct (seeded (store w)) as [[[adminRole userRole] adminUser] s3].
  reflexivity.
Qed.

(** *** create_role *)

(** X27.  [create_role] without [permissions], a key its schema lists as
    required: the bag is posted as it is, the API accepts it, and the role
    is created with no permissions; the answer shows an empty list. *)
Theorem createRole_without_permissions (a : Args.t) (n d : string)
  (w : World) :
  api_up w = true ->
  Args.name a = Some n ->
  truthy (trim n) = true ->
  Args.description a = Some d ->
  truthy d = true ->
  Args.permissions a = None ->
  existsb (role_has_name (trim n)) (roles (store w)) = false ->
  let role :=
    {| Role._id := next_oid (store w); Role.name := trim n;
       Role.description := d; Role.permissions := [];
       Role.isActive := from_opt true (Args.isActive a) |} in
  (forall tool, In tool Listing.ListTools ->
                Listing.name tool = "create_role" ->
                In "permissions" (Listing.required tool))
  /\ createRole (Some a) w
     = (inr (reply_text
               ("✅ Role created successfully!" ++ nl ++ nl ++ "Details:" ++ nl
                ++ "- Name: " ++ trim n ++ nl
                ++ "- Description: " ++ d ++ nl
                ++ "- Permissions: " ++ nl
                ++ "- ID: " ++ toHexString (next_oid (store w)))),
        {| api_up := true; store := insert_role (store w) role;
           requests := (requests w ++ [POST "/roles"])%list |}).
Proof.
  intros Hup Hn Htn Hd Htd Hp Hfree role. split.
  - intros tool Hin Hname. cbn [Listing.ListTools In] in Hin.
    repeat (destruct Hin as [<-|Hin];
            [first [discriminate Hname
                   | do 2 right; left; reflexivity]|]).
    contradiction.
  - assert (Hpost : post_roles (role_body a) (store w)
                    = (Sent 201 (role_toJSON role),
                       insert_role (store w) role)).
    { unfold post_roles, Role_save, validate_role, role_setters, role_body.
      cbn [RoleFields.name RoleFields.description RoleFields.permissions
           RoleFields.isActive].
      rewrite Hn, Hd, Hp.
      cbn [option_map check_required check_permissions app].
      rewrite Htn, Htd. cbn [app].
      unfold new_role.
      cbn [RoleFields.name RoleFields.description RoleFields.permissions
           RoleFields.isActive from_opt Role.name].
      rewrite Hfree. reflexivity. }
    unfold createRole, try_catch, bind, axios. cbn [from_opt].
    rewrite Hup, Hpost. reflexivity.
Qed.

End WithCollaborators.

Import Examples.

Lemma resolveRoleId_case_and_again_witness :
  let w := Scenario.seeded_world in
  let w' := after_request w (GET "/roles") in
  let id := "000000000000000000000001" in
  toLowerCase "Admin" = toLowerCase "ADMIN"
  /\ resolveRoleId (Some "Admin") w = (inr id, w')
  /\ resolveRoleId (Some "ADMIN") w = (inr id, w')
  /\ resolveRoleId (Some id) w' = (inr id, w').
Proof.
  intros w w' id. split; [reflexivity|]. split; [reflexivity|].
  exact (resolveRoleId_case_and_again (unicode := ascii_case) "Admin" "ADMIN" id w w'
           eq_refl eq_refl eq_refl eq_refl eq_refl).
Defined.

Lemma createUser_missing_required_witness :
  let a := Bags.role_change "000000000000000000000003" "admin" in
  Args.email a = None
  /\ store (snd (createUser (Some a) Scenario.seeded_world))
     = store Scenario.seeded_world.
Proof.
  intros a. split; [reflexivity|].
  apply (createUser_missing_required (unicode := ascii_case) a Scenario.seeded_world).
  left. reflexivity.
Defined.

Lemma createUser_by_role_name_witness :
  let w := Scenario.seeded_world in
  let r := new_role 1%N seed_admin_role in
  let doc :=
    saved_user (store w)
      (user_body Scenario.john (Some (toHexString (Role._id r)))) in
  consistent (store w)
  /\ find (name_matches "Admin") (roles (store w)) = Some r
  /\ exists w',
       createUser (Some Scenario.john) w
       = (inr (reply_text (created_text doc "admin")), w')
       /\ User.email doc = "john@x.com"
       /\ User.role doc = 1%N.
Proof.
  intros w r doc.
  split; [exact seeded_world_consistent|]. split; [reflexivity|].
  assert (F : forall e, Args.email Scenario.john = Some e ->
                        existsb (user_has_email (toLowerCase (trim e)))
                          (users (store w)) = false).
  { intros e He. injection He as <-. reflexivity. }
  destruct (createUser_by_role_name (unicode := ascii_case) Scenario.john "Admin" r w eq_refl
              seeded_world_consistent eq_refl eq_refl eq_refl eq_refl
              eq_refl F)
    as (w' & Hcall & _ & Hrole & _).
  exists w'. split; [exact Hcall|]. split; [reflexivity | exact Hrole].
Defined.

Lemma createUser_with_unknown_identifier_witness :
  let w := Scenario.seeded_world in
  let rid := "0000000000000000000000ff" in
  let a := Scenario.with_role Scenario.john rid in
  well_formed (store w)
  /\ find (role_has_id 255%N) (roles (store w)) = None
  /\ exists w',
       createUser (Some a) w
       = (inr (reply_text
                 "❌ Failed to create user: Cannot read properties of null (reading 'name')"),
          w')
       /\ List.length (users (store w')) = 2.
Proof.
  intros w rid a.
  assert (W : well_formed (store w)) by (repeat split; repeat constructor).
  split; [exact W|]. split; [reflexivity|].
  assert (F : forall e, Args.email a = Some e ->
                        existsb (user_has_email (toLowerCase (trim e)))
                          (users (store w)) = false).
  { intros e He. injection He as <-. reflexivity. }
  destruct (createUser_with_unknown_identifier (unicode := ascii_case)
              a rid 255%N w eq_refl W
              eq_refl eq_refl eq_refl eq_refl eq_refl F)
    as (w' & Hcall & Hstore & _).
  exists w'. split; [exact Hcall|]. rewrite Hstore. reflexivity.
Defined.

Lemma updateUser_unknown_role_witness :
  let w := Scenario.seeded_world in
  let a := Bags.role_change "000000000000000000000003" "manager" in
  find (name_matches "manager") (roles (store w)) = None
  /\ exists w',
       updateUser (Some a) w
       = (inr (reply_text
                 "❌ Failed to update user: Failed to resolve role: Role 'manager' not found"),
          w')
       /\ store w' = store w.
Proof.
  intros w a. split; [reflexivity|].
  destruct (updateUser_unknown_role (unicode := ascii_case) a "manager" w eq_refl eq_refl eq_refl
              eq_refl eq_refl)
    as (w' & Hcall & Hstore & _).
  exists w'. split; [exact Hcall | exact Hstore].
Defined.

Lemma updateUser_role_by_name_witness :
  let w := Scenario.seeded_world in
  let id := "000000000000000000000003" in
  let old := new_user 3%N (seed_admin_user 1%N) in
  let r := new_role 2%N seed_user_role in
  find (user_has_id 3%N) (users (store w)) = Some old
  /\ find (name_matches "USER") (roles (store w)) = Some r
  /\ exists w',
       fst (updateUser (Some (Bags.role_change id "USER")) w)
       = fst (updateUser (Some (Bags.role_change id "user")) w)
       /\ snd (updateUser (Some (Bags.role_change id "USER")) w) = w'
       /\ find (user_has_id 3%N) (users (store w'))
          = Some (Bags.with_role_ref old 2%N).
Proof.
  intros w id old r. split; [reflexivity|]. split; [reflexivity|].
  destruct (updateUser_role_by_name (unicode := ascii_case) id "USER" 3%N old r w eq_refl
              seeded_world_consistent eq_refl eq_refl eq_refl eq_refl
              eq_refl eq_refl)
    as (w' & Hcall & Hfind & _).
  exists w'. split; [reflexivity|]. split; [now rewrite Hcall | exact Hfind].
Defined.

Lemma deleteUser_then_getUsers_witness :
  let w := Scenario.seeded_world in
  let id := "000000000000000000000003" in
  let u := new_user 3%N (seed_admin_user 1%N) in
  find (user_has_id 3%N) (users (store w)) = Some u
  /\ exists w1 w2,
       deleteUser (Some (Bags.only_id id)) w
       = (inr (reply_text "✅ User deleted successfully!"), w1)
       /\ getUsers (Some (Bags.only_id id)) w1
          = (inr (reply_text "❌ Failed to retrieve users: User not found"),
             w2)
       /\ users (store w2) = [].
Proof.
  intros w id u. split; [reflexivity|].
  destruct (deleteUser_then_getUsers (unicode := ascii_case) id 3%N u w eq_refl
              seeded_world_consistent eq_refl eq_refl eq_refl)
    as (w1 & w2 & Hdel & Hget & Husers & _).
  exists w1, w2. split; [exact Hdel|]. split; [exact Hget|].
  rewrite Husers. reflexivity.
Defined.

Lemma tools_without_id_witness :
  let w := Scenario.seeded_world in
  let a := Args.empty in
  deleteUser (Some a) w
  = (inr (reply_text ("❌ Failed to delete user: "
                      ++ error_message (id_cast_error "undefined" "User"))),
     after_request w (DELETE "/users/undefined"))
  /\ updateUser (Some a) w
     = (inr (reply_text ("❌ Failed to update user: "
                         ++ error_message (id_cast_error "undefined" "User"))),
        after_request w (PUT "/users/undefined")).
Proof.
  intros w a.
  destruct (tools_without_id (unicode := ascii_case) a w eq_refl eq_refl) as (Hdel & _ & _ & Hupd).
  split; [exact Hdel | exact (Hupd eq_refl)].
Defined.

Lemma seedDatabase_answer_witness :
  let w := Scenario.admin_role_deleted in
  api_up w = true
  /\ map Role.name (roles (store w)) = ["user"]
  /\ map Role.name (roles (store (snd (seedDatabase w)))) = ["user"; "admin"]
  /\ exists s, fst (seedDatabase w) = inr (reply_text s).
Proof.
  intros w. split; [reflexivity|]. split; [reflexivity|].
  rewrite (seedDatabase_answer (unicode := ascii_case) w eq_refl).
  split; [reflexivity|]. eexists. reflexivity.
Defined.

Lemma createRole_without_permissions_witness :
  let w := Scenario.seeded_world in
  let a :=
    {| Args.id := None; Args.firstName := None; Args.lastName := None;
       Args.email := None; Args.password := None; Args.phone := None;
       Args.dateOfBirth := None; Args.role := None; Args.isActive := None;
       Args.name := Some " auditor "; Args.description := Some "Reads all";
       Args.permissions := None |} in
  existsb (role_has_name (trim " auditor ")) (roles (store w)) = false
  /\ map Role.name (roles (store (snd (createRole (Some a) w))))
     = ["admin"; "user"; "auditor"]
  /\ map Role.permissions (roles (store (snd (createRole (Some a) w))))
     = [["read"; "write"; "delete"; "admin"]; ["read"]; []].
Proof.
  intros w a. split; [reflexivity|].
  destruct (createRole_without_permissions a " auditor " "Reads all" w
              eq_refl eq_refl eq_refl eq_refl eq_refl eq_refl eq_refl)
    as [_ Hcall].
  rewrite Hcall. split; reflexivity.
Defined.

End ToolFacts.

(* ===================================================================== *)
(** ** The tools that read                                                *)
(* ===================================================================== *)

Module ReadFacts.
Import JsString Bson Schema Model Api Mcp Spec Observe.

Lemma only_reads_refl (w : World) : only_reads w w.
Proof.
  split; [reflexivity|]. split; [reflexivity|].
  exists []. split; [now rewrite app_nil_r | reflexivity].
Qed.

Lemma only_reads_trans (w1 w2 w3 : World) :
  only_reads w1 w2 -> only_reads w2 w3 -> only_reads w1 w3.
Proof.
  intros (S1 & U1 & l1 & R1 & G1) (S2 & U2 & l2 & R2 & G2).
  split; [congruence|]. split; [congruence|].
  exists (l1 ++ l2)%list. split.
  - now rewrite R2, R1, app_assoc.
  - now rewrite forallb_app, G1, G2.
Qed.

Lemma read_only_ret {A : Type} (a : A) : read_only (ret a).
Proof. intros w. apply only_reads_refl. Qed.

Lemma read_only_throw {A : Type} (e : JsError) : read_only (@throw A e).
Proof. intros w. apply only_reads_refl. Qed.

Lemma read_only_lift {A : Type} (r : JsError + A) : read_only (lift r).
Proof. intros w. apply only_reads_refl. Qed.

Lemma read_only_prop {A : Type} (args : option Args.t) (key : string)
  (get : Args.t -> A) : read_only (prop args key get).
Proof. destruct args; [apply read_only_ret | apply read_only_throw]. Qed.

Lemma read_only_role_prop (key : string) (get : Json.RoleRef.t -> string)
  (r : Json.RoleField) : read_only (role_prop key get r).
Proof.
  destruct r as [|[|]]; first [apply read_only_ret | apply read_only_throw].
Qed.

Lemma read_only_bind {A B : Type} (m : Js A) (k : A -> Js B) :
  read_only m -> (forall a, read_only (k a)) -> read_only (bind m k).
Proof.
  intros Hm Hk w. unfold bind. specialize (Hm w).
  destruct (m w) as [[e|a] w1]; cbn [snd] in *; [exact Hm|].
  exact (only_reads_trans _ _ _ Hm (Hk a w1)).
Qed.

Lemma read_only_try_catch {A : Type} (body : Js A) (handler : JsError -> Js A) :
  read_only body -> (forall e, read_only (handler e)) ->
  read_only (try_catch body handler).
Proof.
  intros Hm Hk w. unfold try_catch. specialize (Hm w).
  destruct (body w) as [[e|a] w1]; cbn [snd] in *; [|exact Hm].
  exact (only_reads_trans _ _ _ Hm (Hk e w1)).
Qed.

(** A GET of a route that leaves the Store as it is. *)
Lemma read_only_GET {A : Type} (path : string) (route : Route A) :
  (forall s, snd (route s) = s) -> read_only (axios (GET path) route).
Proof.
  intros Hroute w. unfold axios.
  destruct (api_up w) eqn:Hup.
  - specialize (Hroute (store w)).
    destruct (route (store w)) as [[st d|st e] s']; cbn [snd] in *; subst s';
      (split; [reflexivity|]; split; [now rewrite Hup|];
       exists [GET path]; now split).
  - cbn [snd]. split; [reflexivity|]. split; [now rewrite Hup|].
    exists [GET path]; now split.
Qed.

Lemma get_roles_reads (s : Store) : snd (get_roles s) = s.
Proof. reflexivity. Qed.

Lemma get_role_reads (id : string) (s : Store) : snd (get_role id s) = s.
Proof.
  unfold get_role. now destruct (Role_findById s id) as [e|[r|]].
Qed.

Lemma get_users_reads (s : Store) : snd (get_users s) = s.
Proof. reflexivity. Qed.

Lemma resolveRoleId_read_only `{unicode : CaseConversion} (r : option string) :
  read_only (resolveRoleId r).
Proof.
  unfold resolveRoleId. apply read_only_try_catch.
  - destruct (test_ObjectId_regex (show_opt r)); [apply read_only_ret|].
    apply read_only_bind; [apply read_only_GET, get_roles_reads|].
    intros roles. apply read_only_bind; [apply read_only_lift|].
    intros [role|]; [apply read_only_ret | apply read_only_throw].
  - intros e. apply read_only_throw.
Qed.

Section WithCollaborators.
Context `{unicode : CaseConversion} `{SecretHasher} `{JsDate}.

Lemma get_user_reads (id : string) (s : Store) : snd (get_user id s) = s.
Proof.
  unfold get_user. now destruct (User_findById s id) as [e|[u|]].
Qed.

(** X19.  [get_users] and [get_roles], on every argument bag and in every world,
    whatever they answer: the Store and the reachability of the API are
    as before, and the requests they issued are GETs.  The same holds of
    the resolver of role names. *)
Theorem get_tools_read_only (args : option Args.t)
  (roleIdentifier : option string) (w : World) :
  only_reads w (snd (getUsers args w))
  /\ only_reads w (snd (getRoles args w))
  /\ only_reads w (snd (resolveRoleId roleIdentifier w)).
Proof.
  split; [|split].
  - revert w. unfold getUsers. apply read_only_try_catch.
    + apply read_only_bind; [apply read_only_prop|]. intros id.
      destruct (truthy_opt id).
      * apply read_only_bind; [apply read_only_GET, get_user_reads|].
        intros user.
        apply read_only_bind; [apply read_only_role_prop|]. intros roleName.
        apply read_only_bind; [apply read_only_role_prop|]. intros d.
        apply read_only_ret.
      * apply read_only_bind; [apply read_only_GET, get_users_reads|].
        intros users. destruct (Nat.eqb _ 0); [apply read_only_ret|].
        apply read_only_bind; [apply read_only_lift|]. intros l.
        apply read_only_ret.
    + intros e. apply read_only_ret.
  - revert w. unfold getRoles. apply read_only_try_catch.
    + apply read_only_bind; [apply read_only_prop|]. intros id.
      destruct (truthy_opt id).
      * apply read_only_bind; [apply read_only_GET, get_role_reads|].
        intros role. apply read_only_ret.
      * apply read_only_bind; [apply read_only_GET, get_roles_reads|].
        intros roles. destruct (Nat.eqb _ 0); apply read_only_ret.
    + intros e. apply read_only_ret.
  - apply resolveRoleId_read_only.
Qed.


End WithCollaborators.

(** X21.  Where the listing declares [permissions], the values it allows for
    the items are the values the [enum] validator of roleSchema
    accepts. *)
Theorem listed_permissions (tool : Listing.ToolSchema) (p : string) :
  In tool Listing.ListTools ->
  In "permissions" (Listing.properties tool) ->
  (In p (Listing.permissions_enum tool) <-> in_enum p = true).
Proof.
  assert (Henum : In p permission_enum <-> in_enum p = true).
  { unfold in_enum. rewrite existsb_exists. split.
    - intros Hin. exists p. split; [exact Hin | apply String.eqb_refl].
    - intros (q & Hin & Hq). apply String.eqb_eq in Hq. now subst q. }
  intros Htool Hprop. cbn [Listing.ListTools In] in Htool.
  repeat (destruct Htool as [<-|Htool];
          [first [exact Henum
                 | exfalso; cbn [Listing.properties In] in Hprop;
                   repeat (destruct Hprop as [Hprop|Hprop];
                           [discriminate Hprop|]);
                   exact Hprop]|]).
  contradiction.
Qed.

Lemma listed_permissions_witness :
  let tool := nth 4 Listing.ListTools
                {| Listing.name := ""; Listing.properties := [];
                   Listing.required := []; Listing.permissions_enum := [] |} in
  Listing.name tool = "create_role"
  /\ In tool Listing.ListTools
  /\ In "permissions" (Listing.properties tool)
  /\ (In "write" (Listing.permissions_enum tool) <-> in_enum "write" = true)
  /\ (In "deploy" (Listing.permissions_enum tool) <-> in_enum "deploy" = true).
Proof.
  intros tool.
  assert (Hin : In tool Listing.ListTools)
    by (do 4 right; left; reflexivity).
  assert (Hprop : In "permissions" (Listing.properties tool))
    by (do 2 right; left; reflexivity).
  split; [reflexivity|]. split; [exact Hin|]. split; [exact Hprop|].
  split.
  - exact (listed_permissions tool "write" Hin Hprop).
  - exact (listed_permissions tool "deploy" Hin Hprop).
Defined.

End ReadFacts.

(* ===================================================================== *)
(** ** The test scripts                                                   *)
(* ===================================================================== *)

Module ScriptFacts.
Import JsString Bson Schema Model Api Mcp Spec Observe Scripts.
Import Script (Line, log, error, Run, world, console, await, print, forEach).

(** *** Steps of a script *)

Lemma bind_print {B : Type} (l : Line) (k : unit -> Script.t B) (r : Run) :
  Script.bind (print l) k r
  = k tt {| world := world r; console := (console r ++ [l])%list |}.
Proof. reflexivity. Qed.

Lemma bind_ret {A B : Type} (a : A) (k : A -> Script.t B) (r : Run) :
  Script.bind (Script.ret a) k r = k a r.
Proof. reflexivity. Qed.

Lemma bind_assoc {A B C : Type} (m : Script.t A) (k : A -> Script.t B)
  (k' : B -> Script.t C) (r : Run) :
  Script.bind (Script.bind m k) k' r
  = Script.bind m (fun x => Script.bind (k x) k') r.
Proof. unfold Script.bind. now destruct (m r) as [[e|a] r']. Qed.

Lemma bind_forEach {A B : Type} (line : A -> Line) (l : list A)
  (k : unit -> Script.t B) (r : Run) :
  Script.bind (forEach line l) k r
  = k tt {| world := world r;
            console := (console r ++ map line l)%list |}.
Proof.
  revert r. induction l as [|x l IH]; intros r.
  - cbn [forEach map]. rewrite app_nil_r. now destruct r.
  - cbn [forEach map]. unfold Script.bind at 1. rewrite bind_print.
    specialize (IH {| world := world r;
                      console := (console r ++ [line x])%list |}).
    unfold Script.bind in IH |- *.
    destruct (forEach line l _) as [[e|[]] r'] eqn:E.
    + exfalso. clear IH. revert E. generalize (console r ++ [line x])%list.
      generalize (world r). clear. induction l as [|y l IH]; intros w c.
      * discriminate.
      * cbn [forEach]. rewrite bind_print. cbn [world console]. apply IH.
    + rewrite IH. cbn [world console]. now rewrite <- app_assoc.
Qed.

Lemma bind_request {A B : Type} (request : Request) (route : Route A)
  (k : A -> Script.t B) (r : Run) :
  api_up (world r) = true ->
  Script.bind (await (axios request route)) k r
  = let after s' :=
      {| world := {| api_up := true; store := s';
                     requests := (requests (world r) ++ [request])%list |};
         console := console r |} in
    match route (store (world r)) with
    | (Sent _ data, s') => k data (after s')
    | (Failed status e, s') =>
        (inl (AxiosError ("Request failed with status code "
                          ++ show_nat status) (Some (Some e))),
         after s')
    end.
Proof.
  intros Hup. unfold Script.bind, await, axios. rewrite Hup.
  now destruct (route (store (world r))) as [[st d|st e] s'].
Qed.

Lemma bind_get_roles {B : Type} (request : Request)
  (k : list Json.Role.t -> Script.t B) (r : Run) :
  api_up (world r) = true ->
  Script.bind (await (axios request get_roles)) k r
  = k (map role_toJSON (roles (store (world r))))
      {| world := {| api_up := true; store := store (world r);
                     requests := (requests (world r) ++ [request])%list |};
         console := console r |}.
Proof. intros Hup. now rewrite bind_request. Qed.

Lemma bind_get_users {B : Type} (request : Request)
  (k : list Json.User.t -> Script.t B) (r : Run) :
  api_up (world r) = true ->
  Script.bind (await (axios request get_users)) k r
  = k (map (populated_without_password (store (world r)))
         (users (store (world r))))
      {| world := {| api_up := true; store := store (world r);
                     requests := (requests (world r) ++ [request])%list |};
         console := console r |}.
Proof. intros Hup. now rewrite bind_request. Qed.

Lemma bind_request_down {A B : Type} (request : Request) (route : Route A)
  (k : A -> Script.t B) (r : Run) :
  api_up (world r) = false ->
  Script.bind (await (axios request route)) k r
  = (inl (AxiosError "connect ECONNREFUSED 127.0.0.1:3000" None),
     {| world := {| api_up := false; store := store (world r);
                    requests := (requests (world r) ++ [request])%list |};
        console := console r |}).
Proof.
  intros Hup. unfold Script.bind, await, axios. now rewrite Hup.
Qed.

Lemma last_line (c : list Line) (l d : Line) : last (c ++ [l]) d = l.
Proof. apply last_last. Qed.

Section WithCollaborators.
Context `{unicode : CaseConversion} `{SecretHasher} `{JsDate}.

(** *** quickTest *)

Lemma quickTest_with_roles (r : Run) :
  api_up (world r) = true ->
  roles (store (world r)) <> [] ->
  quickTest r
  = (inr tt,
     {| world := {| api_up := true; store := store (world r);
                    requests := ((requests (world r) ++ [GET "/roles"])
                                 ++ [GET "/users"])%list |};
        console :=
          (((console r ++ [log "Testing API..."])
            ++ [log ("✅ API working! Found "
                     ++ show_nat (List.length (roles (store (world r))))
                     ++ " roles")])
           ++ [log ("✅ Found "
                    ++ show_nat (List.length (users (store (world r))))
                    ++ " users")])%list |}).
Proof.
  intros Hup Hroles. unfold quickTest, Script.try_catch.
  rewrite bind_print. cbv beta.
  rewrite bind_request by exact Hup.
  unfold get_roles, Role_find. cbv zeta. cbn [world console].
  rewrite bind_print. cbv beta.
  rewrite length_map.
  destruct (roles (store (world r))) as [|x l] eqn:E; [contradiction|].
  cbn [List.length Nat.eqb]. rewrite bind_ret. cbv beta.
  rewrite bind_request by reflexivity.
  cbn [get_users world console store requests].
  unfold print. cbn [world console]. now rewrite length_map.
Qed.

Lemma quickTest_without_roles (r : Run) :
  api_up (world r) = true ->
  roles (store (world r)) = [] ->
  exists c,
    quickTest r
    = (inr tt,
       {| world := {| api_up := true;
                      store := snd (post_seed (store (world r)));
                      requests := (((requests (world r) ++ [GET "/roles"])
                                    ++ [POST "/seed"])
                                   ++ [GET "/users"])%list |};
          console := c |}).
Proof.
  intros Hup Hroles. unfold quickTest, Script.try_catch.
  rewrite bind_print. cbv beta.
  rewrite bind_request by exact Hup.
  unfold get_roles, Role_find. cbv zeta. cbn [world console].
  rewrite bind_print. cbv beta.
  rewrite Hroles. cbn [map List.length Nat.eqb].
  unfold Script.bind at 1. rewrite bind_print. cbv beta.
  rewrite bind_request by reflexivity.
  cbn [world store console requests].
  rewrite SeedFacts.post_seed_correct.
  destruct (seeded (store (world r))) as [[[a u] x] s3].
  cbn [seed_answer snd]. unfold print at 1. cbn [world console].
  rewrite bind_request by reflexivity.
  cbn [get_users world console store requests].
  unfold print. cbn [world console]. eexists. reflexivity.
Qed.

Lemma seeded_has_roles (s : Store) : roles (snd (post_seed s)) <> [].
Proof.
  rewrite SeedFacts.post_seed_correct.
  pose proof (SeedFacts.seeded_found s) as Hf.
  destruct (seeded s) as [[[a u] x] s3]. cbn [snd].
  destruct Hf as (Ha & _). intros E. rewrite E in Ha. discriminate.
Qed.

(** X22.  [quickTest] against a reachable API seeds the Store exactly when it
    holds no role, and leaves it as it is otherwise; either way some role
    is stored afterwards, so that a second execution issues the two GETs
    only, changes nothing, and prints the counts of the roles and the
    accounts. *)
Theorem quickTest_again (r : Run) :
  api_up (world r) = true ->
  let r1 := snd (quickTest r) in
  let s1 := store (world r1) in
  (roles (store (world r)) = [] -> s1 = snd (post_seed (store (world r))))
  /\ (roles (store (world r)) <> [] -> s1 = store (world r))
  /\ roles s1 <> []
  /\ quickTest r1
     = (inr tt,
        {| world := {| api_up := true; store := s1;
                       requests := ((requests (world r1) ++ [GET "/roles"])
                                    ++ [GET "/users"])%list |};
           console :=
             (((console r1 ++ [log "Testing API..."])
               ++ [log ("✅ API working! Found "
                        ++ show_nat (List.length (roles s1)) ++ " roles")])
              ++ [log ("✅ Found " ++ show_nat (List.length (users s1))
                       ++ " users")])%list |}).
Proof.
  intros Hup r1 s1.
  assert (Hfirst : api_up (world r1) = true
                   /\ (roles (store (world r)) = [] ->
                       s1 = snd (post_seed (store (world r))))
                   /\ (roles (store (world r)) <> [] -> s1 = store (world r))).
  { subst s1 r1. destruct (roles (store (world r))) as [|x l] eqn:E.
    - destruct (quickTest_without_roles r Hup E) as [c Hq]. rewrite Hq.
      split; [reflexivity|]. split; [reflexivity|]. intros Hne. now elim Hne.
    - rewrite (quickTest_with_roles r Hup) by (rewrite E; discriminate).
      split; [reflexivity|]. split; [discriminate | reflexivity]. }
  destruct Hfirst as (Hup1 & Hempty & Hsome).
  assert (Hroles : roles s1 <> []).
  { destruct (roles (store (world r))) as [|x l] eqn:E.
    - rewrite (Hempty eq_refl). apply seeded_has_roles.
    - rewrite Hsome by discriminate. rewrite E. discriminate. }
  split; [exact Hempty|]. split; [exact Hsome|]. split; [exact Hroles|].
  exact (quickTest_with_roles r1 Hup1 Hroles).
Qed.

(** *** testPrompts *)

Lemma post_users_refused (s s' : Store) (body : UserFields.t) (st : nat)
  (e : string) :
  post_users body s = (Failed st e, s') -> st = 400 /\ s' = s.
Proof.
  unfold post_users. destruct (User_save s body) as [err|[doc s1]];
    [|discriminate].
  destruct (error_code err) as [[|p]|];
    try (intros E; injection E as <- _ <-; now split).
  repeat (destruct p; try (intros E; injection E as <- _ <-; now split)).
Qed.

Lemma post_roles_refused (s s' : Store) (body : RoleFields.t) (st : nat)
  (e : string) :
  post_roles body s = (Failed st e, s') -> st = 400 /\ s' = s.
Proof.
  unfold post_roles. destruct (Role_save s body) as [err|[doc s1]];
    [|discriminate].
  destruct (error_code err) as [[|p]|];
    try (intros E; injection E as <- _ <-; now split).
  repeat (destruct p; try (intros E; injection E as <- _ <-; now split)).
Qed.

Lemma bind_nonnull {A B : Type} (data : option A) (key : string)
  (k : A -> Script.t B) (r : Run) :
  Script.bind (await (nonnull data key)) k r
  = match data with
    | Some d => k d {| world := world r; console := console r |}
    | None => (inl (cannot_read "null" key),
               {| world := world r; console := console r |})
    end.
Proof. now destruct data. Qed.

(** What one execution against a reachable API leaves, by what the two
    POSTs answer. *)
Lemma testPrompts_outcome (r : Run) :
  api_up (world r) = true ->
  let s := store (world r) in
  let r' := snd (testPrompts r) in
  let created (d : Json.Role.t) :=
    last (console r') (log "")
    = log ("   ✅ Created role: " ++ Json.Role.name d) in
  let fetched := ((requests (world r) ++ [GET "/users"])
                  ++ [GET "/roles"])%list in
  api_up (world r') = true
  /\ match find is_admin (map role_toJSON (roles s)) with
     | Some adminRole =>
         match post_users (test_user (Json.Role._id adminRole)) s with
         | (Failed _ _, s') | (Sent _ None, s') =>
             store (world r') = s' /\ ends_in_error (console r')
         | (Sent _ (Some _), s') =>
             match post_roles editor_role s' with
             | (Failed _ _, s'') =>
                 store (world r') = s'' /\ ends_in_error (console r')
             | (Sent _ d, s'') =>
                 store (world r') = s'' /\ created d
                 /\ requests (world r')
                    = ((fetched ++ [POST "/users"]) ++ [POST "/roles"])%list
             end
         end
     | None =>
         match post_roles editor_role s with
         | (Failed _ _, s'') =>
             store (world r') = s'' /\ ends_in_error (console r')
         | (Sent _ d, s'') =>
             store (world r') = s'' /\ created d
             /\ requests (world r') = (fetched ++ [POST "/roles"])%list
         end
     end.
Proof.
  intros Hup s r' created fetched. subst r' created fetched.
  unfold testPrompts.
  rewrite bind_print. cbv beta. unfold Script.try_catch.
  rewrite bind_print. cbv beta.
  rewrite bind_get_users by exact Hup. cbn [world console store requests].
  rewrite bind_print. cbv beta. rewrite bind_forEach. cbv beta.
  rewrite bind_print. cbv beta. cbn [world console].
  rewrite bind_get_roles by reflexivity.
  cbn [world console store requests]. fold s.
  rewrite bind_print. cbv beta. rewrite bind_forEach. cbv beta.
  rewrite bind_print. cbv beta. cbn [world console].
  destruct (find is_admin (map role_toJSON (roles s))) as [adminRole|].
  - rewrite bind_assoc.
    rewrite bind_request by reflexivity. cbn [world console store requests].
    destruct (post_users (test_user (Json.Role._id adminRole)) s)
      as [[st [u|]|st e] s'].
    + rewrite bind_assoc, bind_nonnull. rewrite bind_print. cbv beta.
      rewrite bind_print. cbv beta. cbn [world console].
      rewrite bind_request by reflexivity. cbn [world console store requests].
      destruct (post_roles editor_role s') as [[st2 d|st2 e2] s''].
      * unfold print. cbn [snd world console store api_up requests].
        split; [reflexivity|]. split; [reflexivity|].
        split; [apply last_line | reflexivity].
      * unfold print. cbn [snd world console store api_up].
        split; [reflexivity|]. split; [reflexivity|].
        eexists. apply last_line.
    + rewrite bind_assoc, bind_nonnull.
      unfold print. cbn [snd world console store api_up].
      split; [reflexivity|]. split; [reflexivity|].
      eexists. apply last_line.
    + unfold print. cbn [snd world console store api_up].
      split; [reflexivity|]. split; [reflexivity|].
      eexists. apply last_line.
  - rewrite bind_ret. cbv beta. rewrite bind_print. cbv beta.
    rewrite bind_request by reflexivity. cbn [world console store requests].
    destruct (post_roles editor_role s) as [[st2 d|st2 e2] s''].
    + unfold print. cbn [snd world console store api_up requests].
      split; [reflexivity|]. split; [reflexivity|].
      split; [apply last_line | reflexivity].
    + unfold print. cbn [snd world console store api_up].
      split; [reflexivity|]. split; [reflexivity|].
      eexists. apply last_line.
Qed.

Lemma testPrompts_unreachable (r : Run) :
  api_up (world r) = false ->
  let r' := snd (testPrompts r) in
  api_up (world r') = false
  /\ store (world r') = store (world r)
  /\ ends_in_error (console r').
Proof.
  intros Hup r'. subst r'. unfold testPrompts.
  rewrite bind_print. cbv beta. unfold Script.try_catch.
  rewrite bind_print. cbv beta.
  rewrite bind_request_down by exact Hup.
  unfold print. cbn [snd world console store api_up].
  split; [reflexivity|]. split; [reflexivity|].
  eexists. apply last_line.
Qed.

Lemma find_app_found {A : Type} (p : A -> bool) (l l' : list A) (x : A) :
  find p l = Some x -> find p (l ++ l')%list = Some x.
Proof.
  induction l as [|y l IH]; simpl; [discriminate|].
  destruct (p y); [trivial | exact IH].
Qed.

(** After a created account, the same body is refused wherever the
    accounts are those. *)
Lemma post_users_again (s s' s2 : Store) (body : UserFields.t) (st : nat)
  (data : option Json.User.t) (e : string) :
  post_users body s = (Sent st data, s') ->
  UserFields.email body = Some e ->
  users s2 = users s' ->
  post_users body s2 = (Failed 400 "Email already exists", s2).
Proof.
  intros Hpost He Husers.
  apply CreateFacts.post_users_inv in Hpost.
  apply CreateFacts.User_save_inv in Hpost.
  destruct Hpost as (Hv & _ & _ & ->).
  apply DuplicateFacts.post_users_taken; [exact Hv|].
  rewrite Husers. cbn [insert_user users].
  apply DuplicateFacts.existsb_last. unfold user_has_email.
  rewrite (CreateFacts.saved_user_email s body e He).
  rewrite (CreateFacts.saved_user_email s2 body e He).
  apply String.eqb_refl.
Qed.

Lemma post_editor_again (s s' s2 : Store) (st : nat) (data : Json.Role.t) :
  post_roles editor_role s = (Sent st data, s') ->
  roles s2 = roles s' ->
  post_roles editor_role s2 = (Failed 400 "Role name already exists", s2).
Proof.
  intros Hpost Hroles.
  apply DuplicateFacts.post_roles_inv in Hpost. subst s'.
  apply DuplicateFacts.post_roles_taken; [reflexivity|].
  rewrite Hroles. cbn [insert_role roles].
  now apply DuplicateFacts.existsb_last.
Qed.

(** The execution cannot get past its POSTs: the one it reaches first is
    refused. *)
Lemma blocked_outcome (r : Run) :
  api_up (world r) = true ->
  blocked (store (world r)) ->
  store (world (snd (testPrompts r))) = store (world r)
  /\ ends_in_error (console (snd (testPrompts r))).
Proof.
  intros Hup [Huser Hrole].
  pose proof (testPrompts_outcome r Hup) as [_ Hout]. cbv zeta in Hout.
  destruct (find is_admin (map role_toJSON (roles (store (world r)))))
    as [adminRole|].
  - destruct (Huser adminRole eq_refl) as [e He]. now rewrite He in Hout.
  - destruct (Hrole eq_refl) as [e He]. now rewrite He in Hout.
Qed.

Lemma testPrompts_blocks (r : Run) :
  api_up (world r) = true ->
  blocked (store (world (snd (testPrompts r)))).
Proof.
  intros Hup.
  pose proof (testPrompts_outcome r Hup) as [_ Hout]. cbv zeta in Hout.
  set (s := store (world r)) in *.
  set (s1 := store (world (snd (testPrompts r)))) in *.
  destruct (find is_admin (map role_toJSON (roles s))) as [adminRole|] eqn:Hf.
  - assert (Hgoal : forall e,
               roles s1 = roles s \/ (exists d, roles s1 = (roles s ++ [d])%list) ->
               post_users (test_user (Json.Role._id adminRole)) s1
               = (Failed 400 e, s1) ->
               blocked s1).
    { intros e Hroles Hpost. split.
      - intros a Ha. exists e.
        assert (Hsame : find is_admin (map role_toJSON (roles s1))
                        = Some adminRole).
        { destruct Hroles as [-> | [d ->]]; [exact Hf|].
          rewrite map_app. now apply find_app_found. }
        rewrite Hsame in Ha. injection Ha as <-. exact Hpost.
      - intros Hnone.
        assert (Hsame : find is_admin (map role_toJSON (roles s1))
                        = Some adminRole).
        { destruct Hroles as [-> | [d ->]]; [exact Hf|].
          rewrite map_app. now apply find_app_found. }
        rewrite Hsame in Hnone. discriminate. }
    destruct (post_users (test_user (Json.Role._id adminRole)) s)
      as [[st [u|]|st e] s'] eqn:Hpost.
    + pose proof (CreateFacts.post_users_inv _ _ _ _ _ Hpost) as Hsave.
      apply CreateFacts.User_save_inv in Hsave.
      destruct Hsave as (_ & _ & _ & Hs').
      destruct (post_roles editor_role s') as [[st2 d|st2 e2] s''] eqn:Hrole.
      * destruct Hout as [Hout _].
        pose proof (DuplicateFacts.post_roles_inv _ _ _ _ _ Hrole) as Hs''.
        apply (Hgoal "Email already exists").
        -- right. exists (saved_role s' editor_role).
           rewrite Hout, Hs'', Hs'. reflexivity.
        -- apply (post_users_again s s' s1 _ _ _ "test@example.com" Hpost);
             [reflexivity|]. rewrite Hout, Hs''. reflexivity.
      * destruct Hout as [Hout _].
        apply post_roles_refused in Hrole. destruct Hrole as [_ ->].
        apply (Hgoal "Email already exists").
        -- left. rewrite Hout, Hs'. reflexivity.
        -- apply (post_users_again s s' s1 _ _ _ "test@example.com" Hpost);
             [reflexivity|]. now rewrite Hout.
    + destruct Hout as [Hout _].
      pose proof (CreateFacts.post_users_inv _ _ _ _ _ Hpost) as Hsave.
      apply CreateFacts.User_save_inv in Hsave.
      destruct Hsave as (_ & _ & _ & Hs').
      apply (Hgoal "Email already exists").
      * left. rewrite Hout, Hs'. reflexivity.
      * apply (post_users_again s s' s1 _ _ _ "test@example.com" Hpost);
          [reflexivity|]. now rewrite Hout.
    + destruct Hout as [Hout _].
      pose proof (post_users_refused _ _ _ _ _ Hpost) as [-> ->].
      apply (Hgoal e); [left; now rewrite Hout|].
      rewrite Hout. exact Hpost.
  - destruct (post_roles editor_role s) as [[st2 d|st2 e2] s''] eqn:Hrole.
    + destruct Hout as [Hout _].
      pose proof (DuplicateFacts.post_roles_inv _ _ _ _ _ Hrole) as Hs''.
      assert (Hnone : find is_admin (map role_toJSON (roles s1)) = None).
      { rewrite Hout, Hs''. cbn [insert_role roles].
        rewrite map_app. cbn [map]. rewrite ModelFacts.find_app_last, Hf.
        reflexivity. }
      split.
      * intros a Ha. rewrite Hnone in Ha. discriminate.
      * intros _. exists "Role name already exists".
        apply (post_editor_again s s'' s1 _ _ Hrole). now rewrite Hout.
    + destruct Hout as [Hout _].
      pose proof (post_roles_refused _ _ _ _ _ Hrole) as [-> ->].
      split.
      * intros a Ha. subst s1. rewrite Hout, Hf in Ha. discriminate.
      * intros _. exists e2. subst s1. rewrite Hout. exact Hrole.
Qed.

(** X23.  [testPrompts] executed a second time, whatever the Store held before
    the first execution and whether or not the API is reachable: the
    second execution leaves the Store as the first left it and ends with
    the error line, since the POST it reaches first is refused. *)
Theorem testPrompts_again (r : Run) :
  let r1 := snd (testPrompts r) in
  let r2 := snd (testPrompts r1) in
  store (world r2) = store (world r1) /\ ends_in_error (console r2).
Proof.
  intros r1 r2. subst r2 r1.
  destruct (api_up (world r)) eqn:Hup.
  - pose proof (testPrompts_outcome r Hup) as [Hup1 _]. cbv zeta in Hup1.
    apply (blocked_outcome _ Hup1), (testPrompts_blocks r Hup).
  - pose proof (testPrompts_unreachable r Hup) as (Hup1 & _ & _).
    cbv zeta in Hup1.
    pose proof (testPrompts_unreachable _ Hup1) as (_ & Hs & He).
    now split.
Qed.

Lemma find_is_admin (l : list Role.t) :
  find is_admin (map role_toJSON l)
  = option_map role_toJSON (find (role_has_name "admin") l).
Proof.
  induction l as [|x l IH]; [reflexivity|]. cbn [map find].
  change (is_admin (role_toJSON x)) with (role_has_name "admin" x).
  destruct (role_has_name "admin" x); [reflexivity | exact IH].
Qed.

(** X24.  [testPrompts] against a reachable API whose Store holds a role named
    admin, no account under the script's email and no role named editor:
    the four requests are issued, the Store gains the account, which
    refers to the admin role and holds the digest of the script's
    password, and then the editor role, and the last line printed is the
    confirmation of the role. *)
Theorem testPrompts_creates (r : Run) (adminRole : Role.t) :
  api_up (world r) = true ->
  let s := store (world r) in
  well_formed s ->
  find (role_has_name "admin") (roles s) = Some adminRole ->
  existsb (user_has_email "test@example.com") (users s) = false ->
  existsb (role_has_name "editor") (roles s) = false ->
  let r' := snd (testPrompts r) in
  let account := saved_user s (test_user (toHexString (Role._id adminRole))) in
  let editor := new_role (N.succ (next_oid s)) editor_role in
  users (store (world r')) = (users s ++ [account])%list
  /\ roles (store (world r')) = (roles s ++ [editor])%list
  /\ User.role account = Role._id adminRole
  /\ User.password account = bcrypt_hash "testpass123" 10
  /\ requests (world r')
     = (requests (world r)
        ++ [GET "/users"; GET "/roles"; POST "/users"; POST "/roles"])%list
  /\ last (console r') (log "") = log "   ✅ Created role: editor".
Proof.
  intros Hup s Hwf Hadmin Hfree Hname r' account editor.
  pose proof (testPrompts_outcome r Hup) as [_ Hout]. cbv zeta in Hout.
  fold s r' in Hout. rewrite find_is_admin, Hadmin in Hout.
  cbn [option_map role_toJSON Json.Role._id] in Hout. fold account in Hout.
  assert (Hid : (Role._id adminRole < ObjectId_bound)%N).
  { destruct Hwf as (_ & Hr & Hb). rewrite Forall_forall in Hr.
    apply find_some in Hadmin. destruct Hadmin as [Hin _].
    specialize (Hr adminRole Hin). lia. }
  pose proof (BsonFacts.castObjectId_toHexString _ Hid) as Hcast.
  set (body := test_user (toHexString (Role._id adminRole))) in *.
  assert (Hlower : toLowerCase (trim "test@example.com")
                   = "test@example.com").
  { change (trim "test@example.com") with "test@example.com".
    now rewrite toLowerCase_on_ascii. }
  assert (Hv : validate_user (user_setters body) = []).
  { unfold validate_user, check_role_cast.
    cbn [body test_user user_setters UserFields.role UserFields.dateOfBirth
         UserFields.email UserFields.firstName UserFields.lastName
         UserFields.password option_map check_date_cast].
    rewrite Hcast, Hlower. reflexivity. }
  assert (Hemail : User.email account = "test@example.com").
  { unfold account.
    rewrite (CreateFacts.saved_user_email s body "test@example.com" eq_refl).
    exact Hlower. }
  assert (Hfree' : existsb (user_has_email (User.email (saved_user s body)))
                     (users s) = false).
  { fold account. rewrite Hemail. exact Hfree. }
  destruct (CreateFacts.post_users_then_get s body Hwf Hv Hfree')
    as [Hpost _].
  fold account in Hpost. rewrite Hpost in Hout.
  assert (Hrole : post_roles editor_role (insert_user s account)
                  = (Sent 201 (role_toJSON editor),
                     insert_role (insert_user s account) editor)).
  { unfold post_roles, Role_save.
    change (validate_role (role_setters editor_role)) with (@nil violation).
    cbv beta iota zeta.
    change (Role.name (new_role (next_oid (insert_user s account))
                         (role_setters editor_role))) with "editor".
    cbn [insert_user roles]. rewrite Hname. reflexivity. }
  rewrite Hrole in Hout. destruct Hout as (Hstore & Hlast & Hreq).
  rewrite Hstore. cbn [insert_role insert_user users roles].
  split; [reflexivity|]. split; [reflexivity|].
  split; [exact (ToolFacts.saved_user_role s body _ _ eq_refl Hcast)|].
  split; [exact (CreateFacts.saved_user_password s body _ eq_refl)|].
  split; [|exact Hlast].
  rewrite Hreq. rewrite <- !app_assoc. reflexivity.
Qed.

End WithCollaborators.

Import Examples.

Lemma quickTest_again_witness :
  let r := {| world := Scenario.fresh_world; console := [] |} in
  let r1 := snd (quickTest r) in
  let r2 := snd (quickTest r1) in
  roles (store (world r)) = []
  /\ List.length (roles (store (world r1))) = 2
  /\ store (world r2) = store (world r1)
  /\ requests (world r2)
     = [GET "/roles"; POST "/seed"; GET "/users"; GET "/roles"; GET "/users"]
  /\ console r2
     = (console r1
        ++ [log "Testing API..."; log "✅ API working! Found 2 roles";
            log "✅ Found 1 users"])%list.
Proof.
  intros r r1 r2.
  destruct (quickTest_again (unicode := ascii_case) r eq_refl) as (Hseed & _ & _ & Hsecond).
  split; [reflexivity|]. split; [reflexivity|].
  subst r2. fold r1 in Hsecond. rewrite Hsecond.
  split; [reflexivity|]. split; reflexivity.
Defined.

Lemma testPrompts_creates_witness :
  let r := {| world := Scenario.seeded_world; console := [] |} in
  let adminRole := new_role 1%N seed_admin_role in
  let r' := snd (testPrompts r) in
  well_formed (store (world r))
  /\ find (role_has_name "admin") (roles (store (world r))) = Some adminRole
  /\ map User.email (users (store (world r')))
     = ["admin@example.com"; "test@example.com"]
  /\ map Role.name (roles (store (world r'))) = ["admin"; "user"; "editor"]
  /\ last (console r') (log "") = log "   ✅ Created role: editor".
Proof.
  intros r adminRole r'.
  assert (W : well_formed (store (world r)))
    by (repeat split; repeat constructor).
  split; [exact W|]. split; [reflexivity|].
  destruct (testPrompts_creates (unicode := ascii_case) r adminRole eq_refl W eq_refl eq_refl eq_refl)
    as (Husers & Hroles & _ & _ & _ & Hlast).
  fold r' in Husers, Hroles, Hlast.
  rewrite Husers, Hroles. split; [reflexivity|]. split; [reflexivity|].
  exact Hlast.
Defined.

End ScriptFacts.
